(** * Capture pipeline of the browser extension: classifier, converter,
      dedup filters, background router and capture store

    Shallow embedding of [src/lib/capture.ts] (page side) and of the
    content and background scripts, followed by the properties proved of
    them.  Definitions come first, theorems second. *)

From Stdlib Require Import ZArith NArith String Ascii List Lia Bool.
From stdpp Require Import gmap list.
Import ListNotations.

Local Open Scope Z_scope.

(* ===================================================================== *)
(** * Part I.  Definitions                                                *)
(* ===================================================================== *)

(** ** JavaScript strings

    A JavaScript string is a finite sequence of UTF-16 code units; a code
    unit is a natural number ([N]).  [str] turns a literal of the source
    into that sequence. *)

Abbreviation jsstring := (list N).

Definition str (s : string) : jsstring :=
  List.map N_of_ascii (list_ascii_of_string s).

(** [s.substring(0, n)] *)
Definition substring0 (n : nat) (s : jsstring) : jsstring := take n s.

(** The characters matched by [\s] and removed by [String.prototype.trim]:
    ECMAScript WhiteSpace and LineTerminator. *)
Definition is_space (c : N) : bool :=
  ((9 <=? c) && (c <=? 13) || (c =? 32) || (c =? 160) || (c =? 5760)
   || (8192 <=? c) && (c <=? 8202) || (c =? 8232) || (c =? 8233)
   || (c =? 8239) || (c =? 8287) || (c =? 12288) || (c =? 65279))%N.

(** The characters [.] does not match (no [s] flag): line terminators. *)
Definition is_line_terminator (c : N) : bool :=
  ((c =? 10) || (c =? 13) || (c =? 8232) || (c =? 8233))%N.

Fixpoint trimStart (s : jsstring) : jsstring :=
  match s with
  | c :: s' => if is_space c then trimStart s' else s
  | [] => []
  end.

Definition trim (s : jsstring) : jsstring :=
  rev (trimStart (rev (trimStart s))).

(** [Canonicalize] of the regular-expression semantics under the [i] flag
    (no [u] flag).  Every pattern character of the source is ASCII; a code
    unit outside ASCII never canonicalizes to an ASCII one, so comparing the
    ASCII upper-case forms decides the match against a pattern character. *)
Definition canonicalize (c : N) : N :=
  if ((97 <=? c) && (c <=? 122))%N then (c - 32)%N else c.

(** ** Regular expressions

    The fragment of ECMAScript regular expressions the sources use:
    pattern characters, the classes [[^c]], [.] and [\s], greedy and lazy
    stars over one of those, concatenation, alternation, capture groups. *)

Inductive atom :=
| Chr (c : N)        (* a pattern character *)
| NotChr (c : N)     (* [^c] *)
| Dot                (* .  *)
| Space.             (* \s *)

Inductive regex :=
| Eps
| One (a : atom)
| Star (a : atom)        (* a*  *)
| StarLazy (a : atom)    (* a*? *)
| Cat (r1 r2 : regex)
| Alt (r1 r2 : regex)
| Grp (i : nat) (r : regex).

(** Capture groups: the most recent binding of a group comes first. *)
Definition captures := list (nat * jsstring).

Fixpoint capture (i : nat) (c : captures) : jsstring :=
  match c with
  | (j, v) :: c' => if Nat.eqb i j then v else capture i c'
  | [] => []          (* an unset group substitutes the empty string *)
  end.

Definition atom_matches (ic : bool) (a : atom) (x : N) : bool :=
  match a with
  | Chr c => if ic then (canonicalize x =? canonicalize c)%N else (x =? c)%N
  | NotChr c => negb (if ic then (canonicalize x =? canonicalize c)%N else (x =? c)%N)
  | Dot => negb (is_line_terminator x)
  | Space => is_space x
  end.

Section Matcher.
Context {A : Type}.
Variable ic : bool.   (* the [i] flag *)

(** Greedy star: take the atom as often as possible, give characters back
    one by one while the continuation fails. *)
Fixpoint star_greedy (a : atom) (s : jsstring) (k : jsstring -> option A) : option A :=
  match s with
  | x :: s' =>
      if atom_matches ic a x then
        match star_greedy a s' k with
        | Some r => Some r
        | None => k s
        end
      else k s
  | [] => k s
  end.

(** Lazy star: try the continuation first, take one more character when it
    fails. *)
Fixpoint star_lazy (a : atom) (s : jsstring) (k : jsstring -> option A) : option A :=
  match k s with
  | Some r => Some r
  | None =>
      match s with
      | x :: s' => if atom_matches ic a x then star_lazy a s' k else None
      | [] => None
      end
  end.

(** The backtracking matcher, in continuation-passing style as in the
    language specification: [k] receives the rest of the input and the
    captures so far. *)
Fixpoint rmatch (r : regex) (s : jsstring) (c : captures)
    (k : jsstring -> captures -> option A) : option A :=
  match r with
  | Eps => k s c
  | One a =>
      match s with
      | x :: s' => if atom_matches ic a x then k s' c else None
      | [] => None
      end
  | Star a => star_greedy a s (fun s' => k s' c)
  | StarLazy a => star_lazy a s (fun s' => k s' c)
  | Cat r1 r2 => rmatch r1 s c (fun s' c' => rmatch r2 s' c' k)
  | Alt r1 r2 =>
      match rmatch r1 s c k with
      | Some x => Some x
      | None => rmatch r2 s c k
      end
  | Grp i r1 =>
      rmatch r1 s c
        (fun s' c' => k s' ((i, take (length s - length s') s) :: c'))
  end.

End Matcher.

(** A match anchored at the start of [s]: the captures and the unmatched
    rest. *)
Definition exec (ic : bool) (r : regex) (s : jsstring) : option (captures * jsstring) :=
  rmatch ic r s [] (fun s' c => Some (c, s')).

(** Replacement templates: literal text and [$n]. *)
Inductive titem :=
| TLit (s : jsstring)
| TGroup (i : nat).

Definition template := list titem.

Fixpoint substitute (t : template) (c : captures) : jsstring :=
  match t with
  | TLit s :: t' => s ++ substitute t' c
  | TGroup i :: t' => capture i c ++ substitute t' c
  | [] => []
  end.

(** [s.replace(/r/g, t)].  The scan walks the string once; [skip] counts the
    characters of the current position that belong to the match just
    replaced.  An empty match advances by one character, which is copied. *)
Fixpoint replace_from (ic : bool) (r : regex) (t : template)
    (skip : nat) (s : jsstring) : jsstring :=
  match skip with
  | S n =>
      match s with
      | _ :: s' => replace_from ic r t n s'
      | [] => []
      end
  | O =>
      match exec ic r s with
      | Some (c, rest) =>
          substitute t c ++
          match s with
          | x :: s' =>
              match (length s - length rest)%nat with
              | O => x :: replace_from ic r t O s'
              | S n => replace_from ic r t n s'
              end
          | [] => []
          end
      | None =>
          match s with
          | x :: s' => x :: replace_from ic r t O s'
          | [] => []
          end
      end
  end.

Definition replace_all (ic : bool) (r : regex) (t : template) (s : jsstring) : jsstring :=
  replace_from ic r t O s.

(** A pattern-character sequence. *)
Fixpoint lit_chars (l : list N) : regex :=
  match l with
  | [] => Eps
  | [c] => One (Chr c)
  | c :: l' => Cat (One (Chr c)) (lit_chars l')
  end.

Definition lit (s : string) : regex := lit_chars (str s).

Definition sequence (rs : list regex) : regex := foldr Cat Eps rs.

(** [/\s+/g] *)
Definition re_spaces : regex := Cat (One Space) (Star Space).

Definition strip_spaces (s : jsstring) : jsstring := replace_all false re_spaces [] s.

(** ** [htmlToMarkdown] (src/lib/capture.ts) *)

(** [/<hN[^>]*>(.*?)<\/hN>/gi] *)
Definition re_heading (n : string) : regex :=
  sequence [lit "<h"; lit n; Star (NotChr 62); One (Chr 62);
       Grp 1 (StarLazy Dot); lit "</h"; lit n; lit ">"].

(** [/<p[^>]*>(.*?)<\/p>/gi] *)
Definition re_paragraph : regex :=
  sequence [lit "<p"; Star (NotChr 62); One (Chr 62);
       Grp 1 (StarLazy Dot); lit "</p>"].

(** [/<a[^>]*href="(.*?)"[^>]*>(.*?)<\/a>/gi] *)
Definition re_link : regex :=
  sequence [lit "<a"; Star (NotChr 62); lit "href="; One (Chr 34);
       Grp 1 (StarLazy Dot); One (Chr 34); Star (NotChr 62); One (Chr 62);
       Grp 2 (StarLazy Dot); lit "</a>"].

(** [/<(strong|b)[^>]*>(.*?)<\/(strong|b)>/gi] *)
Definition re_bold : regex :=
  sequence [lit "<"; Grp 1 (Alt (lit "strong") (lit "b")); Star (NotChr 62);
       One (Chr 62); Grp 2 (StarLazy Dot); lit "</";
       Grp 3 (Alt (lit "strong") (lit "b")); lit ">"].

(** [/<(em|i)[^>]*>(.*?)<\/(em|i)>/gi] *)
Definition re_italic : regex :=
  sequence [lit "<"; Grp 1 (Alt (lit "em") (lit "i")); Star (NotChr 62);
       One (Chr 62); Grp 2 (StarLazy Dot); lit "</";
       Grp 3 (Alt (lit "em") (lit "i")); lit ">"].

(** [/<br[^>]*>/gi] *)
Definition re_br : regex := sequence [lit "<br"; Star (NotChr 62); One (Chr 62)].

(** [/<[^>]*>/g] *)
Definition re_tag : regex := sequence [lit "<"; Star (NotChr 62); One (Chr 62)].

Definition nl : jsstring := [10%N].

Definition heading_template (hashes : string) : template :=
  [TLit (str hashes ++ str " "); TGroup 1; TLit (nl ++ nl)].

Definition htmlToMarkdown (html : jsstring) : jsstring :=
  let markdown := html in
  (* Replace h1-h6 with markdown equivalents *)
  let markdown := replace_all true (re_heading "1") (heading_template "#") markdown in
  let markdown := replace_all true (re_heading "2") (heading_template "##") markdown in
  let markdown := replace_all true (re_heading "3") (heading_template "###") markdown in
  let markdown := replace_all true (re_heading "4") (heading_template "####") markdown in
  let markdown := replace_all true (re_heading "5") (heading_template "#####") markdown in
  let markdown := replace_all true (re_heading "6") (heading_template "######") markdown in
  (* Replace paragraph tags *)
  let markdown := replace_all true re_paragraph [TGroup 1; TLit (nl ++ nl)] markdown in
  (* Replace links *)
  let markdown := replace_all true re_link
                    [TLit (str "["); TGroup 2; TLit (str "]("); TGroup 1; TLit (str ")")]
                    markdown in
  (* Replace strong/bold *)
  let markdown := replace_all true re_bold
                    [TLit (str "**"); TGroup 2; TLit (str "**")] markdown in
  (* Replace em/italic *)
  let markdown := replace_all true re_italic
                    [TLit (str "*"); TGroup 2; TLit (str "*")] markdown in
  (* Replace line breaks *)
  let markdown := replace_all true re_br [TLit nl] markdown in
  (* Remove remaining HTML tags *)
  let markdown := replace_all false re_tag [] markdown in
  (* Decode HTML entities *)
  let markdown := replace_all false (lit "&nbsp;") [TLit (str " ")] markdown in
  let markdown := replace_all false (lit "&amp;") [TLit (str "&")] markdown in
  let markdown := replace_all false (lit "&lt;") [TLit (str "<")] markdown in
  let markdown := replace_all false (lit "&gt;") [TLit (str ">")] markdown in
  let markdown := replace_all false (lit "&quot;") [TLit [34%N]] markdown in
  markdown.


(** *** Notions used to state the conversion rules *)

(** Text without markup: no [<], no [&] and no line terminator. *)
Definition text_char (x : N) : bool :=
  negb (x =? 60)%N && negb (x =? 38)%N && negb (is_line_terminator x).

Definition markup_free (t : jsstring) : bool := forallb text_char t.

(** Text that can stand in an attribute value as well: in addition no
    [>] and no double quote. *)
Definition attr_char (x : N) : bool :=
  text_char x && negb (x =? 62)%N && negb (x =? 34)%N.

Definition attr_safe (t : jsstring) : bool := forallb attr_char t.

(** A string in which the character [c0] does not occur. *)
Definition lacks (c0 : N) (s : jsstring) : bool :=
  forallb (fun x => negb (x =? c0)%N) s.

(** What stands between [<] and [>] in a tag. *)
Definition tag_body (g : jsstring) : bool := lacks 60 g && lacks 62 g.

(** The pattern character every match of [r] starts with, when there is
    one. *)
Fixpoint first_char (r : regex) : option N :=
  match r with
  | One (Chr c) => Some c
  | Cat r1 _ => first_char r1
  | Grp _ r1 => first_char r1
  | _ => None
  end.

(** How often the pattern character [c0] occurs in [s], as the matcher
    compares characters. *)
Definition occurrences (ic : bool) (c0 : N) (s : jsstring) : nat :=
  length (List.filter (atom_matches ic (Chr c0)) s).

(** A lower bound on the occurrences of [c0] in any match of [r]. *)
Fixpoint min_count (ic : bool) (c0 : N) (r : regex) : nat :=
  match r with
  | One (Chr c) => if atom_matches ic (Chr c0) c then 1 else 0
  | Cat r1 r2 => min_count ic c0 r1 + min_count ic c0 r2
  | Alt r1 r2 => Nat.min (min_count ic c0 r1) (min_count ic c0 r2)
  | Grp _ r1 => min_count ic c0 r1
  | _ => 0
  end.

(** No [<] is followed, anywhere later, by a [>]. *)
Fixpoint tag_free (s : jsstring) : bool :=
  match s with
  | [] => true
  | x :: s' => (negb (x =? 60)%N || negb (existsb (N.eqb 62) s')) && tag_free s'
  end.

(** Drop the line feeds at the end. *)
Definition trim_newlines (s : jsstring) : jsstring :=
  rev ((fix drop (l : jsstring) : jsstring :=
          match l with
          | x :: l' => if (x =? 10)%N then drop l' else l
          | [] => []
          end) (rev s)).

(** ** Data model (src/lib/capture.ts, src/entrypoints/types.ts) *)

Inductive CaptureType := TEXT | HTML | MARKDOWN | SCREENSHOT | FULLPAGE.

(** The string value of each member of the enum. *)
Definition CaptureType_value (t : CaptureType) : jsstring :=
  match t with
  | TEXT => str "text"
  | HTML => str "html"
  | MARKDOWN => str "markdown"
  | SCREENSHOT => str "screenshot"
  | FULLPAGE => str "fullpage"
  end.

Inductive MessageType :=
| clickExtIcon | changeTheme | changeLocale | contentScriptLoaded
| sidePanelLoaded | capturedSelection | requestTextSelection
| requestCapture | captureScreenshot_msg | requestScreenshotPermission
| testToasts.

Definition MessageType_value (t : MessageType) : jsstring :=
  match t with
  | clickExtIcon => str "clickExtIcon"
  | changeTheme => str "changeTheme"
  | changeLocale => str "changeLocale"
  | contentScriptLoaded => str "contentScriptLoaded"
  | sidePanelLoaded => str "sidePanelLoaded"
  | capturedSelection => str "capturedSelection"
  | requestTextSelection => str "requestTextSelection"
  | requestCapture => str "requestCapture"
  | captureScreenshot_msg => str "captureScreenshot"
  | requestScreenshotPermission => str "requestScreenshotPermission"
  | testToasts => str "testToasts"
  end.

Inductive MessageFrom := contentScript | background | popUp | sidePanel.

(** The values a metadata record holds: strings, whole numbers, booleans
    and one nested record of strings (the styling). *)
Inductive jsval :=
| VStr (s : jsstring)
| VNum (n : Z)
| VBool (b : bool)
| VRec (fields : list (jsstring * jsstring)).

(** A metadata object: an association list in which a later binding of a
    key overrides an earlier one, as the object spread
    [{a: .., ...rest}] does. *)
Definition PageMetadata := list (jsstring * jsval).

Fixpoint meta_get (k : jsstring) (m : PageMetadata) : option jsval :=
  match m with
  | (k', v) :: m' =>
      match meta_get k m' with
      | Some v' => Some v'
      | None => if decide (k = k') then Some v else None
      end
  | [] => None
  end.

Definition truthy (v : jsval) : bool :=
  match v with
  | VStr s => negb (if decide (s = []) then true else false)
  | VNum n => negb (n =? 0)
  | VBool b => b
  | VRec _ => true
  end.

(** Decimal digits of a natural number, most significant first; the
    recursion is on [fuel], which bounds the number of digits. *)
Fixpoint digits_of (fuel : nat) (n : N) (acc : jsstring) : jsstring :=
  match fuel with
  | O => acc
  | S f =>
      let acc' := ((48 + n mod 10)%N :: acc) in
      if (n <? 10)%N then acc' else digits_of f (n / 10)%N acc'
  end.

Definition digits (a : Z) : jsstring :=
  digits_of (S (N.to_nat (N.log2 (Z.to_N a)))) (Z.to_N a) [].

(** A number of the program is a double.  The whole number [a >= 0] is one
    when it is below 2^53 or a multiple of the spacing 2^e of the doubles
    of its size; any other is taken for the nearest double, the one of even
    significand at a tie, as a numeric operation of JavaScript rounds its
    result. *)
Definition spacing_exponent (a : Z) : Z := Z.max 0 (Z.log2 a - 52).

Definition nearest_double (a : Z) : Z :=
  let e := spacing_exponent a in
  let q := Z.shiftr a e in
  let r := a - Z.shiftl q e in
  let up := (Z.shiftl 1 e <? 2 * r) || ((Z.shiftl 1 e =? 2 * r) && Z.odd q) in
  Z.shiftl (if up then q + 1 else q) e.

(** Twice the bounds of the values that read back as the double [x]: half
    way to the next double on either side, the lower one being half as far
    when [x] is a power of two; both bounds read back as [x] when its
    significand is even. *)
Definition reads_back (x v : Z) : bool :=
  let e := spacing_exponent x in
  let m := Z.shiftr x e in
  let above := Z.shiftl 1 e in
  let below := if (m =? 2 ^ 52) && (0 <? e) then Z.shiftl 1 (e - 1) else above in
  if Z.even m
  then (2 * x - below <=? 2 * v) && (2 * v <=? 2 * x + above)
  else (2 * x - below <? 2 * v) && (2 * v <? 2 * x + above).

(** Number::toString, step 5: the decimal of fewest significant digits that
    reads back as [x], the closest to [x] among those of that length.  [p]
    counts the zeros the decimal ends in. *)
Fixpoint shortest (fuel : nat) (p : Z) (x : Z) : Z :=
  match fuel with
  | O => x
  | S f =>
      let u := 10 ^ p in
      let below := (x / u) * u in
      let above := below + u in
      match reads_back x below, reads_back x above with
      | true, true =>
          if x - below <? above - x then below
          else if above - x <? x - below then above
          else if Z.even (x / u) then below else above
      | true, false => below
      | false, true => above
      | false, false => if p <=? 0 then x else shortest f (p - 1) x
      end
  end.

Fixpoint drop_zeros (r : jsstring) : jsstring :=
  match r with
  | 48%N :: r' => drop_zeros r'
  | _ => r
  end.

(** Number::toString of a whole number [a >= 0]: its digits up to 21 of
    them, beyond that the first digit, the further ones up to the last that
    is not zero behind a point, and the exponent. *)
Definition number_to_string (a : Z) : jsstring :=
  let x := nearest_double a in
  if 1024 <=? Z.log2 x then str "Infinity" else
  let d := digits (shortest 18 (Z.of_nat (length (digits x)) - 1) x) in
  if (length d <=? 21)%nat then d else
  match d with
  | d1 :: rest =>
      let frac := rev (drop_zeros (rev rest)) in
      d1 :: (match frac with [] => [] | _ => 46%N :: frac end)
         ++ str "e+" ++ digits (Z.of_nat (length rest))
  | [] => d
  end.

(** [String(v)] as a template literal computes it. *)
Definition to_jsstring (v : jsval) : jsstring :=
  match v with
  | VStr s => s
  | VNum n => if n <? 0 then 45%N :: number_to_string (- n) else number_to_string n
  | VBool b => if b then str "true" else str "false"
  | VRec _ => str "[object Object]"
  end.

Record CapturedContent := {
  cc_type : CaptureType;
  cc_content : jsstring;
  cc_title : jsstring;
  cc_url : jsstring;
  cc_timestamp : Z;
  cc_metadata : option PageMetadata
}.

Record ExtMessage := {
  messageType : MessageType;
  from : option MessageFrom;
  content : option jsstring;
  metadata : option PageMetadata
}.

(** [message.metadata?.type] *)
Definition metadata_type (m : ExtMessage) : option jsval :=
  match metadata m with
  | Some md => meta_get (str "type") md
  | None => None
  end.

(** [v || ''] inside a template literal *)
Definition or_empty (v : option jsval) : jsstring :=
  match v with
  | Some x => if truthy x then to_jsstring x else []
  | None => []
  end.

(** ** The time-windowed dedup maps

    [captureTracker] (src/lib/capture.ts) and [messageDeduplication]
    (background script) are two objects with the same [isDuplicate] and
    [cleanup] bodies over a [Map<string, number>] of their own; they differ
    in the window and in how the hash is computed. *)

Section DedupMap.
Variable deduplicationWindow : Z.

(** [cleanup(now)]: delete every entry with [now - timestamp > window]. *)
Definition dedup_cleanup (now : Z) (m : gmap jsstring Z) : gmap jsstring Z :=
  filter (fun kv => negb (now - kv.2 >? deduplicationWindow) = true) m.

(** The body of [isDuplicate] after the hash is computed: the answer and
    the map it leaves. *)
Definition dedup_check (hash : jsstring) (now : Z) (m : gmap jsstring Z)
  : bool * gmap jsstring Z :=
  (* Clean up old entries *)
  let m1 := dedup_cleanup now m in
  match m1 !! hash with
  | Some ts =>
      (* [get(hash) || 0] *)
      let timestamp := if ts =? 0 then 0 else ts in
      (now - timestamp <? deduplicationWindow, m1)
  | None =>
      (* Not a duplicate, store it *)
      (false, <[hash := now]> m1)
  end.

End DedupMap.

Module captureTracker.

Definition deduplicationWindow : Z := 10000.

Definition getContentHash (c : CapturedContent) : jsstring :=
  let contentSample := strip_spaces (substring0 100 (cc_content c)) in
  CaptureType_value (cc_type c) ++ str "-" ++ cc_url c ++ str "-" ++ contentSample.

Definition cleanup := dedup_cleanup deduplicationWindow.

Definition isDuplicate (c : CapturedContent) (now : Z) (recentCaptures : gmap jsstring Z)
  : bool * gmap jsstring Z :=
  dedup_check deduplicationWindow (getContentHash c) now recentCaptures.

End captureTracker.

Module messageDeduplication.

Definition deduplicationWindow : Z := 5000.

Definition getMessageHash (m : ExtMessage) : jsstring :=
  let contentSample :=
    match content m with
    | Some c => if decide (c = []) then [] else strip_spaces (substring0 100 c)
    | None => []
    end in
  or_empty (metadata_type m) ++ str "-" ++ contentSample.

Definition cleanup := dedup_cleanup deduplicationWindow.

Definition isDuplicate (m : ExtMessage) (now : Z) (recentMessages : gmap jsstring Z)
  : bool * gmap jsstring Z :=
  dedup_check deduplicationWindow (getMessageHash m) now recentMessages.

End messageDeduplication.

(** ** The selection and its cloned fragment *)

(** A DOM node of the cloned fragment.  An element has a namespace flag
    (HTML or foreign, such as SVG), a local name, attributes and children;
    [OtherNode] stands for the node types that are neither element nor
    text. *)
#[warnings="-register-all"]
Inductive node :=
| TextNode (data : jsstring)
| OtherNode
| Element (html : bool) (localName : jsstring)
          (attributes : list (jsstring * jsstring)) (childNodes : list node).

(** ASCII upper case, as [tagName] applies it to an HTML element. *)
Definition upper (s : jsstring) : jsstring := List.map canonicalize s.

(** [el.tagName] *)
Definition tagName (html : bool) (localName : jsstring) : jsstring :=
  if html then upper localName else localName.

(** [fragment.querySelectorAll('*')]: the tag name and the local name of
    every descendant element, in tree order. *)
Fixpoint elements_of (n : node) : list (jsstring * jsstring) :=
  match n with
  | Element h ln _ ch =>
      (tagName h ln, ln) ::
      (fix all (l : list node) : list (jsstring * jsstring) :=
         match l with
         | [] => []
         | c :: l' => elements_of c ++ all l'
         end) ch
  | _ => []
  end.

Definition querySelectorAll_star (fragment : list node) : list (jsstring * jsstring) :=
  flat_map elements_of fragment.

Definition includes (l : list jsstring) (x : jsstring) : bool :=
  existsb (fun y => if decide (x = y) then true else false) l.

(** [fragment.querySelectorAll('img, video, canvas, svg, table, iframe')]:
    a type selector compares the element's local name. *)
Definition specialSelectors : list jsstring :=
  [str "img"; str "video"; str "canvas"; str "svg"; str "table"; str "iframe"].

Definition querySelectorAll_special (fragment : list node) : list (jsstring * jsstring) :=
  List.filter (fun e => includes specialSelectors e.2) (querySelectorAll_star fragment).

(** Induction over nodes, with the children of an element covered. *)
Section NodeInduction.
Variable P : node -> Prop.
Hypothesis Htext : forall d, P (TextNode d).
Hypothesis Hother : P OtherNode.
Hypothesis Helement : forall h ln attrs ch,
    Forall P ch -> P (Element h ln attrs ch).

Fixpoint node_induction (n : node) : P n :=
  match n with
  | TextNode d => Htext d
  | OtherNode => Hother
  | Element h ln attrs ch =>
      Helement h ln attrs ch
        ((fix children (l : list node) : Forall P l :=
            match l with
            | [] => @List.Forall_nil node P
            | c :: l' => @List.Forall_cons node P c l' (node_induction c) (children l')
            end) ch)
  end.

End NodeInduction.

Record Selection := {
  rangeCount : nat;
  sel_toString : jsstring;                 (* selection.toString() *)
  sel_fragment : list node;                (* getRangeAt(0).cloneContents() *)
  sel_innerHTML : jsstring;                (* serialization of the clone *)
  sel_styles : list (jsstring * jsstring)  (* computed style of the anchor's parent *)
}.

(** [!selection || selection.rangeCount === 0 || selection.toString().trim() === ''] *)
Definition no_selection (sel : option Selection) : bool :=
  match sel with
  | None => true
  | Some s =>
      (rangeCount s =? 0)%nat || (if decide (trim (sel_toString s) = []) then true else false)
  end.

Definition wrapperTags : list jsstring := [str "BR"; str "P"; str "DIV"; str "SPAN"].

(** A node all of whose elements, at any depth, are BR, P, DIV or SPAN
    without attributes. *)
Fixpoint plain_wrapper (n : node) : bool :=
  match n with
  | Element h ln attrs ch =>
      includes wrapperTags (tagName h ln) && (length attrs =? 0)%nat
      && forallb plain_wrapper ch
  | _ => true
  end.

Definition htmlElements : list jsstring :=
  [str "A"; str "UL"; str "OL"; str "LI"; str "TABLE"; str "IMG";
   str "H1"; str "H2"; str "H3"; str "H4"; str "H5"; str "H6";
   str "STRONG"; str "EM"; str "CODE"].

Definition shouldUseHTMLCapture (selection : option Selection) : bool :=
  match selection with
  | None => false
  | Some sel =>
      if (rangeCount sel =? 0)%nat then false
      else
        let fragment := sel_fragment sel in
        (* Check if there are any elements that would benefit from HTML capture *)
        let hasFormattedContent :=
          existsb (fun n =>
                     match n with
                     | Element h ln attrs _ =>
                         negb (includes wrapperTags (tagName h ln)
                               && (length attrs =? 0)%nat)
                     | _ => false
                     end) fragment in
        (* Also check for meaningful HTML elements like links, lists, etc. *)
        let hasHtmlElements :=
          existsb (fun e => includes htmlElements e.1) (querySelectorAll_star fragment) in
        hasFormattedContent || hasHtmlElements
  end.

Definition markdownElements : list jsstring :=
  [str "H1"; str "H2"; str "H3"; str "H4"; str "H5"; str "H6"; str "P";
   str "UL"; str "OL"; str "LI"; str "A"; str "CODE"; str "BLOCKQUOTE"].

(** [specialRatio < 0.2], where [specialRatio] is
    [totalElements > 0 ? specialElements / totalElements : 0].  The source
    divides two element counts in double precision and compares with the
    double nearest to 1/5; for counts below 2^50 that comparison holds
    exactly when [5 * specialElements < totalElements]. *)
Definition specialRatio_below_threshold (specialElements totalElements : nat) : bool :=
  if (0 <? totalElements)%nat
  then (5 * specialElements <? totalElements)%nat
  else true.

(** [detectCaptureType()], with [window.getSelection()] as argument. *)
Definition detectCaptureType (selection : option Selection) : option CaptureType :=
  if no_selection selection then None
  else if shouldUseHTMLCapture selection then
    match selection with
    | None => None
    | Some sel =>
        let fragment := sel_fragment sel in
        let hasMarkdownElements :=
          existsb (fun e => includes markdownElements e.1) (querySelectorAll_star fragment) in
        let totalElements := length (querySelectorAll_star fragment) in
        let specialElements := length (querySelectorAll_special fragment) in
        if hasMarkdownElements && specialRatio_below_threshold specialElements totalElements
        then Some MARKDOWN
        else Some HTML
    end
  else Some TEXT.

(** ** The page context (src/lib/capture.ts)

    A capture function reads the page, may raise, mutates the capture
    tracker and produces effects (messages handed to [sendCapturedContent],
    notifications).  It is a computation in a monad with that state and
    with exceptions; state and effects survive a raised exception, as in
    JavaScript. *)

Inductive toast :=
| CaptureToast (label : jsstring) (body : jsstring)   (* showCaptureToast *)
| CapturedToast (c : CapturedContent)                 (* showCustomToast, title "Captured" *)
| NoContentToast (t : CaptureType)                    (* "No <type> content captured" *)
| CaptureFailedToast (message : jsstring)             (* "Capture failed" *)
| InfoToast (title : jsstring)                        (* showInfoToast *)
| ErrorToast (title : jsstring)                       (* showErrorToast *)
| PlainToast (message : jsstring).                    (* showToast *)

Inductive effect :=
| Sent (c : CapturedContent)     (* sendCapturedContent(c) *)
| Shown (t : toast).

Inductive outcome (A : Type) :=
| Ret (a : A)
| Throw (e : jsstring).
Arguments Ret {A} a.
Arguments Throw {A} e.

Record pstate := {
  recentCaptures : gmap jsstring Z;   (* captureTracker.recentCaptures *)
  trace : list effect                 (* effects so far, oldest first *)
}.

Definition M (A : Type) : Type := pstate -> outcome A * pstate.

Definition ret {A} (a : A) : M A := fun st => (Ret a, st).

Definition throw {A} (e : jsstring) : M A := fun st => (Throw e, st).

Definition bind {A B} (m : M A) (k : A -> M B) : M B :=
  fun st =>
    match m st with
    | (Ret a, st') => k a st'
    | (Throw e, st') => (Throw e, st')
    end.

(** [try { m } catch (e) { h e }] *)
Definition try_catch {A} (m : M A) (h : jsstring -> M A) : M A :=
  fun st =>
    match m st with
    | (Ret a, st') => (Ret a, st')
    | (Throw e, st') => h e st'
    end.

Definition emit (e : effect) : M unit :=
  fun st => (Ret tt, {| recentCaptures := recentCaptures st; trace := trace st ++ [e] |}).

(** [captureTracker.recentCaptures.set(hash, now)] *)
Definition track (hash : jsstring) (now : Z) : M unit :=
  fun st => (Ret tt, {| recentCaptures := <[hash := now]> (recentCaptures st);
                        trace := trace st |}).

Definition when (b : bool) (m : M unit) : M unit := if b then m else ret tt.

Notation "'do' x <- m ; k" := (bind m (fun x => k))
  (at level 10, x name, m at level 100, k at level 200).
Notation "m ;; k" := (bind m (fun _ => k))
  (at level 100, k at level 200, right associativity).

(** The DOM operations of the capture functions that can raise. *)
Inductive dom_op :=
| opGetSelection      (* window.getSelection() *)
| opToString          (* selection.toString() *)
| opCloneContents     (* getRangeAt(0).cloneContents(), appendChild *)
| opInnerHTML         (* wrapper.innerHTML *)
| opDocument          (* document.title, window.location *)
| opQuerySelector     (* document.querySelector(selector), element.innerHTML *)
| opOuterHTML         (* outerHTML of the content node or of the document *)
| opInnerText.        (* document.body.innerText *)

Record page := {
  selection : option Selection;           (* window.getSelection() *)
  document_title : jsstring;
  location_href : jsstring;
  page_metadata : PageMetadata;           (* the result of extractPageMetadata() *)
  querySelector : jsstring -> option (jsstring * jsstring);
                                          (* innerHTML and outerHTML of the first match *)
  document_outerHTML : jsstring;
  text_of_html : jsstring -> jsstring;    (* textContent of parsed markup *)
  throws : dom_op -> option jsstring;     (* the operations that raise, with the message *)
  now : Z;                                (* Date.now() *)
  elapsed : Z;                            (* Math.round(endTime - startTime), performance.now() *)
  date_iso : jsstring;                    (* new Date().toISOString() *)
  userAgent : jsstring                    (* navigator.userAgent *)
}.

(** A DOM read: the value, or the exception the page raises there. *)
Definition dom {A} (p : page) (op : dom_op) (v : A) : M A :=
  match throws p op with
  | Some e => throw e
  | None => ret v
  end.

(** [sendCapturedContent(c)]: the send and its retries run asynchronously
    (see [attemptSend]); the call itself never raises. *)
Definition sendCapturedContent (c : CapturedContent) : M unit := emit (Sent c).

(** [{ ...pageMetadata, styling: stylingInfo }] *)
Definition enhancedMetadata (p : page) (sel : Selection) : PageMetadata :=
  page_metadata p ++ [(str "styling", VRec (sel_styles sel))].

(** The guard of the selection-based captures, evaluated left to right. *)
Definition read_selection (p : page) : M (option Selection) :=
  do selection <- dom p opGetSelection (selection p);
  match selection with
  | None => ret None
  | Some sel =>
      if (rangeCount sel =? 0)%nat then ret None
      else
        do text <- dom p opToString (sel_toString sel);
        if decide (trim text = []) then ret None else ret (Some sel)
  end.

Definition captureTextSelection (p : page) (showToast sendMessage : bool)
  : M (option CapturedContent) :=
  do selection <- read_selection p;
  match selection with
  | None => ret None       (* 'No text selected' *)
  | Some sel =>
      (* Extract selected text *)
      do text <- dom p opToString (sel_toString sel);
      do title <- dom p opDocument (document_title p);
      let textContent :=
        {| cc_type := TEXT; cc_content := text; cc_title := title;
           cc_url := location_href p; cc_timestamp := now p;
           cc_metadata := Some (enhancedMetadata p sel) |} in
      (* Send message to background script *)
      when sendMessage (sendCapturedContent textContent) ;;
      (* Show toast notification *)
      when showToast (emit (Shown (CaptureToast (str "Text") text))) ;;
      ret (Some textContent)
  end.

Definition captureHtmlSelection (p : page) (showToast sendMessage : bool)
  : M (option CapturedContent) :=
  do selection <- read_selection p;
  match selection with
  | None => ret None       (* 'No HTML selected' *)
  | Some sel =>
      (* Clone the selected range into a wrapper element *)
      dom p opCloneContents tt ;;
      (* Extract HTML content *)
      do html <- dom p opInnerHTML (sel_innerHTML sel);
      do title <- dom p opDocument (document_title p);
      let htmlContent :=
        {| cc_type := HTML; cc_content := html; cc_title := title;
           cc_url := location_href p; cc_timestamp := now p;
           cc_metadata := Some (enhancedMetadata p sel) |} in
      (* Send message to background script *)
      when sendMessage (sendCapturedContent htmlContent) ;;
      (* Show toast notification *)
      when showToast (emit (Shown (CaptureToast (str "HTML") (text_of_html p html)))) ;;
      ret (Some htmlContent)
  end.

Definition captureMarkdownSelection (p : page) (showNotification : bool)
  : M (option CapturedContent) :=
  (* Get HTML content but explicitly don't show notification by passing false;
     the second parameter, sendMessage, keeps its default, true *)
  do htmlContent <- captureHtmlSelection p false true;
  match htmlContent with
  | None => ret None
  | Some hc =>
      let markdownContent := htmlToMarkdown (cc_content hc) in
      let enhancedMetadata :=
        match cc_metadata hc with
        | Some md => md
        | None => page_metadata p
        end in
      let capturedContent :=
        {| cc_type := MARKDOWN; cc_content := markdownContent;
           cc_title := cc_title hc; cc_url := cc_url hc;
           cc_timestamp := now p; cc_metadata := Some enhancedMetadata |} in
      if showNotification then
        sendCapturedContent capturedContent ;;
        emit (Shown (CaptureToast (str "Markdown") markdownContent)) ;;
        ret (Some capturedContent)
      else ret (Some capturedContent)
  end.

Definition contentSelectors : list jsstring :=
  [str "main"; str "article"; str "#content"; str ".content"; str "#main";
   str ".main"; str ".post-content"; str ".article-content"].

(** The first selector whose element has more than 500 characters of
    inner HTML: the selector and the element's outer HTML. *)
Fixpoint find_content_node (p : page) (selectors : list jsstring)
  : option (jsstring * jsstring) :=
  match selectors with
  | [] => None
  | selector :: rest =>
      match querySelector p selector with
      | Some (inner, outer) =>
          if (500 <? length inner)%nat then Some (selector, outer)
          else find_content_node p rest
      | None => find_content_node p rest
      end
  end.

Definition captureFullPage (p : page) : M (option CapturedContent) :=
  try_catch
    (do title <- dom p opDocument (document_title p);
     dom p opQuerySelector tt ;;
     let contentNode :=
       find_content_node p (contentSelectors ++ [str "div[role=" ++ [34%N] ++ str "main" ++ [34%N] ++ str "]"]) in
     do mainContent <-
        dom p opOuterHTML
          match contentNode with
          | Some (_, outer) => outer
          | None => document_outerHTML p
          end;
     dom p opInnerText tt ;;
     (* Math.round(contentSize / 1024) *)
     let contentSizeKB := (Z.of_nat (length mainContent) + 512) / 1024 in
     (* Add capture-specific metadata *)
     let pageMetadata :=
       page_metadata p ++
       [(str "contentSizeKB", VStr (to_jsstring (VNum contentSizeKB)));
        (str "hasMainContentNode",
         VStr match contentNode with Some _ => str "true" | None => str "false" end);
        (str "mainContentSelector",
         VStr match contentNode with Some (s, _) => s | None => [] end);
        (str "captureTime", VStr (to_jsstring (VNum (elapsed p))));
        (str "captureDate", VStr (date_iso p));
        (str "userAgent", VStr (userAgent p))] in
     ret (Some {| cc_type := FULLPAGE; cc_content := mainContent;
                  cc_title := title; cc_url := location_href p;
                  cc_timestamp := now p; cc_metadata := Some pageMetadata |}))
    (fun e =>
       emit (Shown (PlainToast (str "Error capturing page: " ++ e))) ;;
       ret None).

(** ** Screenshot capture (src/lib/capture.ts, [captureScreenshot])

    How a platform call ends, measured from the moment it is issued. *)
Inductive settle (A : Type) :=
| Fulfils (after : Z) (v : A)
| Rejects (after : Z) (e : jsstring)
| Pending.                      (* the call never settles *)
Arguments Fulfils {A} after v.
Arguments Rejects {A} after e.
Arguments Pending {A}.

Record screen_platform := {
  hasCaptureVisibleTab : bool;          (* browser.tabs && browser.tabs.captureVisibleTab *)
  captureVisibleTab : settle jsstring;
  getDisplayMedia : settle unit;
  loadedmetadata : option Z;            (* delay of the video event, if it ever fires *)
  videoWidth : Z;
  videoHeight : Z;
  canvasContext : bool;                 (* canvas.getContext('2d') is not null *)
  canvasDataURL : jsstring
}.

(** The state a promise reaches, measured from the call that created it. *)
Inductive promise (A : Type) :=
| Settled (at_ms : Z) (v : A)
| Rejected (at_ms : Z) (e : jsstring)
| Unsettled.
Arguments Settled {A} at_ms v.
Arguments Rejected {A} at_ms e.
Arguments Unsettled {A}.

Definition SCREENSHOT_TIMEOUT : Z := 15000.

Fixpoint is_prefix (a s : jsstring) : bool :=
  match a, s with
  | [], _ => true
  | x :: a', y :: s' => (x =? y)%N && is_prefix a' s'
  | _ :: _, [] => false
  end.

(** [s.includes(a)] *)
Fixpoint js_includes (a s : jsstring) : bool :=
  is_prefix a s ||
  match s with
  | [] => false
  | _ :: s' => js_includes a s'
  end.

(** ASCII lower case; the words searched below are ASCII. *)
Definition lower (s : jsstring) : jsstring :=
  List.map (fun c => if ((65 <=? c) && (c <=? 90))%N then (c + 32)%N else c) s.

Definition is_permission_error (message : jsstring) : bool :=
  let errorMessage := lower message in
  js_includes (str "permission") errorMessage
  || js_includes (str "not allowed") errorMessage
  || js_includes (str "denied") errorMessage
  || js_includes (str "security") errorMessage
  || js_includes (str "access") errorMessage.

(** The promise resolves with [v] at [t] unless the 15 s timer, which is
    cleared at [cleared <= t], fired first and resolved it with [null]. *)
Definition resolve_unless_timed_out {A} (cleared t : Z) (v : option A)
  : M (promise (option A)) :=
  if cleared <? SCREENSHOT_TIMEOUT then ret (Settled t v)
  else
    emit (Shown (ErrorToast (str "Screenshot Capture Failed"))) ;;
    ret (Settled SCREENSHOT_TIMEOUT None).

(** The capture object, made [t] ms after the call, when the data URL has
    arrived: [timestamp: new Date().getTime()]. *)
Definition screenshot_content (p : page) (dataUrl : jsstring) (t : Z)
    (extra : PageMetadata) : CapturedContent :=
  {| cc_type := SCREENSHOT; cc_content := dataUrl; cc_title := document_title p;
     cc_url := location_href p; cc_timestamp := now p + t;
     cc_metadata :=
       Some (page_metadata p ++
             [(str "format", VStr (str "png")); (str "isBase64", VBool true)] ++ extra) |}.

(** What a call of [captureScreenshot] gives: the state its promise
    reaches, and the notification it shows only after the promise is
    resolved (the success toast is set 1500 ms behind the call of
    [resolve], also when the 15 s timer has resolved the promise before). *)
Definition screenshot_run : Type := promise (option CapturedContent) * list effect.

(** The display-media fallback, entered [t1] ms after the call. *)
Definition captureScreenshot_displayMedia (p : page) (sp : screen_platform) (t1 : Z)
  : M screenshot_run :=
  match getDisplayMedia sp with
  | Fulfils d2 _ =>
      (* 200 ms later the timer is cleared *)
      let t2 := t1 + d2 + 200 in
      match loadedmetadata sp with
      | Some d3 =>
          let t3 := t2 + d3 in
          if canvasContext sp then
            do r <- resolve_unless_timed_out t2 t3
                      (Some (screenshot_content p (canvasDataURL sp) t3
                              [(str "width", VStr (to_jsstring (VNum (videoWidth sp))));
                               (str "height", VStr (to_jsstring (VNum (videoHeight sp))));
                               (str "captureMethod", VStr (str "screen-capture-api"))]));
            ret (r, [Shown (CaptureToast (str "Screenshot") (canvasDataURL sp))])
          else
            (* "Could not get canvas context" is raised and caught *)
            do r <- resolve_unless_timed_out t2 t3 None;
            emit (Shown (ErrorToast (str "Screenshot Failed"))) ;;
            ret (r, [])
      | None =>
          (* the video never becomes ready: nothing resolves the promise
             once the timer is cleared *)
          if t2 <? SCREENSHOT_TIMEOUT then ret (Unsettled, [])
          else
            emit (Shown (ErrorToast (str "Screenshot Capture Failed"))) ;;
            ret (Settled SCREENSHOT_TIMEOUT None, [])
      end
  | Rejects d2 e =>
      let t := t1 + d2 in
      do r <- resolve_unless_timed_out t t None;
      emit (Shown (ErrorToast (if is_permission_error e
                               then str "Screenshot Permission Required"
                               else str "Screenshot Failed"))) ;;
      ret (r, [])
  | Pending =>
      emit (Shown (ErrorToast (str "Screenshot Capture Failed"))) ;;
      ret (Settled SCREENSHOT_TIMEOUT None, [])
  end.

Definition captureScreenshot (p : page) (sp : screen_platform) : M screenshot_run :=
  (* Show "capturing screenshot" notification first *)
  emit (Shown (InfoToast (str "Capturing Screenshot"))) ;;
  (* a timer is set that resolves the promise with null after 15 seconds *)
  if hasCaptureVisibleTab sp then
    (* the browser API is tried first, after a delay of 200 ms *)
    match captureVisibleTab sp with
    | Fulfils d dataUrl =>
        let t := 200 + d in
        do r <- resolve_unless_timed_out t t
                  (Some (screenshot_content p dataUrl t
                              [(str "captureMethod", VStr (str "browser-api"))]));
        ret (r, [Shown (CaptureToast (str "Screenshot") dataUrl)])
    | Rejects d _ =>
        (* Continue to display media approach if browser API fails *)
        captureScreenshot_displayMedia p sp (200 + d)
    | Pending =>
        emit (Shown (ErrorToast (str "Screenshot Capture Failed"))) ;;
        ret (Settled SCREENSHOT_TIMEOUT None, [])
    end
  else captureScreenshot_displayMedia p sp 0.

(** The notifications that come after the promise is resolved. *)
Fixpoint emit_all (l : list effect) : M unit :=
  match l with
  | [] => ret tt
  | e :: l' => emit e ;; emit_all l'
  end.

(** ** [captureContent] *)

Inductive capture_result :=
| Now (c : option CapturedContent)                 (* a value *)
| Later (pr : promise (option CapturedContent)).   (* a promise *)

(** The part of [captureContent] that follows a successful synchronous
    capture. *)
Definition finish_capture (p : page) (type : CaptureType)
    (showToastNotification : bool) (capturedContent : option CapturedContent) : M capture_result :=
  match capturedContent with
  | Some c =>
      (* Store this capture in the tracker (but don't use it to filter duplicates) *)
      track (captureTracker.getContentHash c) (now p) ;;
      (* Send the content to the background script for storage *)
      sendCapturedContent c ;;
      (* Show a toast notification if requested *)
      when showToastNotification (emit (Shown (CapturedToast c))) ;;
      ret (Now (Some c))
  | None =>
      when showToastNotification (emit (Shown (NoContentToast type))) ;;
      ret (Now None)
  end.

Definition captureContent (p : page) (sp : screen_platform)
    (type : CaptureType) (showToastNotification : bool) : M capture_result :=
  try_catch
    (match type with
     | TEXT =>
         (* When TEXT is requested, honor it directly without smart detection *)
         do c <- captureTextSelection p false true;
         finish_capture p type showToastNotification c
     | HTML =>
         do c <- captureHtmlSelection p false true;
         finish_capture p type showToastNotification c
     | MARKDOWN =>
         do c <- captureMarkdownSelection p false;
         finish_capture p type showToastNotification c
     | FULLPAGE =>
         do c <- captureFullPage p;
         finish_capture p type showToastNotification c
     | SCREENSHOT =>
         (* Return the promise for screenshot capture; its [then] runs
            when the promise is resolved, before the delayed success toast *)
         do run <- captureScreenshot p sp;
         match run.1 with
         | Settled t (Some screenshot) =>
             track (captureTracker.getContentHash screenshot) (now p + t) ;;
             sendCapturedContent screenshot ;;
             emit_all run.2 ;;
             ret (Later (Settled t (Some screenshot)))
         | other => emit_all run.2 ;; ret (Later other)
         end
     end)
    (fun e =>
       when showToastNotification (emit (Shown (CaptureFailedToast e))) ;;
       ret (Now None)).

(** ** Sending a capture to the background ([sendCapturedContent]) *)

(** The message [attemptSend] passes to [browser.runtime.sendMessage]; the
    page metadata is spread last and overrides the four fields before it. *)
Definition captured_message (c : CapturedContent) : ExtMessage :=
  {| messageType := capturedSelection;
     from := Some contentScript;
     content := Some (cc_content c);
     metadata :=
       Some ([(str "type", VStr (CaptureType_value (cc_type c)));
              (str "title", VStr (cc_title c));
              (str "url", VStr (cc_url c));
              (str "timestamp", VNum (cc_timestamp c))]
             ++ match cc_metadata c with Some md => md | None => [] end) |}.

(** How one call of [browser.runtime.sendMessage] ends. *)
Inductive send_result :=
| SendOk
| SendFails (after : Z) (err : jsstring).   (* rejected promise or exception *)

Inductive send_event :=
| Attempt (at_ms : Z) (retryCount : nat) (m : ExtMessage)
| GaveUp (at_ms : Z) (err : jsstring).      (* the failure toast *)

(** [attemptSend(retryCount, maxRetries)] started at time [t]; [results]
    lists how the successive sends end, and an exhausted list means the
    send in progress never settles. *)
Fixpoint attemptSend (m : ExtMessage) (results : list send_result)
    (retryCount maxRetries : nat) (t : Z) : list send_event :=
  Attempt t retryCount m ::
  match results with
  | [] => []
  | SendOk :: _ => []
  | SendFails d err :: rest =>
      (* Check if we should retry *)
      if (retryCount <? maxRetries)%nat then
        attemptSend m rest (S retryCount) maxRetries
          (t + d + 200 * (Z.of_nat retryCount + 1))
      else [GaveUp (t + d) err]
  end.

Definition sendCapturedContent_run (c : CapturedContent)
    (results : list send_result) (t : Z) : list send_event :=
  attemptSend (captured_message c) results 0 2 t.

(** ** The screenshot handler of the content script
    ([handleScreenshotCapture]) *)

Module Screenshot.

Definition SCREENSHOT_COOLDOWN : Z := 1000.

Record state := {
  screenshotCaptureCounter : nat;
  activeScreenshotCapture : bool;
  lastScreenshotTime : Z;
  armed : list (nat * Z);   (* requests whose 15 s timer is set: id, due time *)
  awaiting : list nat       (* requests that await their capture promise *)
}.

Definition initial : state :=
  {| screenshotCaptureCounter := 0; activeScreenshotCapture := false;
     lastScreenshotTime := 0; armed := []; awaiting := [] |}.

Inductive event :=
| Request (now : Z)                 (* handleScreenshotCapture() is called *)
| TimerFires (id : nat) (now : Z)   (* the timer of request [id] fires *)
| CaptureSettles (id : nat).        (* the promise request [id] awaits settles *)

Inductive reaction :=
| IgnoredCooldown                   (* console.log only *)
| RejectedInProgress                (* 'A screenshot capture is already in progress' *)
| Started (id : nat)
| TimedOut (id : nat)               (* 'The operation timed out. Please try again.' *)
| Finished (id : nat)
| Nothing.

Definition disarm (id : nat) (l : list (nat * Z)) : list (nat * Z) :=
  List.filter (fun x => negb (x.1 =? id)%nat) l.

Definition is_armed (id : nat) (now : Z) (l : list (nat * Z)) : bool :=
  existsb (fun x => (x.1 =? id)%nat && (x.2 <=? now)) l.

Definition step (st : state) (ev : event) : state * reaction :=
  match ev with
  | Request now =>
      (* Check if we're still in cooldown period *)
      let timeSinceLastCapture := now - lastScreenshotTime st in
      if timeSinceLastCapture <? SCREENSHOT_COOLDOWN then (st, IgnoredCooldown)
      (* If a capture is already in progress, don't start another one *)
      else if activeScreenshotCapture st then (st, RejectedInProgress)
      else
        let captureId := S (screenshotCaptureCounter st) in
        ({| screenshotCaptureCounter := captureId;
            activeScreenshotCapture := true;
            lastScreenshotTime := now;
            armed := (captureId, now + 15000) :: armed st;
            awaiting := captureId :: awaiting st |},
         Started captureId)
  | TimerFires id now =>
      if is_armed id now (armed st) then
        ({| screenshotCaptureCounter := screenshotCaptureCounter st;
            activeScreenshotCapture := false;
            lastScreenshotTime := lastScreenshotTime st;
            armed := disarm id (armed st);
            awaiting := awaiting st |},
         TimedOut id)
      else (st, Nothing)
  | CaptureSettles id =>
      if existsb (Nat.eqb id) (awaiting st) then
        (* clearTimeout(timeoutId); ...; finally { activeScreenshotCapture = false } *)
        ({| screenshotCaptureCounter := screenshotCaptureCounter st;
            activeScreenshotCapture := false;
            lastScreenshotTime := lastScreenshotTime st;
            armed := disarm id (armed st);
            awaiting := List.filter (fun x => negb (x =? id)%nat) (awaiting st) |},
         Finished id)
      else (st, Nothing)
  end.

(** The state after a run of events, and the reactions, oldest first. *)
Fixpoint run (st : state) (evs : list event) : state * list reaction :=
  match evs with
  | [] => (st, [])
  | ev :: evs' =>
      let (st1, r) := step st ev in
      let (st2, rs) := run st1 evs' in
      (st2, r :: rs)
  end.

End Screenshot.

(** ** The background context (background script) *)

Module Background.

Definition MESSAGE_EXPIRY_TIME : Z := 10000.
Definition MAX_RECENT_CAPTURES : nat := 100.

Record state := {
  loadedTabs : gset Z;
  isSidePanelOpen : bool;
  processedMessages : gmap jsstring Z;
  recentMessages : gmap jsstring Z;       (* messageDeduplication.recentMessages *)
  recentCaptures : list ExtMessage        (* the in-memory array *)
}.

Definition initial : state :=
  {| loadedTabs := ∅; isSidePanelOpen := false; processedMessages := ∅;
     recentMessages := ∅; recentCaptures := [] |}.

(** What a handler asks of the platform. *)
Inductive command :=
| StorageGet (m : ExtMessage)      (* storage.local.get('recentCaptures') of storeCapture(m) *)
| SendToPanel (m : ExtMessage)     (* browser.runtime.sendMessage of sendToSidePanel *)
| SetTimeout (delay : Z) (m : ExtMessage)   (* setTimeout(() => sendToSidePanel(m), delay) *)
| Platform (call : jsstring).      (* tabs.captureVisibleTab, tabs.query *)

Definition generateMessageId (message : ExtMessage) : jsstring :=
  let contentSample :=
    match content message with
    | Some c => substring0 100 c
    | None => []
    end in
  let contentHash := substring0 40 (strip_spaces contentSample) in
  MessageType_value (messageType message) ++ str "-"
    ++ or_empty (metadata_type message) ++ str "-" ++ contentHash.

Definition cleanupProcessedMessages (now : Z) (pm : gmap jsstring Z) : gmap jsstring Z :=
  let expiredBefore := now - MESSAGE_EXPIRY_TIME in
  filter (fun kv => negb (kv.2 <? expiredBefore) = true) pm.

(** [random] tells whether [Math.random() < 0.1] holds at that call. *)
Definition isMessageProcessed (message : ExtMessage) (now : Z) (random : bool)
    (pm : gmap jsstring Z) : bool * gmap jsstring Z :=
  let messageId := generateMessageId message in
  match pm !! messageId with
  | Some _ => (true, pm)
  | None =>
      (* Mark this message as processed *)
      let pm1 := <[messageId := now]> pm in
      (* Clean up old messages occasionally *)
      (false, if random then cleanupProcessedMessages now pm1 else pm1)
  end.

(** The record of processed identifiers after one call of the listener. *)
Definition processed_after (m : ExtMessage) (t : Z) (r1 r2 : bool)
    (pm : gmap jsstring Z) : gmap jsstring Z :=
  let pm1 := <[generateMessageId m := t]> pm in
  let pm1' := if r1 then cleanupProcessedMessages t pm1 else pm1 in
  let pm2 := <[generateMessageId m := t]> pm1' in
  if r2 then cleanupProcessedMessages t pm2 else pm2.

Definition storeCapture (message : ExtMessage) : list command := [StorageGet message].

Definition sendToSidePanel (message : ExtMessage) : list command :=
  [SendToPanel {| messageType := messageType message; from := Some background;
                  content := content message; metadata := metadata message |}].

Definition ensurePanelOpenAndSendMessage (st : state) (message : ExtMessage) : list command :=
  (* Store the message *)
  storeCapture message ++
  (* If the panel is open, send it there *)
  (if isSidePanelOpen st then sendToSidePanel message else []).

(** One timer per element of the in-memory array, [index * 100] ms ahead. *)
Definition sendAllCapturesToSidePanel (st : state) : list command :=
  imap (fun index capture => SetTimeout (Z.of_nat index * 100) capture) (recentCaptures st).

Definition set_processed (st : state) (pm : gmap jsstring Z) : state :=
  {| loadedTabs := loadedTabs st; isSidePanelOpen := isSidePanelOpen st;
     processedMessages := pm; recentMessages := recentMessages st;
     recentCaptures := recentCaptures st |}.

Definition set_recentMessages (st : state) (rm : gmap jsstring Z) : state :=
  {| loadedTabs := loadedTabs st; isSidePanelOpen := isSidePanelOpen st;
     processedMessages := processedMessages st; recentMessages := rm;
     recentCaptures := recentCaptures st |}.

Definition set_panel (st : state) (b : bool) : state :=
  {| loadedTabs := loadedTabs st; isSidePanelOpen := b;
     processedMessages := processedMessages st; recentMessages := recentMessages st;
     recentCaptures := recentCaptures st |}.

Definition set_recentCaptures (st : state) (l : list ExtMessage) : state :=
  {| loadedTabs := loadedTabs st; isSidePanelOpen := isSidePanelOpen st;
     processedMessages := processedMessages st; recentMessages := recentMessages st;
     recentCaptures := l |}.

(** The [browser.runtime.onMessage] listener.  [tab] is [sender.tab?.id];
    [random1] and [random2] decide the two [Math.random() < 0.1] tests. *)
Definition onMessage (message : ExtMessage) (tab : option Z) (now : Z)
    (random1 random2 : bool) (st : state) : state * list command :=
  let messageId := generateMessageId message in
  (* Check for duplicate processing *)
  let (processed, pm1) := isMessageProcessed message now random1 (processedMessages st) in
  if processed then (st, [])
  else
    (* Mark this message as processed *)
    let pm2 := <[messageId := now]> pm1 in
    (* Cleanup old processed messages periodically *)
    let pm3 := if random2 then cleanupProcessedMessages now pm2 else pm2 in
    let st1 := set_processed st pm3 in
    match messageType message with
    | contentScriptLoaded =>
        match tab with
        | Some tabId =>
            if tabId =? 0 then (st1, [])
            else ({| loadedTabs := {[tabId]} ∪ loadedTabs st1;
                     isSidePanelOpen := isSidePanelOpen st1;
                     processedMessages := processedMessages st1;
                     recentMessages := recentMessages st1;
                     recentCaptures := recentCaptures st1 |}, [])
        | None => (st1, [])
        end
    | sidePanelLoaded =>
        let st2 := set_panel st1 true in
        (* Send all stored captures to the newly loaded side panel *)
        (st2, sendAllCapturesToSidePanel st2)
    | capturedSelection =>
        (* Skip duplicate message content using enhanced deduplication *)
        let hasType :=
          match metadata_type message with
          | Some v => truthy v
          | None => false
          end in
        let (duplicate, rm) :=
          if hasType
          then messageDeduplication.isDuplicate message now (recentMessages st1)
          else (false, recentMessages st1) in
        let st2 := set_recentMessages st1 rm in
        if duplicate then (st2, [])
        else
          (* Store the captured content, then
             make sure the panel is open and send the message *)
          (st2, storeCapture message ++ ensurePanelOpenAndSendMessage st2 message)
    | captureScreenshot_msg =>
        match tab with
        | Some tabId =>
            if tabId =? 0 then (st1, []) else (st1, [Platform (str "tabs.captureVisibleTab")])
        | None => (st1, [])
        end
    | testToasts => (st1, [Platform (str "tabs.query")])
    | requestScreenshotPermission => (st1, [Platform (str "tabs.query")])
    | _ => (st1, [])
    end.

(** *** The platform around the listener

    The persistent store holds one value under the key [recentCaptures];
    [stored] is that value when it is an array.  Requests to the store are
    served in the order in which they were issued; a request may fail.
    A continuation ([then] or [catch]) runs when its request is served. *)

Inductive request :=
| Get (m : ExtMessage)                  (* the read of storeCapture(m) *)
| Put (v : list ExtMessage).            (* the write that follows it *)

Record world := {
  bg : state;
  stored : option (list ExtMessage);
  requests : list request;              (* issued and not yet served, oldest first *)
  timers : list (Z * ExtMessage);       (* due time, message for sendToSidePanel *)
  sent : list (Z * ExtMessage)          (* messages sent to the panel, with the time *)
}.

Definition boot : world :=
  {| bg := initial; stored := None; requests := []; timers := []; sent := [] |}.

Definition perform (now : Z) (w : world) (c : command) : world :=
  match c with
  | StorageGet m =>
      {| bg := bg w; stored := stored w; requests := requests w ++ [Get m];
         timers := timers w; sent := sent w |}
  | SendToPanel m =>
      {| bg := bg w; stored := stored w; requests := requests w;
         timers := timers w; sent := sent w ++ [(now, m)] |}
  | SetTimeout d m =>
      {| bg := bg w; stored := stored w; requests := requests w;
         timers := timers w ++ [(now + d, m)]; sent := sent w |}
  | Platform _ => w
  end.

Definition issue (now : Z) (w : world) (cs : list command) : world :=
  foldl (perform now) w cs.

(** [Array.isArray(data.recentCaptures) ? data.recentCaptures : []] *)
Definition existingCaptures (w : world) : list ExtMessage :=
  match stored w with
  | Some l => l
  | None => []
  end.

(** [[message, ...existingCaptures].slice(0, MAX_RECENT_CAPTURES)] *)
Definition trimmedCaptures (message : ExtMessage) (existing : list ExtMessage)
  : list ExtMessage :=
  take MAX_RECENT_CAPTURES (message :: existing).

(** The [catch] of the read: [recentCaptures.unshift(message)], then
    [pop()] when the array is longer than the maximum. *)
Definition remember (message : ExtMessage) (l : list ExtMessage) : list ExtMessage :=
  let l1 := message :: l in
  if (MAX_RECENT_CAPTURES <? length l1)%nat then removelast l1 else l1.

(** Serve the oldest request; [ok] tells whether it succeeds. *)
Definition serve (ok : bool) (w : world) : world :=
  match requests w with
  | [] => w
  | Get m :: rest =>
      if ok then
        {| bg := bg w; stored := stored w;
           requests := rest ++ [Put (trimmedCaptures m (existingCaptures w))];
           timers := timers w; sent := sent w |}
      else
        (* Fallback: Just store in memory *)
        {| bg := set_recentCaptures (bg w) (remember m (recentCaptures (bg w)));
           stored := stored w; requests := rest;
           timers := timers w; sent := sent w |}
  | Put v :: rest =>
      {| bg := bg w; stored := if ok then Some v else stored w;
         requests := rest; timers := timers w; sent := sent w |}
  end.

(** Fire the timers that are due, in the order they were set. *)
Definition fire (now : Z) (w : world) : world :=
  let due := List.filter (fun x => x.1 <=? now) (timers w) in
  let later := List.filter (fun x => negb (x.1 <=? now)) (timers w) in
  foldl (fun w' x => issue now w' (sendToSidePanel x.2))
        {| bg := bg w; stored := stored w; requests := requests w;
           timers := later; sent := sent w |}
        due.

Inductive event :=
| Deliver (m : ExtMessage) (tab : option Z) (now : Z) (random1 random2 : bool)
| Serve (ok : bool)
| Fire (now : Z).

Definition step (w : world) (ev : event) : world :=
  match ev with
  | Deliver m tab now r1 r2 =>
      let (st, cs) := onMessage m tab now r1 r2 (bg w) in
      issue now {| bg := st; stored := stored w; requests := requests w;
                   timers := timers w; sent := sent w |} cs
  | Serve ok => serve ok w
  | Fire now => fire now w
  end.

Definition run (w : world) (evs : list event) : world := foldl step w evs.

(** One append that runs to its end with no other request in between: the
    read and then the write of [storeCapture(m)] are served. *)
Definition append_record (w : world) (m : ExtMessage) : world :=
  serve true (serve true (issue 0 w (storeCapture m))).

(** The time at which an event happens, when it has one. *)
Definition event_time (ev : event) : option Z :=
  match ev with
  | Deliver _ _ now _ _ => Some now
  | Serve _ => None
  | Fire now => Some now
  end.

(** Commands that set a timer, and events in which a request to the
    store fails. *)
Definition sets_timer (c : command) : bool :=
  match c with
  | SetTimeout _ _ => true
  | _ => false
  end.

Definition read_fails (ev : event) : bool :=
  match ev with
  | Serve false => true
  | _ => false
  end.

End Background.

(** ** Sample data for the scenarios *)

Definition sample_selection : Selection :=
  {| rangeCount := 1;
     sel_toString := str "Hello world";
     sel_fragment := [Element true (str "b") [] [TextNode (str "Hello")];
                      TextNode (str " world")];
     sel_innerHTML := str "<b>Hello</b> world";
     sel_styles := [] |}.

Definition sample_page : page :=
  {| selection := Some sample_selection;
     document_title := str "Test Page";
     location_href := str "https://example.com";
     page_metadata := [(str "domain", VStr (str "example.com"))];
     querySelector := fun _ => None;
     document_outerHTML := str "<html><body><b>Hello</b> world</body></html>";
     text_of_html := fun s => replace_all false re_tag [] s;
     throws := fun _ => None;
     now := 1000;
     elapsed := 3;
     date_iso := str "1970-01-01T00:00:01.000Z";
     userAgent := str "Mozilla/5.0" |}.

Definition sample_capture : CapturedContent :=
  {| cc_type := TEXT;
     cc_content := str "The quick brown fox";
     cc_title := str "Test Page";
     cc_url := str "https://example.com";
     cc_timestamp := 1000;
     cc_metadata := None |}.

Definition sample_message : ExtMessage := captured_message sample_capture.

Definition panel_loaded : ExtMessage :=
  {| messageType := sidePanelLoaded; from := Some sidePanel;
     content := None; metadata := None |}.

Definition no_screen : screen_platform :=
  {| hasCaptureVisibleTab := false; captureVisibleTab := Pending;
     getDisplayMedia := Pending; loadedmetadata := None;
     videoWidth := 0; videoHeight := 0;
     canvasContext := false; canvasDataURL := [] |}.

(** A platform without the tabs API whose media stream arrives after one
    second and whose video never becomes ready. *)
Definition stalled_screen : screen_platform :=
  {| hasCaptureVisibleTab := false; captureVisibleTab := Pending;
     getDisplayMedia := Fulfils 1000 tt; loadedmetadata := None;
     videoWidth := 0; videoHeight := 0;
     canvasContext := true; canvasDataURL := [] |}.

(** A page whose selection raises when it is read. *)
Definition broken_page : page :=
  {| selection := selection sample_page;
     document_title := document_title sample_page;
     location_href := location_href sample_page;
     page_metadata := page_metadata sample_page;
     querySelector := querySelector sample_page;
     document_outerHTML := document_outerHTML sample_page;
     text_of_html := text_of_html sample_page;
     throws := fun op => match op with opToString => Some (str "boom") | _ => None end;
     now := now sample_page;
     elapsed := elapsed sample_page;
     date_iso := date_iso sample_page;
     userAgent := userAgent sample_page |}.

(** A selection of blanks only. *)
Definition blank_selection : Selection :=
  {| rangeCount := 1;
     sel_toString := str "   ";
     sel_fragment := [TextNode (str "   ")];
     sel_innerHTML := str "   ";
     sel_styles := [] |}.

Definition blank_page : page :=
  {| selection := Some blank_selection;
     document_title := document_title sample_page;
     location_href := location_href sample_page;
     page_metadata := page_metadata sample_page;
     querySelector := querySelector sample_page;
     document_outerHTML := document_outerHTML sample_page;
     text_of_html := text_of_html sample_page;
     throws := throws sample_page;
     now := now sample_page;
     elapsed := elapsed sample_page;
     date_iso := date_iso sample_page;
     userAgent := userAgent sample_page |}.

(** A heading, a paragraph with a link, and a list. *)
Definition article_selection : Selection :=
  {| rangeCount := 1;
     sel_toString := str "Title Read more";
     sel_fragment :=
       [Element true (str "h1") [] [TextNode (str "Title")];
        Element true (str "p") []
          [TextNode (str "Read ");
           Element true (str "a") [(str "href", str "https://example.com")]
             [TextNode (str "more")]];
        Element true (str "ul") [] []];
     sel_innerHTML := [];
     sel_styles := [] |}.

(** A picture in a block. *)
Definition image_selection : Selection :=
  {| rangeCount := 1;
     sel_toString := str "caption";
     sel_fragment :=
       [Element true (str "div") []
          [Element true (str "img") [(str "src", str "a.png")] [];
           TextNode (str "caption")]];
     sel_innerHTML := [];
     sel_styles := [] |}.

(** Bare wrappers around text. *)
Definition wrapper_selection : Selection :=
  {| rangeCount := 1;
     sel_toString := str "one two";
     sel_fragment :=
       [Element true (str "p") []
          [Element true (str "span") [] [TextNode (str "one")];
           Element true (str "br") [] [];
           TextNode (str "two")]];
     sel_innerHTML := [];
     sel_styles := [] |}.

(** A paragraph followed by two pictures: one Markdown-friendly element,
    two special ones among three. *)
Definition gallery_selection : Selection :=
  {| rangeCount := 1;
     sel_toString := str "Two views";
     sel_fragment :=
       [Element true (str "p") [] [TextNode (str "Two views")];
        Element true (str "img") [(str "src", str "a.png")] [];
        Element true (str "img") [(str "src", str "b.png")] []];
     sel_innerHTML := [];
     sel_styles := [] |}.

(** [n] paragraphs and one table. *)
Definition report_selection (n : nat) : Selection :=
  {| rangeCount := 1;
     sel_toString := str "Figures";
     sel_fragment :=
       List.repeat (Element true (str "p") [] [TextNode (str "Figures")]) n
       ++ [Element true (str "table") [] []];
     sel_innerHTML := [];
     sel_styles := [] |}.

Definition empty_pstate : pstate := {| recentCaptures := ∅; trace := [] |}.

(** ** Further code of the page (src/lib/capture.ts) *)

(** The map of [captureTracker] in a page state. *)
Definition tracked (st : pstate) : gmap jsstring Z := recentCaptures st.

(** A computation whose outcome and emitted effects are the same from
    every state, and which only adds to or overwrites entries of the
    tracker. *)
Definition steady {A} (m : M A) : Prop :=
  exists (r : outcome A) (f : gmap jsstring Z -> gmap jsstring Z) (evs : list effect),
    (forall g k, is_Some (g !! k) -> is_Some (f g !! k))
    /\ forall st, m st = (r, {| recentCaptures := f (tracked st); trace := trace st ++ evs |}).

(** The selectors [captureFullPage] tries, in order. *)
Definition fullPageSelectors : list jsstring :=
  contentSelectors ++ [str "div[role=" ++ [34%N] ++ str "main" ++ [34%N] ++ str "]"].

(** [element && element.innerHTML.length > 500] *)
Definition substantial (p : page) (selector : jsstring) : bool :=
  match querySelector p selector with
  | Some (inner, _) => (500 <? length inner)%nat
  | None => false
  end.

(** [capturedContent.metadata?.[k]] *)
Definition cc_meta (k : string) (c : CapturedContent) : option jsval :=
  match cc_metadata c with
  | Some md => meta_get (str k) md
  | None => None
  end.

(** [escapeHtml]: the input is cut to 100 code units, then the five
    replacements run in the order of the source. *)
Definition escapeHtml (html : jsstring) : jsstring :=
  let truncatedHtml :=
    if (100 <? length html)%nat then substring0 100 html ++ str "..." else html in
  let s := replace_all false (One (Chr 38)) [TLit (str "&amp;")] truncatedHtml in
  let s := replace_all false (One (Chr 60)) [TLit (str "&lt;")] s in
  let s := replace_all false (One (Chr 62)) [TLit (str "&gt;")] s in
  let s := replace_all false (One (Chr 34)) [TLit (str "&quot;")] s in
  let s := replace_all false (One (Chr 39)) [TLit (str "&#039;")] s in
  s.

(** What [escapeHtml] makes of one code unit, and the input it works on. *)
Definition escape_unit (x : N) : jsstring :=
  if (x =? 38)%N then str "&amp;"
  else if (x =? 60)%N then str "&lt;"
  else if (x =? 62)%N then str "&gt;"
  else if (x =? 34)%N then str "&quot;"
  else if (x =? 39)%N then str "&#039;"
  else [x].

Definition html_special (x : N) : bool :=
  ((x =? 38) || (x =? 60) || (x =? 62) || (x =? 34) || (x =? 39))%N.

Definition truncated (html : jsstring) : jsstring :=
  if (100 <? length html)%nat then substring0 100 html ++ str "..." else html.

(** [createContentPreview(content, type)].  [parse] stands for
    [new DOMParser().parseFromString(content, 'text/html')] followed by
    [doc.body.textContent || '']: the text, or the exception raised. *)
Definition createContentPreview (parse : jsstring -> outcome jsstring)
    (content : jsstring) (type : CaptureType) : jsstring :=
  match type with
  | HTML | FULLPAGE =>
      match parse content with
      | Ret textContent =>
          (* Return a preview (up to 120 chars) *)
          substring0 120 (trim textContent)
          ++ (if (120 <? length textContent)%nat then str "..." else [])
      | Throw _ =>
          escapeHtml (substring0 80 content
                      ++ (if (80 <? length content)%nat then str "..." else []))
      end
  | _ =>
      (* For other content types, just return a substring *)
      substring0 120 content ++ (if (120 <? length content)%nat then str "..." else [])
  end.

(** Text in which no tag and no entity can start: no [<] and no [&]. *)
Definition plain_text (s : jsstring) : bool :=
  forallb (fun x => negb (x =? 60)%N && negb (x =? 38)%N) s.

Definition nonblank (x : N) : bool := negb (is_space x).

(** *** [extractPageMetadata] *)

Record MetaTag := {
  meta_name : option jsstring;        (* getAttribute('name') *)
  meta_property : option jsstring;    (* getAttribute('property') *)
  meta_content : option jsstring      (* getAttribute('content') *)
}.

Record Document := {
  doc_title : jsstring;
  doc_href : jsstring;
  doc_hostname : jsstring;
  doc_metaTags : list MetaTag;                (* getElementsByTagName('meta') *)
  doc_canonical : option (option jsstring);   (* link[rel=canonical], its href attribute *)
  doc_bodyText : option jsstring              (* document.body.textContent; no body: none *)
}.

(** A string that is neither null (or undefined) nor empty. *)
Definition present (s : option jsstring) : bool :=
  match s with
  | Some (_ :: _) => true
  | _ => false
  end.

(** [name.match(/^(a|b|...)/)] *)
Definition starts_with_any (prefixes : list jsstring) (s : jsstring) : bool :=
  existsb (fun a => is_prefix a s) prefixes.

(** The test on the [name] attribute. *)
Definition name_kept (name : jsstring) : bool :=
  starts_with_any [str "description"; str "author"; str "keywords"; str "twitter:";
                   str "og:"; str "article:"; str "publication"; str "image";
                   str "canonical"] name
  || (if decide (name = str "viewport") then true else false)
  || (if decide (name = str "theme-color") then true else false)
  || (if decide (name = str "application-name") then true else false).

(** The test on the [property] attribute. *)
Definition property_kept (property : jsstring) : bool :=
  starts_with_any [str "og:"; str "twitter:"; str "article:"; str "book:"; str "product";
                   str "music"; str "video"; str "description"; str "image"; str "title";
                   str "url"; str "type"; str "site_name"] property.

(** The body of [metaTags.forEach]: the assignments one tag makes. *)
Definition tag_entries (tag : MetaTag) : PageMetadata :=
  match meta_content tag with
  | Some (c :: content) =>
      (match meta_name tag with
       | Some (n :: name) =>
           if name_kept (n :: name) then [(n :: name, VStr (c :: content))] else []
       | _ => []
       end)
      ++
      (match meta_property tag with
       | Some (q :: property) =>
           if property_kept (q :: property) then [(q :: property, VStr (c :: content))] else []
       | _ => []
       end)
  | _ => []                  (* Skip tags without content *)
  end.

(** [text.split(/\s+/)]: a piece ends where a run of white space starts. *)
Fixpoint split_spaces (s : jsstring) (piece : jsstring) (in_run : bool) : list jsstring :=
  match s with
  | [] => [piece]
  | c :: s' =>
      if is_space c then
        if in_run then split_spaces s' piece true
        else piece :: split_spaces s' [] true
      else split_spaces s' (piece ++ [c]) false
  end.

(** [n.toString()] *)
Definition decimal (n : nat) : jsstring := to_jsstring (VNum (Z.of_nat n)).

(** Base page information. *)
Definition base_information (d : Document) : PageMetadata :=
  [(str "title", VStr (doc_title d)); (str "url", VStr (doc_href d));
   (str "domain", VStr (doc_hostname d))].

(** [if (canonicalLink && canonicalLink.getAttribute('href'))
       metadata.canonicalUrl = ...] *)
Definition canonical_entry (d : Document) : PageMetadata :=
  match doc_canonical d with
  | Some (Some (h :: href)) => [(str "canonicalUrl", VStr (h :: href))]
  | _ => []
  end.

(** Basic page text statistics and a short excerpt. *)
Definition text_statistics (textContent : jsstring) : PageMetadata :=
  [(str "wordCount",
    VStr (decimal (length (List.filter (fun w => negb (if decide (w = []) then true else false))
                             (split_spaces textContent [] false)))));
   (str "characterCount", VStr (decimal (length textContent)));
   (str "excerpt",
    VStr (replace_all false re_spaces [TLit (str " ")] (trim (substring0 300 textContent))
          ++ (if (300 <? length textContent)%nat then str "..." else [])))].

Definition extractPageMetadata (d : Document) : PageMetadata :=
  (* Get base page information *)
  let metadata := base_information d in
  (* Process each meta tag *)
  let metadata := metadata ++ flat_map tag_entries (doc_metaTags d) in
  (* Extract canonical URL *)
  let metadata := metadata ++ canonical_entry d in
  match doc_bodyText d with
  | Some textContent =>
      (* Add basic page text statistics *)
      metadata ++ text_statistics textContent
  | None =>
      (* the read of [document.body.textContent] raises; the catch returns
         the metadata collected so far *)
      metadata
  end.

(** A tag that assigns its content to the key [k]. *)
Definition sets_key (k : jsstring) (tag : MetaTag) : bool :=
  present (meta_content tag)
  && ((if decide (meta_name tag = Some k) then name_kept k else false)
      || (if decide (meta_property tag = Some k) then property_kept k else false)).

Definition with_metaTags (d : Document) (tags : list MetaTag) : Document :=
  {| doc_title := doc_title d; doc_href := doc_href d; doc_hostname := doc_hostname d;
     doc_metaTags := tags; doc_canonical := doc_canonical d;
     doc_bodyText := doc_bodyText d |}.

(** ** Further code of the content script *)

(** The [switch] on [message.content] of a [requestCapture] message. *)
Definition requestedCaptureType (captureTypeStr : option jsstring) : CaptureType :=
  match captureTypeStr with
  | Some s =>
      if decide (s = str "screenshot") then SCREENSHOT
      else if decide (s = str "html") then HTML
      else if decide (s = str "markdown") then MARKDOWN
      else if decide (s = str "fullpage") then FULLPAGE
      else TEXT
  | None => TEXT
  end.

(** What the listener of the content script does with a message. *)
Inductive listener_action :=
| Capture (type : CaptureType) (showToastNotification : bool)  (* captureContent(type, flag) *)
| Announce (m : ExtMessage)                                    (* runtime.sendMessage(m) *)
| NoAction.

Definition contentScript_onMessage (p : page) (message : ExtMessage) : listener_action :=
  match messageType message with
  | requestTextSelection => Capture TEXT false
  | requestCapture => Capture (requestedCaptureType (content message)) true
  | sidePanelLoaded =>
      (* Send back the source URL to the sidepanel for page context *)
      Announce {| messageType := contentScriptLoaded; from := Some contentScript;
                  content := Some (location_href p); metadata := None |}
  | _ => NoAction
  end.

Record KeyboardEvent := {
  ctrlKey : bool;
  shiftKey : bool;
  key : jsstring
}.

(** [event.ctrlKey && event.shiftKey && event.key.toLowerCase() === c].
    The letters compared are ASCII, and no code unit outside ASCII has one
    of them as its lower case, so the ASCII lower case decides the test. *)
Definition shortcut (event : KeyboardEvent) (c : string) : bool :=
  ctrlKey event && shiftKey event && (if decide (lower (key event) = str c) then true else false).

(** [handleKeyboardShortcut]: the calls of [captureContent] one key event
    makes, in order; each call comes with [event.preventDefault()]. *)
Definition handleKeyboardShortcut (event : KeyboardEvent) : list CaptureType :=
  (if shortcut event "s" then [TEXT] else [])
  ++ (if shortcut event "h" then [HTML] else [])
  ++ (if shortcut event "m" then [MARKDOWN] else [])
  ++ (if shortcut event "f" then [FULLPAGE] else [])
  ++ (if shortcut event "p" then [SCREENSHOT] else []).

(** The letter of the shortcut of each capture type. *)
Definition shortcut_letter (t : CaptureType) : N :=
  match t with
  | TEXT => 115 | HTML => 104 | MARKDOWN => 109 | FULLPAGE => 102 | SCREENSHOT => 112
  end%N.

(** ** Screenshot attempts as the content script starts them

    No code calls [handleScreenshotCapture]: the key handler and the
    message listener of the content script call [captureContent]
    themselves. *)

(** What reaches the content script. *)
Inductive trigger :=
| KeyDown (event : KeyboardEvent)      (* the keydown listener *)
| Message (message : ExtMessage).      (* the runtime.onMessage listener *)

(** The calls of [captureContent] a trigger leads to, in order, each with
    its type and its notification flag. *)
Definition capture_calls (p : page) (tr : trigger) : list (CaptureType * bool) :=
  match tr with
  | KeyDown event => List.map (fun t => (t, true)) (handleKeyboardShortcut event)
  | Message message =>
      match contentScript_onMessage p message with
      | Capture t showToastNotification => [(t, showToastNotification)]
      | _ => []
      end
  end.

(** The page when the clock reads [t]. *)
Definition at_time (p : page) (t : Z) : page :=
  {| selection := selection p; document_title := document_title p;
     location_href := location_href p; page_metadata := page_metadata p;
     querySelector := querySelector p; document_outerHTML := document_outerHTML p;
     text_of_html := text_of_html p; throws := throws p; now := t;
     elapsed := elapsed p; date_iso := date_iso p; userAgent := userAgent p |}.

(** A screenshot attempt: the time of the call of [captureContent] that
    returned a promise, and what becomes of the promise. *)
Record screenshot_attempt := {
  started_at : Z;
  its_promise : promise (option CapturedContent)
}.

(** The calls one trigger leads to, made at time [t]. *)
Fixpoint run_calls (p : page) (sp : screen_platform) (t : Z)
    (calls : list (CaptureType * bool)) (st : pstate)
  : list screenshot_attempt * pstate :=
  match calls with
  | [] => ([], st)
  | (type, flag) :: rest =>
      let (r, st1) := captureContent (at_time p t) sp type flag st in
      let (more, st2) := run_calls p sp t rest st1 in
      (match r with
       | Ret (Later pr) => {| started_at := t; its_promise := pr |} :: more
       | _ => more
       end, st2)
  end.

(** The triggers that arrive, each with its time, served in that order;
    the result lists the screenshot attempts they start. *)
Fixpoint serve_triggers (p : page) (sp : screen_platform)
    (arrivals : list (Z * trigger)) (st : pstate)
  : list screenshot_attempt * pstate :=
  match arrivals with
  | [] => ([], st)
  | (t, tr) :: rest =>
      let (first, st1) := run_calls p sp t (capture_calls p tr) st in
      let (more, st2) := serve_triggers p sp rest st1 in
      (first ++ more, st2)
  end.

(** When a promise settles, counted from its creation; [None]: never. *)
Definition duration {A} (pr : promise A) : option Z :=
  match pr with
  | Settled d _ => Some d
  | Rejected d _ => Some d
  | Unsettled => None
  end.

(** How long the promise of a screenshot request stays unsettled, read off
    a call made on page [p] from the empty state. *)
Definition attempt_duration (p : page) (sp : screen_platform) : option Z :=
  match (captureContent p sp SCREENSHOT true empty_pstate).1 with
  | Ret (Later pr) => duration pr
  | _ => None
  end.

(** An attempt is in flight from its start until its promise settles. *)
Definition in_flight_at (T : Z) (a : screenshot_attempt) : bool :=
  (started_at a <=? T)
  && match duration (its_promise a) with
     | Some d => T <? started_at a + d
     | None => true
     end.

(** ** Further code of the background script *)

Record OnClickData := {
  menuItemId : jsstring;
  selectionText : option jsstring
}.

(** The capture type a click on the context menu asks for; [None] where
    the handler returns. *)
Definition menuCaptureType (info : OnClickData) : option jsstring :=
  if decide (menuItemId info = str "rko-capture-text") then
    if present (selectionText info) then Some (str "text") else None
  else if decide (menuItemId info = str "rko-capture-html") then
    if present (selectionText info) then Some (str "html") else None
  else if decide (menuItemId info = str "rko-capture-markdown") then
    if present (selectionText info) then Some (str "markdown") else None
  else if decide (menuItemId info = str "rko-capture-fullpage") then Some (str "fullpage")
  else if decide (menuItemId info = str "rko-capture-screenshot") then Some (str "screenshot")
  else None.

Definition capture_request (captureType : jsstring) : ExtMessage :=
  {| messageType := requestCapture; from := Some background;
     content := Some captureType; metadata := None |}.

(** [contextMenus.onClicked]: the tab and the message of
    [browser.tabs.sendMessage], if the click leads to one.  [tab] is
    [tab?.id]. *)
Definition contextMenus_onClicked (info : OnClickData) (tab : option Z)
  : option (Z * ExtMessage) :=
  match tab with
  | Some tabId =>
      if tabId =? 0 then None
      else
        match menuCaptureType info with
        | Some finalCaptureType => Some (tabId, capture_request finalCaptureType)
        | None => None
        end
  | None => None
  end.

(** The capture types whose menu entry needs a selection. *)
Definition needs_selection (t : CaptureType) : bool :=
  match t with
  | TEXT | HTML | MARKDOWN => true
  | _ => false
  end.

(** Events in which [cleanupProcessedMessages] runs. *)
Definition runs_cleanup (ev : Background.event) : bool :=
  match ev with
  | Background.Deliver _ _ _ random1 random2 => random1 || random2
  | _ => false
  end.

(** The message [sendToSidePanel] passes to [browser.runtime.sendMessage]. *)
Definition forwarded (message : ExtMessage) : ExtMessage :=
  {| messageType := messageType message; from := Some background;
     content := content message; metadata := metadata message |}.

Definition with_requests (w : Background.world) (rs : list Background.request)
  : Background.world :=
  {| Background.bg := Background.bg w; Background.stored := Background.stored w;
     Background.requests := rs; Background.timers := Background.timers w;
     Background.sent := Background.sent w |}.

(** Events in the order of their times, none before [T]. *)
Fixpoint in_order (T : Z) (evs : list Background.event) : bool :=
  match evs with
  | [] => true
  | ev :: evs' =>
      match Background.event_time ev with
      | Some t => (T <=? t) && in_order t evs'
      | None => in_order T evs'
      end
  end.

(** The time of the last event, [T] when none has a time. *)
Fixpoint end_time (T : Z) (evs : list Background.event) : Z :=
  match evs with
  | [] => T
  | ev :: evs' =>
      match Background.event_time ev with
      | Some t => end_time t evs'
      | None => end_time T evs'
      end
  end.

(** Every hash on record is no younger than [T] allows and, unless it is
    more than the expiry time old, was put on record by the delivery, among
    the events [evs], of a capture message whose identifier is on record. *)
Definition hashes_backed (evs : list Background.event) (T : Z)
    (st : Background.state) : Prop :=
  forall (h : jsstring) (ts : Z),
    Background.recentMessages st !! h = Some ts ->
    ts <= T
    /\ (ts < T - Background.MESSAGE_EXPIRY_TIME
        \/ exists (m0 : ExtMessage) (tab0 : option Z) (r1 r2 : bool) (ts0 : Z),
             In (Background.Deliver m0 tab0 ts r1 r2) evs
             /\ messageType m0 = capturedSelection
             /\ messageDeduplication.getMessageHash m0 = h
             /\ Background.processedMessages st !! Background.generateMessageId m0 = Some ts0
             /\ ts <= ts0).

(** *** The failure path of [sendToSidePanel] *)

Module PanelSend.

(** How [browser.sidePanel.open()] ends. *)
Inductive open_result :=
| OpenOk (after : Z)
| OpenFails.               (* rejected, or the call raises *)

(** How one send of [sendToSidePanel] ends; after a failure, how the
    attempt to open the panel ends. *)
Inductive attempt :=
| Delivered
| Failed (after : Z) (message : jsstring) (reopen : open_result).

(** The sends of [sendToSidePanel(message)] started at [t], with their
    times, and the value of [isSidePanelOpen] it leaves; an exhausted list
    means the send in progress never settles. *)
Fixpoint sendToSidePanel_run (message : ExtMessage) (attempts : list attempt)
    (t : Z) (isSidePanelOpen : bool) : list (Z * ExtMessage) * bool :=
  let this := (t, {| messageType := messageType message; from := Some background;
                     content := content message; metadata := metadata message |}) in
  match attempts with
  | [] => ([this], isSidePanelOpen)
  | Delivered :: _ => ([this], isSidePanelOpen)
  | Failed d err reopen :: rest =>
      (* If we had a connection error, the panel might not be open *)
      if js_includes (str "Could not establish connection") err then
        match reopen with
        | OpenOk d' =>
            (* Try sending again after a brief pause *)
            let (more, flag) := sendToSidePanel_run message rest (t + d + d' + 500) true in
            (this :: more, flag)
        | OpenFails => ([this], false)
        end
      else ([this], isSidePanelOpen)
  end.

Definition connection_error : jsstring :=
  str "Could not establish connection. Receiving end does not exist.".

(** A failure that is a connection error, after which the panel opens. *)
Definition retriable (x : Z * Z) : attempt := Failed x.1 connection_error (OpenOk x.2).

End PanelSend.

(** ** The side panel (src/entrypoints/sidepanel/App.tsx): the branch of
    its message listener for [capturedSelection], and
    [handleCapturedContent] *)

Module SidePanel.

Record state := {
  contentHashRef : jsstring;
  contentTimeRef : Z;
  messageHashRef : jsstring;
  messageTimeRef : Z;
  capturedContent : option jsstring;          (* the capture on display *)
  contentMetadata : option PageMetadata;
  toasts : list jsstring                      (* titles of the toasts shown, oldest first *)
}.

Definition initial : state :=
  {| contentHashRef := []; contentTimeRef := 0; messageHashRef := []; messageTimeRef := 0;
     capturedContent := None; contentMetadata := None; toasts := [] |}.

(** [metadata?.type] *)
Definition type_of (metadata : option PageMetadata) : option jsval :=
  match metadata with
  | Some md => meta_get (str "type") md
  | None => None
  end.

(** [v || d] inside a template literal *)
Definition or_default (v : option jsval) (d : jsstring) : jsstring :=
  match v with
  | Some x => if truthy x then to_jsstring x else d
  | None => d
  end.

Definition getTypeLabel (type : jsstring) : jsstring :=
  if decide (type = str "html") then str "HTML"
  else if decide (type = str "markdown") then str "Markdown"
  else if decide (type = str "screenshot") then str "Screenshot"
  else if decide (type = str "fullpage") then str "Full Page"
  else str "Text".

Definition contentHash_of (content : jsstring) (metadata : option PageMetadata) : jsstring :=
  or_default (type_of metadata) (str "unknown") ++ str "-"
    ++ strip_spaces (substring0 50 content).

(** [handleCapturedContent(content, metadata)] at time [now]. *)
Definition handleCapturedContent (content : jsstring) (metadata : option PageMetadata)
    (now : Z) (st : state) : state :=
  (* Skip empty content *)
  if decide (content = []) then st
  else if decide (trim content = []) then st
  else
    let contentHash := contentHash_of content metadata in
    (* ignore identical content received within 1 second *)
    if (if decide (contentHash = contentHashRef st) then true else false)
       && (now - contentTimeRef st <? 1000)
    then st
    else
      {| contentHashRef := contentHash; contentTimeRef := now;
         messageHashRef := messageHashRef st; messageTimeRef := messageTimeRef st;
         capturedContent := Some content; contentMetadata := metadata;
         toasts := toasts st |}.

Definition messageHash_of (message : ExtMessage) : jsstring :=
  let contentSample :=
    match content message with
    | Some c => substring0 50 c
    | None => []
    end in
  or_empty (metadata_type message) ++ str "-" ++ contentSample.

(** The title of the toast the listener shows for a message. *)
Definition toast_title (message : ExtMessage) : jsstring :=
  str "Captured " ++ getTypeLabel (or_default (metadata_type message) (str "content")).

(** The listener on a [capturedSelection] message; [now] and [now'] are
    the two readings of the clock, in the listener and in
    [handleCapturedContent]. *)
Definition onCapturedSelection (message : ExtMessage) (now now' : Z) (st : state) : state :=
  let messageHash := messageHash_of message in
  if (if decide (messageHash = messageHashRef st) then true else false)
     && (now - messageTimeRef st <? 5000)
  then st
  else
    let st1 :=
      {| contentHashRef := contentHashRef st; contentTimeRef := contentTimeRef st;
         messageHashRef := messageHash; messageTimeRef := now;
         capturedContent := capturedContent st; contentMetadata := contentMetadata st;
         toasts := toasts st |} in
    (* Process the content *)
    let st2 :=
      handleCapturedContent (match content message with Some c => c | None => [] end)
        (metadata message) now' st1 in
    (* Show a toast notification in the side panel *)
    {| contentHashRef := contentHashRef st2; contentTimeRef := contentTimeRef st2;
       messageHashRef := messageHashRef st2; messageTimeRef := messageTimeRef st2;
       capturedContent := capturedContent st2; contentMetadata := contentMetadata st2;
       toasts := toasts st2 ++ [toast_title message] |}.

End SidePanel.

(** *** The Collections view of the side panel (src/unnamed/part_003)

    The view loads the list under the key [recentCaptures] of the store
    when it mounts. *)

Module Collections.

(** An entry of the list the view shows: the example entry (id 1), an
    entry made from the content the panel hands down, or a record loaded
    from the store.  The records the background stores are messages; they
    have no [id], and the loader replaces their [timestamp] by a [Date]. *)
Inductive item :=
| Example
| FromProps (id : Z) (content : jsstring) (metadata : option PageMetadata)
| Loaded (record : ExtMessage).

(** [item.id] *)
Definition item_id (i : item) : option Z :=
  match i with
  | Example => Some 1
  | FromProps id _ _ => Some id
  | Loaded _ => None
  end.

(** What a run of the loader sees: the three references, and the state of
    the render that created it. *)
Record view := {
  clearingInProgress : bool;          (* clearingInProgressRef.current *)
  hasCleared : bool;                  (* hasClearedRef.current *)
  lastClearTimestamp : option Z;      (* lastClearTimestampRef.current *)
  initialized : bool;
  recentItems : list item
}.

(** The view at its first render. *)
Definition mounted : view :=
  {| clearingInProgress := false; hasCleared := false; lastClearTimestamp := None;
     initialized := false; recentItems := [] |}.

(** How [browser.storage.local.get('recentCaptures')] ends: with the value
    under the key ([None] when there is none or it is null; the code writes
    nothing but arrays and null there), or with a rejection. *)
Inductive fetched :=
| Got (recentCaptures : option (list ExtMessage))
| Failed.

(** What one run of the loader does: the list it passes to
    [setRecentItems], if it calls it, and whether it calls
    [setInitialized(true)]. *)
Record load_result := {
  setRecentItems : option (list item);
  setInitialized : bool
}.

(** [JSON.stringify(a.sort()) === JSON.stringify(b.sort())] for two lists
    of ids: sorting makes it a comparison of the lists as multisets. *)
Definition same_ids (a b : list (option Z)) : bool :=
  (length a =? length b)%nat
  && forallb (fun x => (length (List.filter (fun y => bool_decide (x = y)) a)
                        =? length (List.filter (fun y => bool_decide (x = y)) b))%nat) a.

(** [loadRecentItems()], started at time [now]; [changed] is
    [clearingInProgressRef.current || hasClearedRef.current] as read after
    the fetch. *)
Definition loadRecentItems (v : view) (now : Z) (changed : bool) (data : fetched)
  : load_result :=
  let blocked := {| setRecentItems := None; setInitialized := false |} in
  (* First check if we're in active clearing state, skip everything *)
  if clearingInProgress v then blocked
  (* ENFORCE cleared state for longer safety period *)
  else if match lastClearTimestamp v with
          | Some lastClearTime => negb (lastClearTime =? 0) && (now - lastClearTime <? 20000)
          | None => false
          end
       then blocked
  (* If hasCleared flag is true, don't load *)
  else if hasCleared v then blocked
  (* If we have empty state now, likely intentional, so don't reload *)
  else if initialized v && (length (recentItems v) =? 0)%nat then blocked
  else
    match data with
    | Failed => {| setRecentItems := None; setInitialized := negb (initialized v) |}
    | Got recentCaptures =>
        (* 1. Don't process if clear started during fetch *)
        if changed then blocked
        else
          match recentCaptures with
          | None | Some [] =>
              (* 2. If storage has empty data, respect it *)
              {| setRecentItems := Some []; setInitialized := negb (initialized v) |}
          | Some (record :: records) =>
              (* 3. Map items to ensure valid dates *)
              let loadedItems := List.map Loaded (record :: records) in
              {| setRecentItems :=
                   (* Skip if we have same items (by ID comparison) *)
                   if (0 <? length (recentItems v))%nat
                      && same_ids (List.map item_id (recentItems v))
                                  (List.map item_id loadedItems)
                   then None
                   else if negb (initialized v) || (length (recentItems v) =? 0)%nat
                        then Some loadedItems
                        else None;
                 (* Always mark as initialized when done *)
                 setInitialized := negb (initialized v) |}
          end
    end.

End Collections.

(** ** More sample data *)

(** A page whose [main] element is short and whose [article] is long. *)
Definition article_page : page :=
  {| selection := None;
     document_title := str "Post";
     location_href := str "https://example.com/post";
     page_metadata := [];
     querySelector := fun selector =>
       if decide (selector = str "main")
       then Some (str "<p>menu</p>", str "<main><p>menu</p></main>")
       else if decide (selector = str "article")
            then Some (List.repeat 120%N 501,
                       str "<article>" ++ List.repeat 120%N 501 ++ str "</article>")
            else None;
     document_outerHTML := str "<html></html>";
     text_of_html := fun s => s;
     throws := fun _ => None;
     now := 1000;
     elapsed := 4;
     date_iso := str "1970-01-01T00:00:01.000Z";
     userAgent := str "Mozilla/5.0" |}.

(** Two captures of one page that start with the same sentence. *)
Definition first_capture : ExtMessage :=
  {| messageType := capturedSelection; from := Some contentScript;
     content := Some (str "Lorem ipsum dolor sit amet, consectetur adipiscing elit, sed do eiusmod");
     metadata := Some [(str "type", VStr (str "text"))] |}.

Definition second_capture : ExtMessage :=
  {| messageType := capturedSelection; from := Some contentScript;
     content := Some (str "Lorem ipsum dolor sit amet, consectetur adipiscing elit. Ut enim ad minim");
     metadata := Some [(str "type", VStr (str "text"))] |}.

(** A document with a [type] meta property, and a page of it. *)
Definition tagged_document : Document :=
  {| doc_title := str "Test Page";
     doc_href := str "https://example.com";
     doc_hostname := str "example.com";
     doc_metaTags :=
       [{| meta_name := Some (str "description"); meta_property := None;
           meta_content := Some (str "A page") |};
        {| meta_name := None; meta_property := Some (str "type");
           meta_content := Some (str "article") |};
        {| meta_name := Some (str "generator"); meta_property := None;
           meta_content := Some (str "hugo") |}];
     doc_canonical := None;
     doc_bodyText := Some (str "Hello world") |}.

Definition tagged_page : page :=
  {| selection := selection sample_page;
     document_title := doc_title tagged_document;
     location_href := doc_href tagged_document;
     page_metadata := extractPageMetadata tagged_document;
     querySelector := querySelector sample_page;
     document_outerHTML := document_outerHTML sample_page;
     text_of_html := text_of_html sample_page;
     throws := throws sample_page;
     now := now sample_page;
     elapsed := elapsed sample_page;
     date_iso := date_iso sample_page;
     userAgent := userAgent sample_page |}.

(** Two messages with one hash and two identifiers: the metadata type of
    the first contains a [-]. *)
Definition dashed_type_message : ExtMessage :=
  {| messageType := capturedSelection; from := Some contentScript;
     content := Some (List.repeat 120%N 40);
     metadata := Some [(str "type", VStr (str "a-b"))] |}.

Definition dashed_content_message : ExtMessage :=
  {| messageType := capturedSelection; from := Some contentScript;
     content := Some (str "b-" ++ List.repeat 120%N 40);
     metadata := Some [(str "type", VStr (str "a"))] |}.

(* ===================================================================== *)
(** * Part II.  Properties                                                *)
(* ===================================================================== *)

(** ** Numbers as strings *)

(** Up to 2^53 a whole number prints as its digits; beyond, as the
    shortest decimal that reads back as the same double, in exponent
    form from 10^21 on. *)
Lemma number_to_string_samples :
  to_jsstring (VNum 0) = str "0"
  /\ to_jsstring (VNum 1700000000000) = str "1700000000000"
  /\ to_jsstring (VNum (-42)) = str "-42"
  /\ to_jsstring (VNum (2 ^ 53 + 1)) = str "9007199254740992"
  /\ to_jsstring (VNum (2 ^ 60)) = str "1152921504606847000"
  /\ to_jsstring (VNum (10 ^ 21)) = str "1e+21"
  /\ to_jsstring (VNum 123456789012345678901234567890) = str "1.2345678901234568e+29".
Proof. vm_compute. repeat split; reflexivity. Qed.

(** ** The dedup maps *)

Section DedupFacts.
Variable w : Z.

Lemma dedup_cleanup_lookup (now : Z) (m : gmap jsstring Z) (h : jsstring) (ts : Z) :
  dedup_cleanup w now m !! h = Some ts <-> m !! h = Some ts /\ now - ts <= w.
Proof.
  unfold dedup_cleanup. rewrite map_lookup_filter_Some. simpl.
  split; intros [H1 H2]; split; auto.
  - destruct (Z.gtb_spec (now - ts) w); [discriminate | lia].
  - destruct (Z.gtb_spec (now - ts) w); [lia | reflexivity].
Qed.

Lemma dedup_cleanup_none (now : Z) (m : gmap jsstring Z) (h : jsstring) :
  dedup_cleanup w now m !! h = None <->
  (forall ts, m !! h = Some ts -> w < now - ts).
Proof.
  split.
  - intros Hn ts Hts.
    destruct (Z_lt_le_dec w (now - ts)) as [|Hle]; [assumption|].
    assert (dedup_cleanup w now m !! h = Some ts) as E
      by (apply dedup_cleanup_lookup; auto).
    congruence.
  - intros H. destruct (dedup_cleanup w now m !! h) as [ts|] eqn:E; [|reflexivity].
    apply dedup_cleanup_lookup in E as [E1 E2]. specialize (H _ E1). lia.
Qed.

(** The answer is [true] exactly when the hash was recorded less than a
    window ago. *)
Lemma dedup_check_true_iff (h : jsstring) (now : Z) (m : gmap jsstring Z) :
  (dedup_check w h now m).1 = true <->
  exists ts, m !! h = Some ts /\ now - ts < w.
Proof.
  unfold dedup_check.
  destruct (dedup_cleanup w now m !! h) as [ts|] eqn:E; simpl.
  - apply dedup_cleanup_lookup in E as [E1 E2].
    assert ((if ts =? 0 then 0 else ts) = ts) as ->
      by (destruct (Z.eqb_spec ts 0); congruence).
    rewrite Z.ltb_lt. split.
    + intros H. exists ts. auto.
    + intros (ts' & H1 & H2). congruence.
  - split; [discriminate|].
    intros (ts & H1 & H2).
    pose proof (proj1 (dedup_cleanup_none now m h) E ts H1). lia.
Qed.

(** The map [isDuplicate] leaves: the cleaned map, with the hash recorded
    at [now] when it was absent from the cleaned map. *)
Lemma dedup_check_map (h : jsstring) (now : Z) (m : gmap jsstring Z) :
  (dedup_check w h now m).2 =
  match dedup_cleanup w now m !! h with
  | Some _ => dedup_cleanup w now m
  | None => <[h := now]> (dedup_cleanup w now m)
  end.
Proof. unfold dedup_check. destruct (dedup_cleanup w now m !! h); reflexivity. Qed.

(** After a check no entry is older than the window. *)
Lemma dedup_check_evicts (h : jsstring) (now : Z) (m : gmap jsstring Z) (k : jsstring) (ts : Z) :
  0 <= w ->
  (dedup_check w h now m).2 !! k = Some ts -> now - ts <= w.
Proof.
  intros Hw. rewrite dedup_check_map.
  destruct (dedup_cleanup w now m !! h) eqn:E.
  - intros H. apply dedup_cleanup_lookup in H. tauto.
  - destruct (decide (h = k)) as [->|Hne].
    + rewrite lookup_insert_eq. intros [= <-]. lia.
    + rewrite lookup_insert_ne by assumption.
      intros H. apply dedup_cleanup_lookup in H. tauto.
Qed.

(** An entry the check finds is kept with its first timestamp. *)
Lemma dedup_check_lookup_fresh (h : jsstring) (now : Z) (m : gmap jsstring Z) :
  (forall ts, m !! h = Some ts -> w <= now - ts) ->
  0 < w ->
  (dedup_check w h now m).1 = false /\
  ((dedup_check w h now m).2 !! h = Some now \/
   exists ts, (dedup_check w h now m).2 !! h = Some ts /\ now - ts = w).
Proof.
  intros Hfresh Hw. split.
  - destruct ((dedup_check w h now m).1) eqn:E; [|reflexivity].
    apply dedup_check_true_iff in E as (ts & H1 & H2).
    specialize (Hfresh _ H1). lia.
  - rewrite dedup_check_map.
    destruct (dedup_cleanup w now m !! h) as [ts|] eqn:E.
    + right. exists ts. split; [assumption|].
      apply dedup_cleanup_lookup in E as [E1 E2]. specialize (Hfresh _ E1). lia.
    + left. apply lookup_insert_eq.
Qed.

(** Called twice within the window, then once after it. *)
Lemma dedup_check_sequence (h : jsstring) (m : gmap jsstring Z) (t0 t1 t2 : Z) :
  m !! h = None ->
  t0 <= t1 -> t1 - t0 < w -> t1 <= t2 -> w <= t2 - t0 ->
  let r0 := dedup_check w h t0 m in
  let r1 := dedup_check w h t1 r0.2 in
  let r2 := dedup_check w h t2 r1.2 in
  r0.1 = false /\ r1.1 = true /\ r2.1 = false.
Proof.
  intros Hm H01 H1w H12 H2w r0 r1 r2.
  assert (r0.2 !! h = Some t0) as E0.
  { subst r0. rewrite dedup_check_map.
    assert (dedup_cleanup w t0 m !! h = None) as ->
      by (apply dedup_cleanup_none; intros ts; rewrite Hm; discriminate).
    apply lookup_insert_eq. }
  assert (r0.1 = false) as R0.
  { subst r0. destruct ((dedup_check w h t0 m).1) eqn:E; [|reflexivity].
    apply dedup_check_true_iff in E as (ts & H & _). congruence. }
  assert (r1.1 = true) as R1.
  { subst r1. apply dedup_check_true_iff. exists t0. split; [assumption | lia]. }
  assert (r1.2 !! h = Some t0) as E1.
  { subst r1. rewrite dedup_check_map.
    assert (dedup_cleanup w t1 r0.2 !! h = Some t0) as E
      by (apply dedup_cleanup_lookup; split; [assumption | lia]).
    rewrite E. assumption. }
  repeat split; try assumption.
  subst r2. destruct ((dedup_check w h t2 r1.2).1) eqn:E; [|reflexivity].
  apply dedup_check_true_iff in E as (ts & H & Hlt).
  rewrite E1 in H. injection H as <-. lia.
Qed.

End DedupFacts.

(** C1.  Both dedup filters, the capture tracker of the page (window
    10 s) and the message filter of the background (window 5 s), each over
    a map of its own: [isDuplicate] answers [true] exactly when the same
    hash was recorded less than a window ago; every check first evicts the
    entries older than the window and tests membership in what is left; and
    for a hash not yet recorded, two calls within the window answer [false]
    then [true], and a call once the window has elapsed answers [false]. *)
Theorem dedup_filters_window
    (c : CapturedContent) (msg : ExtMessage)
    (captures messages : gmap jsstring Z) (t0 t1 t2 u1 u2 : Z)
    (Hc : captures !! captureTracker.getContentHash c = None)
    (Hm : messages !! messageDeduplication.getMessageHash msg = None)
    (Ht1 : t0 <= t1 /\ t1 - t0 < 10000) (Ht2 : t1 <= t2 /\ 10000 <= t2 - t0)
    (Hu1 : t0 <= u1 /\ u1 - t0 < 5000) (Hu2 : u1 <= u2 /\ 5000 <= u2 - t0) :
  (* two calls within the window, one after it *)
  (let r0 := captureTracker.isDuplicate c t0 captures in
   let r1 := captureTracker.isDuplicate c t1 r0.2 in
   let r2 := captureTracker.isDuplicate c t2 r1.2 in
   r0.1 = false /\ r1.1 = true /\ r2.1 = false)
  /\
  (let r0 := messageDeduplication.isDuplicate msg t0 messages in
   let r1 := messageDeduplication.isDuplicate msg u1 r0.2 in
   let r2 := messageDeduplication.isDuplicate msg u2 r1.2 in
   r0.1 = false /\ r1.1 = true /\ r2.1 = false)
  /\
  (* duplicate iff recorded within the window, from any map, at any time *)
  (forall (m : gmap jsstring Z) (now : Z),
      (captureTracker.isDuplicate c now m).1 = true <->
      exists ts, m !! captureTracker.getContentHash c = Some ts /\ now - ts < 10000)
  /\
  (forall (m : gmap jsstring Z) (now : Z),
      (messageDeduplication.isDuplicate msg now m).1 = true <->
      exists ts, m !! messageDeduplication.getMessageHash msg = Some ts /\ now - ts < 5000)
  /\
  (* lazy eviction before the membership test *)
  (forall (m : gmap jsstring Z) (now : Z),
      (captureTracker.isDuplicate c now m).2 =
      match captureTracker.cleanup now m !! captureTracker.getContentHash c with
      | Some _ => captureTracker.cleanup now m
      | None => <[captureTracker.getContentHash c := now]> (captureTracker.cleanup now m)
      end
      /\ (forall (k : jsstring) (ts : Z), captureTracker.cleanup now m !! k = Some ts <->
                       m !! k = Some ts /\ now - ts <= 10000))
  /\
  (forall (m : gmap jsstring Z) (now : Z),
      (messageDeduplication.isDuplicate msg now m).2 =
      match messageDeduplication.cleanup now m !! messageDeduplication.getMessageHash msg with
      | Some _ => messageDeduplication.cleanup now m
      | None => <[messageDeduplication.getMessageHash msg := now]>
                  (messageDeduplication.cleanup now m)
      end
      /\ (forall (k : jsstring) (ts : Z), messageDeduplication.cleanup now m !! k = Some ts <->
                       m !! k = Some ts /\ now - ts <= 5000)).
Proof.
  destruct Ht1, Ht2, Hu1, Hu2.
  split; [|split; [|split; [|split; [|split]]]].
  - apply dedup_check_sequence; assumption.
  - apply dedup_check_sequence; assumption.
  - intros. apply dedup_check_true_iff.
  - intros. apply dedup_check_true_iff.
  - intros. split; [apply dedup_check_map | intros; apply dedup_cleanup_lookup].
  - intros. split; [apply dedup_check_map | intros; apply dedup_cleanup_lookup].
Qed.

(** The two filters on the sample capture and the sample message, from
    empty maps. *)
Lemma dedup_filters_window_witness :
  (let r0 := captureTracker.isDuplicate sample_capture 0 ∅ in
   let r1 := captureTracker.isDuplicate sample_capture 3000 r0.2 in
   let r2 := captureTracker.isDuplicate sample_capture 12000 r1.2 in
   r0.1 = false /\ r1.1 = true /\ r2.1 = false)
  /\
  (let r0 := messageDeduplication.isDuplicate sample_message 0 ∅ in
   let r1 := messageDeduplication.isDuplicate sample_message 3000 r0.2 in
   let r2 := messageDeduplication.isDuplicate sample_message 7000 r1.2 in
   r0.1 = false /\ r1.1 = true /\ r2.1 = false).
Proof.
  pose proof (dedup_filters_window sample_capture sample_message ∅ ∅
                0 3000 12000 3000 7000
                eq_refl eq_refl ltac:(lia) ltac:(lia) ltac:(lia) ltac:(lia)) as H.
  exact (conj (proj1 H) (proj1 (proj2 H))).
Defined.

(** ** The classifier *)

Lemma trimStart_spaces (s : jsstring) :
  forallb is_space s = true -> trimStart s = [].
Proof.
  induction s as [|x s IH]; simpl; [reflexivity|].
  intros H. apply andb_true_iff in H as [Hx Hs]. rewrite Hx. auto.
Qed.

(** A string of whitespace only trims to the empty string. *)
Lemma trim_spaces (s : jsstring) :
  forallb is_space s = true -> trim s = [].
Proof. intros H. unfold trim. rewrite (trimStart_spaces s H). reflexivity. Qed.

Lemma elements_of_element h ln attrs ch :
  elements_of (Element h ln attrs ch) =
  (tagName h ln, ln) :: flat_map elements_of ch.
Proof. reflexivity. Qed.

Lemma includes_true (l : list jsstring) (x : jsstring) :
  includes l x = true <-> In x l.
Proof.
  unfold includes. rewrite existsb_exists. split.
  - intros (y & Hy & E). destruct (decide (x = y)); [subst; assumption | discriminate].
  - intros H. exists x. split; [assumption|]. destruct (decide (x = x)); congruence.
Qed.

Lemma wrapper_not_htmlElement (t : jsstring) :
  includes wrapperTags t = true -> includes htmlElements t = false.
Proof.
  intros H. apply includes_true in H. simpl in H.
  destruct H as [<-|[<-|[<-|[<-|[]]]]]; vm_compute; reflexivity.
Qed.

Lemma plain_wrapper_no_htmlElements (n : node) :
  plain_wrapper n = true ->
  existsb (fun e => includes htmlElements e.1) (elements_of n) = false.
Proof.
  induction n as [d| |h ln attrs ch IH] using node_induction; try reflexivity.
  intros H. cbn [plain_wrapper] in H.
  apply andb_true_iff in H as [H Hch]. apply andb_true_iff in H as [Htag _].
  rewrite elements_of_element. cbn [existsb fst].
  rewrite (wrapper_not_htmlElement _ Htag). cbn [orb].
  clear Htag. induction ch as [|c ch IHch]; [reflexivity|].
  cbn [forallb] in Hch. apply andb_true_iff in Hch as [Hc Hch].
  cbn [flat_map]. rewrite existsb_app.
  inversion IH as [|? ? IHc IHrest]; subst.
  rewrite (IHc Hc). cbn [orb]. apply IHch; assumption.
Qed.

Lemma plain_fragment_no_htmlElements (fragment : list node) :
  forallb plain_wrapper fragment = true ->
  existsb (fun e => includes htmlElements e.1) (querySelectorAll_star fragment) = false.
Proof.
  unfold querySelectorAll_star.
  induction fragment as [|n l IH]; [reflexivity|].
  cbn [forallb flat_map].
  intros H. apply andb_true_iff in H as [Hn Hl].
  rewrite existsb_app, (plain_wrapper_no_htmlElements n Hn). cbn [orb]. auto.
Qed.

Lemma plain_fragment_not_formatted (fragment : list node) :
  forallb plain_wrapper fragment = true ->
  existsb (fun n =>
             match n with
             | Element h ln attrs _ =>
                 negb (includes wrapperTags (tagName h ln) && (length attrs =? 0)%nat)
             | _ => false
             end) fragment = false.
Proof.
  induction fragment as [|n l IH]; [reflexivity|].
  cbn [forallb existsb].
  intros H. apply andb_true_iff in H as [Hn Hl]. rewrite (IH Hl).
  destruct n as [d| |h ln attrs ch]; try reflexivity.
  cbn [plain_wrapper] in Hn. apply andb_true_iff in Hn as [Hn _].
  rewrite Hn. reflexivity.
Qed.

(** Selections of unattributed wrappers only do not ask for HTML. *)
Lemma plain_selection_not_html (sel : Selection) :
  forallb plain_wrapper (sel_fragment sel) = true ->
  shouldUseHTMLCapture (Some sel) = false.
Proof.
  intros H. unfold shouldUseHTMLCapture.
  destruct (rangeCount sel =? 0)%nat; [reflexivity|].
  rewrite (plain_fragment_not_formatted _ H), (plain_fragment_no_htmlElements _ H).
  reflexivity.
Qed.

(** When HTML capture is chosen the fragment has an element. *)
Lemma shouldUseHTMLCapture_has_element (sel : Selection) :
  shouldUseHTMLCapture (Some sel) = true ->
  (0 < length (querySelectorAll_star (sel_fragment sel)))%nat.
Proof.
  unfold shouldUseHTMLCapture.
  destruct (rangeCount sel =? 0)%nat; [discriminate|].
  intros H. apply orb_true_iff in H as [H|H].
  - apply existsb_exists in H as (n & Hin & Hn).
    destruct n as [d| |h ln attrs ch]; try discriminate.
    unfold querySelectorAll_star.
    apply in_split in Hin as (l1 & l2 & ->).
    rewrite flat_map_app. cbn [flat_map]. rewrite elements_of_element.
    rewrite !length_app. cbn [length]. lia.
  - apply existsb_exists in H as (e & Hin & _).
    destruct (querySelectorAll_star (sel_fragment sel)); [destruct Hin | simpl; lia].
Qed.

(** Every special element is an element: the tag of an element whose local
    name is one of the special selectors is none of the given tags. *)
Lemma special_tag (h : bool) (ln : jsstring) :
  includes specialSelectors ln = true ->
  In (tagName h ln)
     [str "IMG"; str "VIDEO"; str "CANVAS"; str "SVG"; str "TABLE"; str "IFRAME";
      str "img"; str "video"; str "canvas"; str "svg"; str "table"; str "iframe"].
Proof.
  intros H. apply includes_true in H. simpl in H.
  destruct H as [<-|[<-|[<-|[<-|[<-|[<-|[]]]]]]]; destruct h; vm_compute; tauto.
Qed.

Lemma elements_of_tagName (n : node) (e : jsstring * jsstring) :
  In e (elements_of n) -> exists h, e.1 = tagName h e.2.
Proof.
  induction n as [d| |h ln attrs ch IH] using node_induction.
  - intros [].
  - intros [].
  - rewrite elements_of_element. intros [<-|Hin]; [exists h; reflexivity|].
    apply in_flat_map in Hin as (c & Hc & He).
    rewrite List.Forall_forall in IH. exact (IH c Hc He).
Qed.

Lemma querySelectorAll_star_tagName (fragment : list node) (e : jsstring * jsstring) :
  In e (querySelectorAll_star fragment) -> exists h, e.1 = tagName h e.2.
Proof.
  unfold querySelectorAll_star. intros Hin.
  apply in_flat_map in Hin as (c & Hc & He). exact (elements_of_tagName c e He).
Qed.

Lemma detect_formatted (sel : Selection) :
  no_selection (Some sel) = false ->
  shouldUseHTMLCapture (Some sel) = true ->
  detectCaptureType (Some sel) =
  if existsb (fun e => includes markdownElements e.1)
             (querySelectorAll_star (sel_fragment sel))
     && (5 * length (querySelectorAll_special (sel_fragment sel))
         <? length (querySelectorAll_star (sel_fragment sel)))%nat
  then Some MARKDOWN else Some HTML.
Proof.
  intros Hsel Hhtml. unfold detectCaptureType. rewrite Hsel, Hhtml.
  unfold specialRatio_below_threshold.
  pose proof (shouldUseHTMLCapture_has_element sel Hhtml) as Hpos.
  apply Nat.ltb_lt in Hpos. rewrite Hpos. reflexivity.
Qed.

Lemma tags_html (sel : Selection) (t : jsstring) :
  no_selection (Some sel) = false ->
  In t (List.map fst (querySelectorAll_star (sel_fragment sel))) ->
  includes htmlElements t = true ->
  shouldUseHTMLCapture (Some sel) = true.
Proof.
  intros Hsel Hin Ht. unfold shouldUseHTMLCapture.
  unfold no_selection in Hsel. apply orb_false_iff in Hsel as [Hrc _].
  rewrite Hrc. apply orb_true_iff. right.
  apply existsb_exists. apply in_map_iff in Hin as (e & <- & He).
  exists e. auto.
Qed.

Lemma no_special_elements (fragment : list node) (tags : list jsstring) :
  (forall t, In t (List.map fst (querySelectorAll_star fragment)) -> In t tags) ->
  (forall t, In t tags ->
             ~ In t [str "IMG"; str "VIDEO"; str "CANVAS"; str "SVG"; str "TABLE";
                     str "IFRAME"; str "img"; str "video"; str "canvas"; str "svg";
                     str "table"; str "iframe"]) ->
  querySelectorAll_special fragment = [].
Proof.
  intros Htags Hnot. unfold querySelectorAll_special.
  destruct (List.filter _ _) as [|e l] eqn:E; [reflexivity|].
  assert (In e (e :: l)) as Hin by (left; reflexivity).
  rewrite <- E in Hin. apply filter_In in Hin as [Hin Hsp].
  destruct (querySelectorAll_star_tagName _ _ Hin) as [h Hh].
  exfalso. apply (Hnot e.1).
  - apply Htags. apply in_map. assumption.
  - rewrite Hh. apply special_tag. assumption.
Qed.

Lemma includes_elem_of (l : list jsstring) (x : jsstring) :
  includes l x = bool_decide (x ∈ l).
Proof.
  destruct (includes l x) eqn:E; symmetry.
  - apply bool_decide_eq_true. apply list_elem_of_In, includes_true. exact E.
  - apply bool_decide_eq_false. intros H. apply list_elem_of_In, includes_true in H.
    congruence.
Qed.

(** The special elements are the elements whose local name is one of the
    six names of the selector list. *)
Lemma querySelectorAll_special_filter (fragment : list node) :
  querySelectorAll_special fragment
  = List.filter
      (fun e => bool_decide (e.2 ∈ [str "img"; str "video"; str "canvas";
                                    str "svg"; str "table"; str "iframe"]))
      (querySelectorAll_star fragment).
Proof.
  unfold querySelectorAll_special. apply List.filter_ext.
  intros e. apply includes_elem_of.
Qed.

(** C3.  The classifier returns nothing for an absent, empty or
    whitespace-only selection; it does not ask for HTML capture (and answers
    TEXT) when every element of the fragment is an unattributed BR, P, DIV
    or SPAN; among the selections that ask for HTML capture it answers
    MARKDOWN exactly when some element is one of H1-H6, P, UL, OL, LI, A,
    CODE, BLOCKQUOTE and the special elements, those named img, video,
    canvas, svg, table or iframe, are fewer than a fifth of all elements,
    and HTML otherwise; so tags H1, P, A, UL give MARKDOWN and tags DIV,
    IMG give HTML. *)
Theorem classifier_decision (sel : Selection) :
  let elements := querySelectorAll_star (sel_fragment sel) in
  let special :=
    List.filter
      (fun e => bool_decide (e.2 ∈ [str "img"; str "video"; str "canvas";
                                    str "svg"; str "table"; str "iframe"]))
      elements in
  let tags := List.map fst elements in
  (* no selection, empty selection, whitespace only *)
  detectCaptureType None = None
  /\ (rangeCount sel = 0%nat -> detectCaptureType (Some sel) = None)
  /\ (forallb is_space (sel_toString sel) = true -> detectCaptureType (Some sel) = None)
  (* unattributed wrappers only *)
  /\ (forallb plain_wrapper (sel_fragment sel) = true ->
      shouldUseHTMLCapture (Some sel) = false
      /\ (no_selection (Some sel) = false -> detectCaptureType (Some sel) = Some TEXT))
  (* selections that need formatting *)
  /\ (no_selection (Some sel) = false -> shouldUseHTMLCapture (Some sel) = true ->
      (0 < length elements)%nat
      /\ (detectCaptureType (Some sel) = Some MARKDOWN <->
          (exists e, In e elements
                     /\ In e.1 [str "H1"; str "H2"; str "H3"; str "H4"; str "H5";
                                str "H6"; str "P"; str "UL"; str "OL"; str "LI";
                                str "A"; str "CODE"; str "BLOCKQUOTE"])
          /\ (5 * length special < length elements)%nat)
      /\ (detectCaptureType (Some sel) <> Some MARKDOWN ->
          detectCaptureType (Some sel) = Some HTML))
  (* the two sample fragments *)
  /\ (no_selection (Some sel) = false ->
      (forall t, In t tags <-> In t [str "H1"; str "P"; str "A"; str "UL"]) ->
      special = [] /\ detectCaptureType (Some sel) = Some MARKDOWN)
  /\ (no_selection (Some sel) = false ->
      (forall t, In t tags <-> In t [str "DIV"; str "IMG"]) ->
      detectCaptureType (Some sel) = Some HTML).
Proof.
  intros elements special tags.
  assert (Hspecial : querySelectorAll_special (sel_fragment sel) = special)
    by apply querySelectorAll_special_filter.
  change [str "H1"; str "H2"; str "H3"; str "H4"; str "H5"; str "H6"; str "P";
          str "UL"; str "OL"; str "LI"; str "A"; str "CODE"; str "BLOCKQUOTE"]
    with markdownElements.
  split; [reflexivity|]. split; [|split; [|split; [|split; [|split]]]].
  - intros H. unfold detectCaptureType, no_selection. rewrite H. reflexivity.
  - intros H. unfold detectCaptureType, no_selection.
    rewrite (trim_spaces _ H).
    destruct (decide ([] = [])) as [_|Hne]; [|congruence].
    rewrite orb_true_r. reflexivity.
  - intros H. split; [apply plain_selection_not_html; assumption|].
    intros Hsel. unfold detectCaptureType.
    rewrite Hsel, (plain_selection_not_html sel H). reflexivity.
  - intros Hsel Hhtml.
    pose proof (shouldUseHTMLCapture_has_element sel Hhtml) as Hpos.
    rewrite (detect_formatted sel Hsel Hhtml), Hspecial.
    fold elements.
    split; [assumption|]. split.
    + destruct (existsb _ elements) eqn:Emd;
        destruct (5 * length special <? length elements)%nat eqn:Er; cbn [andb].
      * split; [intros _|reflexivity]. split.
        -- apply existsb_exists in Emd as (e & He & Hmd).
           exists e. split; [assumption | apply includes_true; assumption].
        -- apply Nat.ltb_lt. assumption.
      * split; [discriminate|]. intros [_ Hlt].
        apply Nat.ltb_lt in Hlt. congruence.
      * split; [discriminate|]. intros [(e & He & Hmd) _].
        assert (existsb (fun e => includes markdownElements e.1) elements = true) as E'
          by (apply existsb_exists; exists e; split;
              [assumption | apply includes_true; assumption]).
        congruence.
      * split; [discriminate|]. intros [_ Hlt].
        apply Nat.ltb_lt in Hlt. congruence.
    + destruct (existsb _ elements && _); [congruence | reflexivity].
  - intros Hsel Htags.
    assert (special = []) as Hsp.
    { rewrite <- Hspecial.
      apply (no_special_elements _ [str "H1"; str "P"; str "A"; str "UL"]).
      - intros t Ht. apply Htags. assumption.
      - intros t Ht Hs. cbn [In] in Ht, Hs.
        repeat (destruct Ht as [<-|Ht]; [vm_compute in Hs; intuition discriminate|]).
        assumption. }
    split; [assumption|].
    assert (In (str "H1") tags) as Hh1 by (apply Htags; left; reflexivity).
    assert (shouldUseHTMLCapture (Some sel) = true) as Hhtml
      by (apply (tags_html sel (str "H1")); [assumption | assumption | reflexivity]).
    rewrite (detect_formatted sel Hsel Hhtml), Hspecial. fold elements.
    rewrite Hsp.
    assert (existsb (fun e => includes markdownElements e.1) elements = true) as ->.
    { apply existsb_exists. apply in_map_iff in Hh1 as (e & He1 & He).
      exists e. split; [assumption|]. rewrite He1. reflexivity. }
    pose proof (shouldUseHTMLCapture_has_element sel Hhtml) as Hpos.
    fold elements in Hpos. apply Nat.ltb_lt in Hpos.
    cbn [length]. rewrite Nat.mul_0_r, Hpos. reflexivity.
  - intros Hsel Htags.
    assert (In (str "IMG") tags) as Himg by (apply Htags; right; left; reflexivity).
    assert (shouldUseHTMLCapture (Some sel) = true) as Hhtml
      by (apply (tags_html sel (str "IMG")); [assumption | assumption | reflexivity]).
    rewrite (detect_formatted sel Hsel Hhtml), Hspecial. fold elements.
    assert (existsb (fun e => includes markdownElements e.1) elements = false) as ->.
    { destruct (existsb _ elements) eqn:E; [|reflexivity].
      apply existsb_exists in E as (e & He & Hmd).
      assert (In e.1 tags) as Ht by (apply in_map; assumption).
      apply Htags in Ht. cbn [In] in Ht.
      destruct Ht as [Ht|[Ht|[]]]; rewrite <- Ht in Hmd; vm_compute in Hmd; discriminate. }
    reflexivity.
Qed.

(** The classifier on the sample selections.  A paragraph with two
    pictures has a Markdown-friendly element and is HTML all the same, for
    two of its three elements are special; five paragraphs and a table are
    MARKDOWN (one in six), four paragraphs and a table are HTML (one in
    five is not below a fifth). *)
Lemma classifier_decision_witness :
  detectCaptureType (Some article_selection) = Some MARKDOWN
  /\ detectCaptureType (Some image_selection) = Some HTML
  /\ shouldUseHTMLCapture (Some wrapper_selection) = false
  /\ detectCaptureType (Some wrapper_selection) = Some TEXT
  /\ detectCaptureType (Some blank_selection) = None
  /\ detectCaptureType (Some gallery_selection) = Some HTML
  /\ detectCaptureType (Some (report_selection 5)) = Some MARKDOWN
  /\ detectCaptureType (Some (report_selection 4)) = Some HTML.
Proof.
  split; [|split; [|split; [|split; [|split; [|split; [|split]]]]]].
  - destruct (classifier_decision article_selection) as (_ & _ & _ & _ & _ & H & _).
    apply H; [reflexivity|]. intros t. vm_compute. split; intros X; exact X.
  - destruct (classifier_decision image_selection) as (_ & _ & _ & _ & _ & _ & H).
    apply H; [reflexivity|]. intros t. vm_compute. split; intros X; exact X.
  - destruct (classifier_decision wrapper_selection) as (_ & _ & _ & H & _).
    apply H. reflexivity.
  - destruct (classifier_decision wrapper_selection) as (_ & _ & _ & H & _).
    apply H; reflexivity.
  - destruct (classifier_decision blank_selection) as (_ & _ & H & _).
    apply H. reflexivity.
  - destruct (classifier_decision gallery_selection) as (_ & _ & _ & _ & H & _).
    destruct (H eq_refl eq_refl) as (_ & Hmd & Hhtml).
    apply Hhtml. intros E. apply Hmd in E as [_ Hlt]. vm_compute in Hlt. lia.
  - destruct (classifier_decision (report_selection 5)) as (_ & _ & _ & _ & H & _).
    destruct (H eq_refl eq_refl) as (_ & Hmd & _).
    apply Hmd. split.
    + exists (str "P", str "p"). split; [left; reflexivity | vm_compute; tauto].
    + vm_compute. lia.
  - destruct (classifier_decision (report_selection 4)) as (_ & _ & _ & _ & H & _).
    destruct (H eq_refl eq_refl) as (_ & Hmd & Hhtml).
    apply Hhtml. intros E. apply Hmd in E as [_ Hlt]. vm_compute in Hlt. lia.
Defined.

(** ** Regular expressions and replacement *)

Lemma canonicalize_small (x c0 : N) :
  (c0 < 65)%N -> (canonicalize x =? c0)%N = (x =? c0)%N.
Proof.
  intros Hc. unfold canonicalize.
  destruct ((97 <=? x) && (x <=? 122))%N eqn:E; [|reflexivity].
  apply andb_true_iff in E as [E1 E2].
  apply N.leb_le in E1, E2.
  destruct (N.eqb_spec (x - 32) c0), (N.eqb_spec x c0); try reflexivity; lia.
Qed.

Lemma chr_small_mismatch (ic : bool) (x c0 : N) :
  (c0 < 65)%N -> (x =? c0)%N = false -> atom_matches ic (Chr c0) x = false.
Proof.
  intros Hc Hx. unfold atom_matches. destruct ic; [|assumption].
  assert (canonicalize c0 = c0) as ->.
  { unfold canonicalize.
    destruct ((97 <=? c0) && (c0 <=? 122))%N eqn:E; [|reflexivity].
    apply andb_true_iff in E as [E1 _]. apply N.leb_le in E1. lia. }
  rewrite canonicalize_small; assumption.
Qed.

(** A match starts with the first character of the expression. *)
Lemma rmatch_first_char {A} (ic : bool) (r : regex) (c0 x : N) (s : jsstring)
    (c : captures) (k : jsstring -> captures -> option A) :
  first_char r = Some c0 ->
  atom_matches ic (Chr c0) x = false ->
  rmatch ic r (x :: s) c k = None.
Proof.
  revert c k. induction r as [|a|a|a|r1 IH1 r2 IH2|r1 IH1 r2 IH2|i r1 IH1];
    intros c k Hf Hx; try discriminate.
  - destruct a; try discriminate. injection Hf as ->. cbn [rmatch]. rewrite Hx. reflexivity.
  - cbn [first_char] in Hf. cbn [rmatch]. apply IH1; assumption.
  - cbn [first_char] in Hf. cbn [rmatch]. apply IH1; assumption.
Qed.

Lemma rmatch_first_char_nil {A} (ic : bool) (r : regex) (c0 : N)
    (c : captures) (k : jsstring -> captures -> option A) :
  first_char r = Some c0 -> rmatch ic r [] c k = None.
Proof.
  revert c k. induction r as [|a|a|a|r1 IH1 r2 IH2|r1 IH1 r2 IH2|i r1 IH1];
    intros c k Hf; try discriminate.
  - destruct a; try discriminate. reflexivity.
  - cbn [first_char] in Hf. cbn [rmatch]. apply IH1; assumption.
  - cbn [first_char] in Hf. cbn [rmatch]. apply IH1; assumption.
Qed.

(** The scan copies a character at which no match starts. *)
Lemma replace_all_skip (ic : bool) (r : regex) (t : template) (x : N) (s : jsstring) :
  exec ic r (x :: s) = None ->
  replace_all ic r t (x :: s) = x :: replace_all ic r t s.
Proof. intros H. unfold replace_all. cbn [replace_from]. rewrite H. reflexivity. Qed.

Lemma replace_all_nil (ic : bool) (r : regex) (t : template) (c0 : N) :
  first_char r = Some c0 -> replace_all ic r t [] = [].
Proof.
  intros H. unfold replace_all. cbn [replace_from].
  unfold exec. rewrite (rmatch_first_char_nil ic r c0) by assumption. reflexivity.
Qed.

(** The scan copies a stretch in which the first character of the
    expression does not occur. *)
Lemma replace_all_copy (ic : bool) (r : regex) (t : template) (c0 : N)
    (a s : jsstring) :
  first_char r = Some c0 ->
  forallb (fun x => negb (atom_matches ic (Chr c0) x)) a = true ->
  replace_all ic r t (a ++ s) = a ++ replace_all ic r t s.
Proof.
  intros Hf. induction a as [|x a IH]; [reflexivity|].
  cbn [forallb]. intros H. apply andb_true_iff in H as [Hx Ha].
  cbn [app]. rewrite replace_all_skip.
  - rewrite (IH Ha). reflexivity.
  - unfold exec. apply (rmatch_first_char ic r c0); [assumption|].
    destruct (atom_matches ic (Chr c0) x); [discriminate | reflexivity].
Qed.

Lemma replace_from_skip (ic : bool) (r : regex) (t : template) (a s : jsstring) :
  replace_from ic r t (length a) (a ++ s) = replace_from ic r t 0 s.
Proof. induction a as [|x a IH]; [reflexivity|]. cbn [length app replace_from]. apply IH. Qed.

(** A match at the start is replaced and the scan resumes after it. *)
Lemma replace_all_match (ic : bool) (r : regex) (t : template) (x : N)
    (a rest : jsstring) (c : captures) :
  exec ic r (x :: a ++ rest) = Some (c, rest) ->
  replace_all ic r t (x :: a ++ rest) = substitute t c ++ replace_all ic r t rest.
Proof.
  intros H. unfold replace_all. cbn [replace_from]. rewrite H.
  f_equal.
  replace (length (x :: a ++ rest) - length rest)%nat with (S (length a))
    by (cbn [length]; rewrite length_app; lia).
  apply replace_from_skip.
Qed.

Lemma take_matched (a rest : jsstring) :
  take (length (a ++ rest) - length rest) (a ++ rest) = a.
Proof.
  rewrite length_app.
  replace (length a + length rest - length rest)%nat with (length a) by lia.
  apply take_app_length.
Qed.

(** A lazy star walks over characters its atom accepts and at which the
    continuation fails, up to the first place where it succeeds. *)
Lemma star_lazy_walk {A} (ic : bool) (a : atom) (t rest : jsstring)
    (k : jsstring -> option A) (r : A) :
  forallb (atom_matches ic a) t = true ->
  (forall b1 x b2, t = b1 ++ x :: b2 -> k (x :: b2 ++ rest) = None) ->
  k rest = Some r ->
  star_lazy ic a (t ++ rest) k = Some r.
Proof.
  induction t as [|x t IH]; intros Ht Hk Hr.
  - cbn [app]. destruct rest; cbn [star_lazy]; rewrite Hr; reflexivity.
  - cbn [forallb] in Ht. apply andb_true_iff in Ht as [Hx Ht].
    cbn [app star_lazy]. rewrite (Hk [] x t eq_refl), Hx.
    apply IH; [assumption | | assumption].
    intros b1 y b2 ->. apply (Hk (x :: b1) y b2). reflexivity.
Qed.

(** A lazy star fails when the continuation fails at every suffix. *)
Lemma star_lazy_fail {A} (ic : bool) (a : atom) (s : jsstring)
    (k : jsstring -> option A) :
  (forall b1 b2, s = b1 ++ b2 -> k b2 = None) ->
  star_lazy ic a s k = None.
Proof.
  induction s as [|x s IH]; intros Hk.
  - cbn [star_lazy]. rewrite (Hk [] [] eq_refl). reflexivity.
  - cbn [star_lazy]. rewrite (Hk [] (x :: s) eq_refl).
    destruct (atom_matches ic a x); [|reflexivity].
    apply IH. intros b1 b2 ->. apply (Hk (x :: b1) b2). reflexivity.
Qed.

Lemma star_greedy_none {A} (ic : bool) (a : atom) (s : jsstring)
    (k : jsstring -> option A) :
  star_greedy ic a s k = None -> k s = None.
Proof.
  destruct s as [|x s]; cbn [star_greedy]; [trivial|].
  destruct (atom_matches ic a x); [|trivial].
  destruct (star_greedy ic a s k); [discriminate | trivial].
Qed.

(** A greedy star gives back the characters at which the continuation
    fails. *)
Lemma star_greedy_back {A} (ic : bool) (a : atom) (t rest : jsstring)
    (k : jsstring -> option A) :
  star_greedy ic a rest k = None ->
  (forall b1 x b2, t = b1 ++ x :: b2 -> b1 <> [] -> k (x :: b2 ++ rest) = None) ->
  star_greedy ic a (t ++ rest) k = k (t ++ rest).
Proof.
  intros Hrest. induction t as [|x t IH]; intros Hk.
  - cbn [app]. rewrite Hrest. symmetry. apply (star_greedy_none ic a). assumption.
  - cbn [app star_greedy].
    destruct (atom_matches ic a x); [|reflexivity].
    assert (star_greedy ic a (t ++ rest) k = None) as ->; [|reflexivity].
    destruct t as [|y t].
    + assumption.
    + rewrite IH.
      * apply (Hk [x] y t); [reflexivity | discriminate].
      * intros b1 z b2 E _. apply (Hk (x :: b1) z b2); [rewrite E; reflexivity | discriminate].
Qed.

Lemma star_greedy_fail {A} (ic : bool) (a : atom) (s : jsstring)
    (k : jsstring -> option A) :
  (forall b1 b2, s = b1 ++ b2 -> k b2 = None) ->
  star_greedy ic a s k = None.
Proof.
  induction s as [|x s IH]; intros Hk.
  - apply (Hk [] []). reflexivity.
  - cbn [star_greedy].
    rewrite IH by (intros b1 b2 ->; apply (Hk (x :: b1) b2); reflexivity).
    rewrite (Hk [] (x :: s) eq_refl). destruct (atom_matches ic a x); reflexivity.
Qed.

Lemma chr_matches_trans (ic : bool) (c0 c x : N) :
  atom_matches ic (Chr c0) c = true ->
  atom_matches ic (Chr c) x = true ->
  atom_matches ic (Chr c0) x = true.
Proof.
  unfold atom_matches. destruct ic; rewrite !N.eqb_eq; congruence.
Qed.

Lemma occurrences_app (ic : bool) (c0 : N) (a b : jsstring) :
  occurrences ic c0 (a ++ b) = (occurrences ic c0 a + occurrences ic c0 b)%nat.
Proof. unfold occurrences. rewrite List.filter_app, length_app. reflexivity. Qed.

(** A match consumes at least [min_count] occurrences: the matcher fails
    when the continuation fails after every prefix that holds that many. *)
Lemma rmatch_consumes {A} (ic : bool) (c0 : N) (r : regex) :
  forall (s : jsstring) (c : captures) (k : jsstring -> captures -> option A),
    (forall p s' c', s = p ++ s' ->
                     (min_count ic c0 r <= occurrences ic c0 p)%nat ->
                     k s' c' = None) ->
    rmatch ic r s c k = None.
Proof.
  induction r as [|a|a|a|r1 IH1 r2 IH2|r1 IH1 r2 IH2|i r1 IH1]; intros s c k Hk.
  - cbn [rmatch]. apply (Hk [] s c); [reflexivity | cbn; lia].
  - cbn [rmatch]. destruct s as [|x s]; [reflexivity|].
    destruct (atom_matches ic a x) eqn:Hx; [|reflexivity].
    apply (Hk [x] s c); [reflexivity|].
    destruct a as [ch|ch| |]; cbn [min_count]; try lia.
    destruct (atom_matches ic (Chr c0) ch) eqn:Hc; [|lia].
    unfold occurrences. cbn [List.filter].
    rewrite (chr_matches_trans ic c0 ch x Hc Hx). cbn. lia.
  - cbn [rmatch]. apply star_greedy_fail.
    intros b1 b2 ->. apply (Hk b1 b2 c); [reflexivity | cbn [min_count]; lia].
  - cbn [rmatch]. apply star_lazy_fail.
    intros b1 b2 ->. apply (Hk b1 b2 c); [reflexivity | cbn [min_count]; lia].
  - cbn [rmatch]. apply IH1. intros p s1 c1 -> Hp.
    apply IH2. intros p2 s2 c2 -> Hp2.
    apply (Hk (p ++ p2) s2 c2); [apply app_assoc|].
    cbn [min_count]. rewrite occurrences_app. lia.
  - cbn [rmatch].
    rewrite IH1 by (intros p s' c' E Hp; apply (Hk p s' c' E); cbn [min_count]; lia).
    apply IH2. intros p s' c' E Hp. apply (Hk p s' c' E). cbn [min_count]. lia.
  - cbn [rmatch]. apply IH1. intros p s' c' E Hp. apply (Hk p s' _ E). exact Hp.
Qed.

(** No match starts where the pattern character occurs too rarely. *)
Lemma exec_too_few (ic : bool) (c0 : N) (r : regex) (s : jsstring) :
  (occurrences ic c0 s < min_count ic c0 r)%nat -> exec ic r s = None.
Proof.
  intros H. unfold exec. apply (rmatch_consumes ic c0).
  intros p s' c' -> Hp. rewrite occurrences_app in H. lia.
Qed.

(** *** Text without markup *)

Lemma text_char_lt (ic : bool) (x : N) :
  text_char x = true -> atom_matches ic (Chr 60) x = false.
Proof.
  unfold text_char. intros H.
  apply andb_true_iff in H as [H _]. apply andb_true_iff in H as [H _].
  apply chr_small_mismatch; [reflexivity|].
  destruct (x =? 60)%N; [discriminate | reflexivity].
Qed.

Lemma text_char_amp (ic : bool) (x : N) :
  text_char x = true -> atom_matches ic (Chr 38) x = false.
Proof.
  unfold text_char. intros H.
  apply andb_true_iff in H as [H _]. apply andb_true_iff in H as [_ H].
  apply chr_small_mismatch; [reflexivity|].
  destruct (x =? 38)%N; [discriminate | reflexivity].
Qed.

Lemma text_char_dot (ic : bool) (x : N) :
  text_char x = true -> atom_matches ic Dot x = true.
Proof. unfold text_char. intros H. apply andb_true_iff in H as [_ H]. exact H. Qed.

Lemma markup_free_lt (ic : bool) (t : jsstring) :
  markup_free t = true ->
  forallb (fun x => negb (atom_matches ic (Chr 60) x)) t = true.
Proof.
  unfold markup_free. rewrite !forallb_forall. intros H x Hx.
  rewrite (text_char_lt ic x (H x Hx)). reflexivity.
Qed.

Lemma markup_free_amp (ic : bool) (t : jsstring) :
  markup_free t = true ->
  forallb (fun x => negb (atom_matches ic (Chr 38) x)) t = true.
Proof.
  unfold markup_free. rewrite !forallb_forall. intros H x Hx.
  rewrite (text_char_amp ic x (H x Hx)). reflexivity.
Qed.

Lemma markup_free_occurrences (ic : bool) (t : jsstring) :
  markup_free t = true -> occurrences ic 60 t = 0%nat.
Proof.
  intros H. unfold occurrences. induction t as [|x t IH]; [reflexivity|].
  cbn [markup_free forallb] in H. apply andb_true_iff in H as [Hx Ht].
  cbn [List.filter]. rewrite (text_char_lt ic x Hx). apply IH. exact Ht.
Qed.

(** A replacement whose expression starts with [<] or [&] leaves text
    without markup as it is. *)
Lemma replace_all_text (ic : bool) (r : regex) (tpl : template) (t : jsstring) :
  first_char r = Some 60%N \/ first_char r = Some 38%N ->
  markup_free t = true ->
  replace_all ic r tpl t = t.
Proof.
  intros Hf Ht. rewrite <- (app_nil_r t) at 1.
  destruct Hf as [Hf|Hf].
  - rewrite (replace_all_copy ic r tpl 60 t [] Hf (markup_free_lt ic t Ht)).
    rewrite (replace_all_nil ic r tpl 60 Hf). apply app_nil_r.
  - rewrite (replace_all_copy ic r tpl 38 t [] Hf (markup_free_amp ic t Ht)).
    rewrite (replace_all_nil ic r tpl 38 Hf). apply app_nil_r.
Qed.

(** The lazy [(.*?)] walks over text without markup up to the closing
    tag. *)
Lemma star_lazy_text {A} (ic : bool) (t rest : jsstring)
    (k : jsstring -> option A) (r : A) :
  markup_free t = true ->
  (forall x s, atom_matches ic (Chr 60) x = false -> k (x :: s) = None) ->
  k rest = Some r ->
  star_lazy ic Dot (t ++ rest) k = Some r.
Proof.
  intros Ht Hk Hr. apply star_lazy_walk; [| |assumption].
  - unfold markup_free in Ht. rewrite forallb_forall in Ht |- *.
    intros x Hx. apply text_char_dot. auto.
  - intros b1 x b2 ->. apply Hk. apply text_char_lt.
    unfold markup_free in Ht. rewrite forallb_forall in Ht. apply Ht.
    apply in_or_app. right. left. reflexivity.
Qed.

Lemma replace_all_match_app (ic : bool) (r : regex) (t : template)
    (m rest : jsstring) (c : captures) :
  m <> [] ->
  exec ic r (m ++ rest) = Some (c, rest) ->
  replace_all ic r t (m ++ rest) = substitute t c ++ replace_all ic r t rest.
Proof.
  destruct m as [|x m]; [congruence|]. intros _ H.
  apply (replace_all_match ic r t x m rest c). exact H.
Qed.

(** *** One stage of [htmlToMarkdown] on text around one element *)

(** The element between texts [pre] and [post] is replaced and the texts
    are copied. *)
Lemma replace_all_element (ic : bool) (r : regex) (tpl : template)
    (pre open t close post : jsstring) (c : captures) :
  first_char r = Some 60%N \/ first_char r = Some 38%N ->
  markup_free pre = true -> markup_free post = true ->
  open <> [] ->
  exec ic r (open ++ t ++ close ++ post) = Some (c, post) ->
  replace_all ic r tpl (pre ++ open ++ t ++ close ++ post)
  = pre ++ substitute tpl c ++ post.
Proof.
  intros Hf Hpre Hpost Hm He.
  assert (replace_all ic r tpl (pre ++ open ++ t ++ close ++ post)
          = pre ++ replace_all ic r tpl (open ++ t ++ close ++ post)) as ->.
  { destruct Hf as [Hf|Hf].
    - apply (replace_all_copy ic r tpl 60 pre _ Hf (markup_free_lt ic pre Hpre)).
    - apply (replace_all_copy ic r tpl 38 pre _ Hf (markup_free_amp ic pre Hpre)). }
  replace (open ++ t ++ close ++ post) with ((open ++ t ++ close) ++ post) in *
    by (rewrite <- !app_assoc; reflexivity).
  rewrite (replace_all_match_app ic r tpl (open ++ t ++ close) post c).
  - rewrite (replace_all_text ic r tpl post Hf Hpost). reflexivity.
  - destruct open; [congruence | discriminate].
  - exact He.
Qed.

(** *** Counting a character *)

Lemma occurrences_cons (ic : bool) (c0 x : N) (s : jsstring) :
  occurrences ic c0 (x :: s) =
  ((if atom_matches ic (Chr c0) x then 1 else 0) + occurrences ic c0 s)%nat.
Proof.
  unfold occurrences. cbn [List.filter].
  destruct (atom_matches ic (Chr c0) x); reflexivity.
Qed.

Lemma lacks_occurrences (ic : bool) (c0 : N) (s : jsstring) :
  (c0 < 65)%N -> lacks c0 s = true -> occurrences ic c0 s = 0%nat.
Proof.
  intros Hc H. unfold occurrences. induction s as [|x s IH]; [reflexivity|].
  cbn [lacks forallb] in H. apply andb_true_iff in H as [Hx Hs].
  cbn [List.filter]. rewrite (chr_small_mismatch ic x c0 Hc).
  - apply IH. exact Hs.
  - destruct (x =? c0)%N; [discriminate | reflexivity].
Qed.

Lemma lacks_mismatch (ic : bool) (c0 : N) (s : jsstring) :
  (c0 < 65)%N -> lacks c0 s = true ->
  forallb (fun x => negb (atom_matches ic (Chr c0) x)) s = true.
Proof.
  intros Hc. unfold lacks. rewrite !forallb_forall. intros H x Hx.
  rewrite (chr_small_mismatch ic x c0 Hc); [reflexivity|].
  specialize (H x Hx). destruct (x =? c0)%N; [discriminate | reflexivity].
Qed.

Lemma attr_char_text (x : N) : attr_char x = true -> text_char x = true.
Proof.
  unfold attr_char. intros H.
  apply andb_true_iff in H as [H _]. apply andb_true_iff in H as [H _]. exact H.
Qed.

Lemma attr_safe_markup_free (s : jsstring) :
  attr_safe s = true -> markup_free s = true.
Proof.
  unfold attr_safe, markup_free. rewrite !forallb_forall.
  intros H x Hx. apply attr_char_text. auto.
Qed.

Lemma attr_char_quote (ic : bool) (x : N) :
  attr_char x = true -> atom_matches ic (Chr 34) x = false.
Proof.
  unfold attr_char. intros H. apply andb_true_iff in H as [_ H].
  apply chr_small_mismatch; [reflexivity|].
  destruct (x =? 34)%N; [discriminate | reflexivity].
Qed.

Lemma attr_safe_quotes (ic : bool) (s : jsstring) :
  attr_safe s = true -> occurrences ic 34 s = 0%nat.
Proof.
  intros H. unfold occurrences. induction s as [|x s IH]; [reflexivity|].
  cbn [attr_safe forallb] in H. apply andb_true_iff in H as [Hx Hs].
  cbn [List.filter]. rewrite (attr_char_quote ic x Hx). apply IH. exact Hs.
Qed.

Lemma tag_body_lt (g : jsstring) : tag_body g = true -> lacks 60 g = true.
Proof. unfold tag_body. intros H. apply andb_true_iff in H as [H _]. exact H. Qed.

Lemma tag_body_gt (g : jsstring) : tag_body g = true -> lacks 62 g = true.
Proof. unfold tag_body. intros H. apply andb_true_iff in H as [_ H]. exact H. Qed.

(** Literals and closed expressions are computed before a stage is
    examined. *)
Ltac eval_str :=
  repeat match goal with
         | |- context [str ?s] =>
             let v := eval vm_compute in (str s) in change (str s) with v
         end.

Ltac eval_closed :=
  repeat match goal with
         | |- context [replace_all ?ic ?r ?t ?s] =>
             first
               [ lazymatch r with
                 | Cat _ _ => fail
                 | One _ => fail
                 | _ => let v := eval vm_compute in r in change r with v
                 end
               | lazymatch t with
                 | [] => fail
                 | _ :: _ => fail
                 | _ => let v := eval vm_compute in t in change t with v
                 end ]
         end.

Ltac normalise := eval_closed; eval_str; unfold nl; rewrite <- ?app_assoc; cbn [app].

Ltac side_text :=
  first [ apply markup_free_lt; assumption
        | apply markup_free_amp; assumption
        | apply markup_free_lt; apply attr_safe_markup_free; assumption
        | apply markup_free_amp; apply attr_safe_markup_free; assumption
        | apply lacks_mismatch; [reflexivity | apply tag_body_lt; assumption] ].

(** The occurrences of a character in a string made of known characters
    and of texts that lack it. *)
Ltac count_occ :=
  repeat first
    [ rewrite occurrences_cons
    | rewrite occurrences_app
    | rewrite markup_free_occurrences by assumption
    | rewrite markup_free_occurrences by (apply attr_safe_markup_free; assumption)
    | rewrite lacks_occurrences by (first [reflexivity | assumption | apply tag_body_lt; assumption]) ].

Ltac too_few c0 :=
  apply (exec_too_few _ c0); count_occ; vm_compute; lia.

(** A stage that finds no match copies its input, piece by piece. *)
Ltac stage_step :=
  first
    [ rewrite replace_all_text
        by (first [left; reflexivity | right; reflexivity | assumption
                  | apply attr_safe_markup_free; assumption])
    | rewrite (replace_all_copy _ _ _ 60%N) by (first [reflexivity | side_text])
    | rewrite (replace_all_copy _ _ _ 38%N) by (first [reflexivity | side_text])
    | rewrite replace_all_skip by (unfold exec; simpl; reflexivity)
    | rewrite replace_all_skip by (first [too_few 60%N | too_few 59%N])
    | rewrite (replace_all_nil _ _ _ 60%N) by reflexivity
    | rewrite (replace_all_nil _ _ _ 38%N) by reflexivity ].

Ltac stage_id := repeat stage_step; reflexivity.

(** The innermost stage, when it copies its input. *)
Ltac stage_next :=
  match goal with
  | |- context [replace_all ?ic ?r ?tpl ?S] =>
      lazymatch S with
      | context [replace_all _ _ _ _] => fail
      | _ => replace (replace_all ic r tpl S) with S by (symmetry; stage_id)
      end
  end.

(** The innermost stage, when [L] tells what it produces. *)
Ltac stage_apply L :=
  match goal with
  | |- context [replace_all ?ic ?r ?tpl ?S] =>
      lazymatch S with
      | context [replace_all _ _ _ _] => fail
      | _ =>
          let H := fresh in
          pose proof L as H;
          lazymatch type of H with
          | _ = ?rhs =>
              replace (replace_all ic r tpl S) with rhs by (symmetry; exact H)
          end;
          clear H; normalise
      end
  end.

(** The lazy group of an element's body, then its closing tag. *)
Ltac lazy_text Ht :=
  erewrite star_lazy_text;
  [ reflexivity
  | exact Ht
  | let x := fresh "x" in let s := fresh "s" in let H := fresh "H" in
    intros x s H; simpl in H |- *; rewrite H; reflexivity
  | simpl; reflexivity ].

(** A greedy star runs over the characters its atom accepts when the match
    succeeds behind them. *)
Lemma star_greedy_run {A} (ic : bool) (a : atom) (g rest : jsstring)
    (k : jsstring -> option A) (r : A) :
  forallb (atom_matches ic a) g = true ->
  star_greedy ic a rest k = Some r ->
  star_greedy ic a (g ++ rest) k = Some r.
Proof.
  intros Hg Hr. induction g as [|x g IH]; [exact Hr|].
  cbn [forallb] in Hg. apply andb_true_iff in Hg as [Hx Hg].
  cbn [app star_greedy]. rewrite Hx, (IH Hg). reflexivity.
Qed.

Lemma tag_body_run (ic : bool) (g : jsstring) :
  tag_body g = true -> forallb (atom_matches ic (NotChr 62)) g = true.
Proof.
  intros H. apply tag_body_gt in H.
  pose proof (lacks_mismatch ic 62 g eq_refl H) as E.
  rewrite forallb_forall in E |- *. intros x Hx. exact (E x Hx).
Qed.

(** The stage of an element whose body is text and whose opening tag holds
    [g] behind the name: [grp] is the group of the body. *)
Ltac element_stage grp Hpre Hg Ht Hpost :=
  match goal with
  | |- replace_all ?ic ?r ?tpl
         (?pre ++ ?opening ++ ?g ++ ?gt ++ ?t ++ ?close ++ ?post) = _ =>
      replace (pre ++ opening ++ g ++ gt ++ t ++ close ++ post)
        with (pre ++ (opening ++ g ++ gt) ++ t ++ close ++ post)
        by (rewrite <- !app_assoc; reflexivity);
      let c := fresh "c" in
      let Hc := fresh "Hc" in
      let Hcap := fresh "Hcap" in
      assert (exists c, exec ic r ((opening ++ g ++ gt) ++ t ++ close ++ post) = Some (c, post)
                        /\ capture grp c = t) as (c & Hc & Hcap)
        by (eexists; split;
            [ let v := eval vm_compute in r in change r with v;
              eval_str; rewrite <- ?app_assoc; cbn [app]; unfold exec; simpl;
              erewrite (star_greedy_run true (NotChr 62) g);
              [ reflexivity
              | apply tag_body_run; exact Hg
              | simpl; lazy_text Ht ]
            | simpl; apply take_matched ]);
      rewrite (replace_all_element ic r tpl pre (opening ++ g ++ gt) t close post c);
        [ cbn [substitute]; rewrite ?Hcap; unfold nl; rewrite <- ?app_assoc; reflexivity
        | left; reflexivity | exact Hpre | exact Hpost
        | eval_str; cbn [app]; discriminate | exact Hc ]
  end.

Section Elements.
Variables pre g t post : jsstring.
Hypothesis Hpre : markup_free pre = true.
Hypothesis Hg : tag_body g = true.
Hypothesis Ht : markup_free t = true.
Hypothesis Hpost : markup_free post = true.

Lemma stage_h1 :
  replace_all true (re_heading "1") (heading_template "#")
    (pre ++ str "<h1" ++ g ++ str ">" ++ t ++ str "</h1>" ++ post)
  = pre ++ str "# " ++ t ++ nl ++ nl ++ post.
Proof. unfold heading_template. element_stage 1%nat Hpre Hg Ht Hpost. Qed.

Lemma stage_h2 :
  replace_all true (re_heading "2") (heading_template "##")
    (pre ++ str "<h2" ++ g ++ str ">" ++ t ++ str "</h2>" ++ post)
  = pre ++ str "## " ++ t ++ nl ++ nl ++ post.
Proof. unfold heading_template. element_stage 1%nat Hpre Hg Ht Hpost. Qed.

Lemma stage_h3 :
  replace_all true (re_heading "3") (heading_template "###")
    (pre ++ str "<h3" ++ g ++ str ">" ++ t ++ str "</h3>" ++ post)
  = pre ++ str "### " ++ t ++ nl ++ nl ++ post.
Proof. unfold heading_template. element_stage 1%nat Hpre Hg Ht Hpost. Qed.

Lemma stage_h4 :
  replace_all true (re_heading "4") (heading_template "####")
    (pre ++ str "<h4" ++ g ++ str ">" ++ t ++ str "</h4>" ++ post)
  = pre ++ str "#### " ++ t ++ nl ++ nl ++ post.
Proof. unfold heading_template. element_stage 1%nat Hpre Hg Ht Hpost. Qed.

Lemma stage_h5 :
  replace_all true (re_heading "5") (heading_template "#####")
    (pre ++ str "<h5" ++ g ++ str ">" ++ t ++ str "</h5>" ++ post)
  = pre ++ str "##### " ++ t ++ nl ++ nl ++ post.
Proof. unfold heading_template. element_stage 1%nat Hpre Hg Ht Hpost. Qed.

Lemma stage_h6 :
  replace_all true (re_heading "6") (heading_template "######")
    (pre ++ str "<h6" ++ g ++ str ">" ++ t ++ str "</h6>" ++ post)
  = pre ++ str "###### " ++ t ++ nl ++ nl ++ post.
Proof. unfold heading_template. element_stage 1%nat Hpre Hg Ht Hpost. Qed.

Lemma stage_p :
  replace_all true re_paragraph [TGroup 1; TLit (nl ++ nl)]
    (pre ++ str "<p" ++ g ++ str ">" ++ t ++ str "</p>" ++ post)
  = pre ++ t ++ nl ++ nl ++ post.
Proof. element_stage 1%nat Hpre Hg Ht Hpost. Qed.

Lemma stage_strong :
  replace_all true re_bold [TLit (str "**"); TGroup 2; TLit (str "**")]
    (pre ++ str "<strong" ++ g ++ str ">" ++ t ++ str "</strong>" ++ post)
  = pre ++ str "**" ++ t ++ str "**" ++ post.
Proof. element_stage 2%nat Hpre Hg Ht Hpost. Qed.

Lemma stage_b :
  replace_all true re_bold [TLit (str "**"); TGroup 2; TLit (str "**")]
    (pre ++ str "<b" ++ g ++ str ">" ++ t ++ str "</b>" ++ post)
  = pre ++ str "**" ++ t ++ str "**" ++ post.
Proof. element_stage 2%nat Hpre Hg Ht Hpost. Qed.

Lemma stage_em :
  replace_all true re_italic [TLit (str "*"); TGroup 2; TLit (str "*")]
    (pre ++ str "<em" ++ g ++ str ">" ++ t ++ str "</em>" ++ post)
  = pre ++ str "*" ++ t ++ str "*" ++ post.
Proof. element_stage 2%nat Hpre Hg Ht Hpost. Qed.

Lemma stage_i :
  replace_all true re_italic [TLit (str "*"); TGroup 2; TLit (str "*")]
    (pre ++ str "<i" ++ g ++ str ">" ++ t ++ str "</i>" ++ post)
  = pre ++ str "*" ++ t ++ str "*" ++ post.
Proof. element_stage 2%nat Hpre Hg Ht Hpost. Qed.

End Elements.

(** The lazy group of an attribute value, up to the closing quote. *)
Lemma star_lazy_attr {A} (ic : bool) (u rest : jsstring)
    (k : jsstring -> option A) (r : A) :
  attr_safe u = true ->
  (forall x s, atom_matches ic (Chr 34) x = false -> k (x :: s) = None) ->
  k rest = Some r ->
  star_lazy ic Dot (u ++ rest) k = Some r.
Proof.
  intros Hu Hk Hr. apply star_lazy_walk; [| |assumption].
  - unfold attr_safe in Hu. rewrite forallb_forall in Hu |- *.
    intros x Hx. apply text_char_dot. apply attr_char_text. auto.
  - intros b1 x b2 ->. apply Hk. apply attr_char_quote.
    unfold attr_safe in Hu. rewrite forallb_forall in Hu. apply Hu.
    apply in_or_app. right. left. reflexivity.
Qed.

Section Anchor.
Variables pre g1 u g2 t post : jsstring.
Hypothesis Hpre : markup_free pre = true.
Hypothesis Hg1 : tag_body g1 = true.
Hypothesis Hu : attr_safe u = true.
Hypothesis Hg2 : tag_body g2 = true.
Hypothesis Hq2 : lacks 34 g2 = true.
Hypothesis Ht : attr_safe t = true.
Hypothesis Hpost : attr_safe post = true.

Lemma exec_link :
  exists c,
    exec true re_link
      ((str "<a" ++ g1 ++ str "href=" ++ [34%N]) ++ u
         ++ ([34%N] ++ g2 ++ str ">" ++ t ++ str "</a>") ++ post)
    = Some (c, post)
    /\ capture 1 c = u /\ capture 2 c = t.
Proof.
  pose proof (attr_safe_markup_free t Ht) as Ht'.
  eexists. split.
  - let v := eval vm_compute in re_link in change re_link with v.
    eval_str. rewrite <- ?app_assoc. cbn [app]. unfold exec. simpl.
    apply star_greedy_run; [apply tag_body_run; exact Hg1|].
    simpl.
    match goal with
    | |- context [star_greedy true (NotChr 62) (u ++ ?rest) ?K] =>
        assert (star_greedy true (NotChr 62) (u ++ rest) K = None) as E
    end.
    { apply star_greedy_fail. intros b1 b2 Hb.
      change (rmatch true
                (sequence [lit "href="; One (Chr 34); Grp 1 (StarLazy Dot);
                           One (Chr 34); Star (NotChr 62); One (Chr 62);
                           Grp 2 (StarLazy Dot); lit "</a>"])
                b2 [] (fun s' c => Some (c, s')) = None).
      apply (rmatch_consumes true 34).
      intros p s' c' -> Hp.
      assert (occurrences true 34 (b1 ++ p ++ s') = 1%nat) as Hocc.
      { rewrite <- Hb.
        rewrite occurrences_app, !occurrences_cons, occurrences_app,
          !occurrences_cons, occurrences_app, !occurrences_cons,
          (attr_safe_quotes true u Hu),
          (lacks_occurrences true 34 g2 eq_refl Hq2),
          (attr_safe_quotes true t Ht), (attr_safe_quotes true post Hpost).
        reflexivity. }
      rewrite !occurrences_app in Hocc.
      vm_compute (min_count _ _ _) in Hp. lia. }
    rewrite E. cbn iota.
    erewrite star_lazy_attr;
      [ reflexivity | exact Hu
      | intros x s H; simpl in H |- *; rewrite H; reflexivity
      | simpl;
        erewrite (star_greedy_run true (NotChr 62) g2);
        [ reflexivity
        | apply tag_body_run; exact Hg2
        | simpl; erewrite star_lazy_text;
          [ reflexivity | exact Ht'
          | intros x s H; simpl in H |- *; rewrite H; reflexivity
          | simpl; reflexivity ] ] ].
  - split; simpl; apply take_matched.
Qed.

Lemma stage_a :
  replace_all true re_link
    [TLit (str "["); TGroup 2; TLit (str "]("); TGroup 1; TLit (str ")")]
    (pre ++ str "<a" ++ g1 ++ str "href=" ++ [34%N] ++ u ++ [34%N] ++ g2 ++ str ">"
         ++ t ++ str "</a>" ++ post)
  = pre ++ str "[" ++ t ++ str "](" ++ u ++ str ")" ++ post.
Proof.
  destruct exec_link as (c & Hc & Hc1 & Hc2).
  replace (str "<a" ++ g1 ++ str "href=" ++ [34%N] ++ u ++ [34%N] ++ g2 ++ str ">"
             ++ t ++ str "</a>" ++ post)
    with ((str "<a" ++ g1 ++ str "href=" ++ [34%N]) ++ u
            ++ ([34%N] ++ g2 ++ str ">" ++ t ++ str "</a>") ++ post)
    by (rewrite <- !app_assoc; reflexivity).
  rewrite (replace_all_element true re_link _ pre _ u _ post c);
    [ cbn [substitute]; rewrite Hc1, Hc2, <- ?app_assoc; reflexivity
    | left; reflexivity | exact Hpre | apply attr_safe_markup_free; exact Hpost
    | eval_str; cbn [app]; discriminate | exact Hc ].
Qed.

End Anchor.

Section Tags.
Variables pre g post : jsstring.
Hypothesis Hpre : markup_free pre = true.
Hypothesis Hg : tag_body g = true.
Hypothesis Hpost : markup_free post = true.

Lemma stage_br :
  replace_all true re_br [TLit nl] (pre ++ str "<br" ++ g ++ str ">" ++ post)
  = pre ++ nl ++ post.
Proof.
  rewrite (replace_all_element true re_br _ pre _ g _ post []);
    [ reflexivity | left; reflexivity | exact Hpre | exact Hpost | discriminate |].
  let v := eval vm_compute in re_br in change re_br with v.
  eval_str. cbn [app]. unfold exec. simpl.
  apply star_greedy_run; [apply tag_body_run; exact Hg | reflexivity].
Qed.

Lemma stage_tag :
  replace_all false re_tag [] (pre ++ str "<" ++ g ++ str ">" ++ post)
  = pre ++ post.
Proof.
  rewrite (replace_all_element false re_tag _ pre _ g _ post []);
    [ reflexivity | left; reflexivity | exact Hpre | exact Hpost | discriminate |].
  let v := eval vm_compute in re_tag in change re_tag with v.
  eval_str. cbn [app]. unfold exec. simpl.
  apply star_greedy_run; [apply tag_body_run; exact Hg | reflexivity].
Qed.

(** The line-break stage leaves a tag alone whose name does not start with
    BR. *)
Lemma no_br (b : jsstring) :
  is_prefix (str "BR") (upper g) = false ->
  exec true re_br (60%N :: g ++ 62%N :: b) = None.
Proof.
  intros H.
  let v := eval vm_compute in re_br in change re_br with v.
  unfold exec.
  destruct g as [|x1 [|x2 g']]; simpl.
  - reflexivity.
  - destruct (canonicalize x1 =? canonicalize 98)%N; reflexivity.
  - change (is_prefix [66%N; 82%N] (canonicalize x1 :: canonicalize x2 :: upper g') = false) in H.
    cbn [is_prefix] in H.
    change (canonicalize 98) with 66%N. change (canonicalize 114) with 82%N.
    rewrite (N.eqb_sym (canonicalize x1)), (N.eqb_sym (canonicalize x2)).
    destruct (66 =? canonicalize x1)%N; [|reflexivity].
    destruct (82 =? canonicalize x2)%N; [discriminate | reflexivity].
Qed.

End Tags.

Section Entities.
Variables pre post : jsstring.
Hypothesis Hpre : markup_free pre = true.
Hypothesis Hpost : markup_free post = true.

Ltac entity_stage :=
  match goal with
  | |- replace_all ?ic ?r ?tpl (?pre ++ ?e ++ ?post) = _ =>
      change (replace_all ic r tpl (pre ++ e ++ [] ++ [] ++ post) = pre ++ substitute tpl [] ++ post);
      apply replace_all_element;
      [ right; reflexivity | exact Hpre | exact Hpost | discriminate
      | let v := eval vm_compute in r in change r with v;
        eval_str; cbn [app]; unfold exec; simpl; reflexivity ]
  end.

Lemma stage_nbsp :
  replace_all false (lit "&nbsp;") [TLit (str " ")] (pre ++ str "&nbsp;" ++ post)
  = pre ++ str " " ++ post.
Proof. entity_stage. Qed.

Lemma stage_amp :
  replace_all false (lit "&amp;") [TLit (str "&")] (pre ++ str "&amp;" ++ post)
  = pre ++ str "&" ++ post.
Proof. entity_stage. Qed.

Lemma stage_lt :
  replace_all false (lit "&lt;") [TLit (str "<")] (pre ++ str "&lt;" ++ post)
  = pre ++ str "<" ++ post.
Proof. entity_stage. Qed.

Lemma stage_gt :
  replace_all false (lit "&gt;") [TLit (str ">")] (pre ++ str "&gt;" ++ post)
  = pre ++ str ">" ++ post.
Proof. entity_stage. Qed.

Lemma stage_quot :
  replace_all false (lit "&quot;") [TLit [34%N]] (pre ++ str "&quot;" ++ post)
  = pre ++ [34%N] ++ post.
Proof. entity_stage. Qed.

End Entities.

(** *** The rules of [htmlToMarkdown], one element in text *)

Ltac start := unfold htmlToMarkdown; cbv zeta; normalise.

(** All stages before the one [L] describes copy the input, and so do all
    stages after it. *)
Ltac rule L := start; repeat stage_next; stage_apply L; repeat stage_next; reflexivity.

Section Rules.
Variables pre g t post : jsstring.
Hypothesis Hpre : markup_free pre = true.
Hypothesis Hg : tag_body g = true.
Hypothesis Ht : markup_free t = true.
Hypothesis Hpost : markup_free post = true.

Lemma md_h1 :
  htmlToMarkdown (pre ++ str "<h1" ++ g ++ str ">" ++ t ++ str "</h1>" ++ post)
  = pre ++ str "# " ++ t ++ nl ++ nl ++ post.
Proof. rule (stage_h1 pre g t post Hpre Hg Ht Hpost). Qed.

Lemma md_h2 :
  htmlToMarkdown (pre ++ str "<h2" ++ g ++ str ">" ++ t ++ str "</h2>" ++ post)
  = pre ++ str "## " ++ t ++ nl ++ nl ++ post.
Proof. rule (stage_h2 pre g t post Hpre Hg Ht Hpost). Qed.

Lemma md_h3 :
  htmlToMarkdown (pre ++ str "<h3" ++ g ++ str ">" ++ t ++ str "</h3>" ++ post)
  = pre ++ str "### " ++ t ++ nl ++ nl ++ post.
Proof. rule (stage_h3 pre g t post Hpre Hg Ht Hpost). Qed.

Lemma md_h4 :
  htmlToMarkdown (pre ++ str "<h4" ++ g ++ str ">" ++ t ++ str "</h4>" ++ post)
  = pre ++ str "#### " ++ t ++ nl ++ nl ++ post.
Proof. rule (stage_h4 pre g t post Hpre Hg Ht Hpost). Qed.

Lemma md_h5 :
  htmlToMarkdown (pre ++ str "<h5" ++ g ++ str ">" ++ t ++ str "</h5>" ++ post)
  = pre ++ str "##### " ++ t ++ nl ++ nl ++ post.
Proof. rule (stage_h5 pre g t post Hpre Hg Ht Hpost). Qed.

Lemma md_h6 :
  htmlToMarkdown (pre ++ str "<h6" ++ g ++ str ">" ++ t ++ str "</h6>" ++ post)
  = pre ++ str "###### " ++ t ++ nl ++ nl ++ post.
Proof. rule (stage_h6 pre g t post Hpre Hg Ht Hpost). Qed.

Lemma md_p :
  htmlToMarkdown (pre ++ str "<p" ++ g ++ str ">" ++ t ++ str "</p>" ++ post)
  = pre ++ t ++ nl ++ nl ++ post.
Proof. rule (stage_p pre g t post Hpre Hg Ht Hpost). Qed.

Lemma md_strong :
  htmlToMarkdown (pre ++ str "<strong" ++ g ++ str ">" ++ t ++ str "</strong>" ++ post)
  = pre ++ str "**" ++ t ++ str "**" ++ post.
Proof. rule (stage_strong pre g t post Hpre Hg Ht Hpost). Qed.

Lemma md_b :
  htmlToMarkdown (pre ++ str "<b" ++ g ++ str ">" ++ t ++ str "</b>" ++ post)
  = pre ++ str "**" ++ t ++ str "**" ++ post.
Proof. rule (stage_b pre g t post Hpre Hg Ht Hpost). Qed.

Lemma md_em :
  htmlToMarkdown (pre ++ str "<em" ++ g ++ str ">" ++ t ++ str "</em>" ++ post)
  = pre ++ str "*" ++ t ++ str "*" ++ post.
Proof. rule (stage_em pre g t post Hpre Hg Ht Hpost). Qed.

Lemma md_i :
  htmlToMarkdown (pre ++ str "<i" ++ g ++ str ">" ++ t ++ str "</i>" ++ post)
  = pre ++ str "*" ++ t ++ str "*" ++ post.
Proof. rule (stage_i pre g t post Hpre Hg Ht Hpost). Qed.

End Rules.

Section EntityRules.
Variables pre post : jsstring.
Hypothesis Hpre : markup_free pre = true.
Hypothesis Hpost : markup_free post = true.

Lemma md_nbsp :
  htmlToMarkdown (pre ++ str "&nbsp;" ++ post) = pre ++ str " " ++ post.
Proof. rule (stage_nbsp pre post Hpre Hpost). Qed.

Lemma md_lt :
  htmlToMarkdown (pre ++ str "&lt;" ++ post) = pre ++ str "<" ++ post.
Proof. rule (stage_lt pre post Hpre Hpost). Qed.

Lemma md_gt :
  htmlToMarkdown (pre ++ str "&gt;" ++ post) = pre ++ str ">" ++ post.
Proof. rule (stage_gt pre post Hpre Hpost). Qed.

Lemma md_quot :
  htmlToMarkdown (pre ++ str "&quot;" ++ post) = pre ++ [34%N] ++ post.
Proof. rule (stage_quot pre post Hpre Hpost). Qed.

(** [&amp;] is decoded before [&lt;], [&gt;] and [&quot;]: the ampersand
    it yields stays an ampersand when no semicolon follows. *)
Lemma md_amp :
  lacks 59 post = true ->
  htmlToMarkdown (pre ++ str "&amp;" ++ post) = pre ++ str "&" ++ post.
Proof. intros Hsemi. rule (stage_amp pre post Hpre Hpost). Qed.

End EntityRules.

Section MoreRules.
Variables pre g1 u g2 t g post : jsstring.
Hypothesis Hpre : markup_free pre = true.
Hypothesis Hg1 : tag_body g1 = true.
Hypothesis Hu : attr_safe u = true.
Hypothesis Hg2 : tag_body g2 = true.
Hypothesis Hq2 : lacks 34 g2 = true.
Hypothesis Ht : attr_safe t = true.
Hypothesis Hg : tag_body g = true.

Lemma md_a :
  attr_safe post = true ->
  htmlToMarkdown (pre ++ str "<a" ++ g1 ++ str "href=" ++ [34%N] ++ u ++ [34%N]
                      ++ g2 ++ str ">" ++ t ++ str "</a>" ++ post)
  = pre ++ str "[" ++ t ++ str "](" ++ u ++ str ")" ++ post.
Proof. intros Hpost. rule (stage_a pre g1 u g2 t post Hpre Hg1 Hu Hg2 Hq2 Ht Hpost). Qed.

Lemma md_br :
  markup_free post = true ->
  htmlToMarkdown (pre ++ str "<br" ++ g ++ str ">" ++ post) = pre ++ nl ++ post.
Proof. intros Hpost. rule (stage_br pre g post Hpre Hg Hpost). Qed.

Lemma md_tag :
  markup_free post = true ->
  is_prefix (str "BR") (upper g) = false ->
  htmlToMarkdown (pre ++ str "<" ++ g ++ str ">" ++ post) = pre ++ post.
Proof.
  intros Hpost Hbr. start. repeat stage_next.
  (* the line-break stage *)
  match goal with
  | |- context [replace_all true ?r [TLit [10%N]] ?S] =>
      replace (replace_all true r [TLit [10%N]] S) with S
  end.
  - stage_apply (stage_tag pre g post Hpre Hg Hpost). repeat stage_next. reflexivity.
  - symmetry.
    rewrite (replace_all_copy _ _ _ 60%N) by (first [reflexivity | side_text]).
    rewrite replace_all_skip by (apply no_br; assumption).
    stage_id.
Qed.

End MoreRules.

(** The sample of the specification. *)
Lemma md_hello_world :
  htmlToMarkdown (str "<p>Hello <strong>world</strong></p>")
  = str "Hello **world**" ++ nl ++ nl.
Proof. vm_compute. reflexivity. Qed.

(** *** The tag-stripping stage on any input *)

Lemma star_greedy_suffix {A} (ic : bool) (a : atom) (s : jsstring)
    (k : jsstring -> option A) (res : A) :
  star_greedy ic a s k = Some res ->
  exists p s', s = p ++ s' /\ k s' = Some res.
Proof.
  induction s as [|x s IH]; cbn [star_greedy].
  - intros H. exists [], []. auto.
  - destruct (atom_matches ic a x).
    + destruct (star_greedy ic a s k) as [r|] eqn:E.
      * intros [= ->]. destruct (IH eq_refl) as (p & s' & -> & Hk).
        exists (x :: p), s'. auto.
      * intros H. exists [], (x :: s). auto.
    + intros H. exists [], (x :: s). auto.
Qed.

Lemma star_lazy_suffix {A} (ic : bool) (a : atom) (s : jsstring)
    (k : jsstring -> option A) (res : A) :
  star_lazy ic a s k = Some res ->
  exists p s', s = p ++ s' /\ k s' = Some res.
Proof.
  induction s as [|x s IH]; cbn [star_lazy].
  - destruct (k []) eqn:E; [|discriminate]. intros [= ->]. exists [], []. auto.
  - destruct (k (x :: s)) eqn:E.
    + intros [= ->]. exists [], (x :: s). auto.
    + destruct (atom_matches ic a x); [|discriminate].
      intros H. destruct (IH H) as (p & s' & -> & Hk). exists (x :: p), s'. auto.
Qed.

(** The continuation of a successful match ran on a suffix of the input. *)
Lemma rmatch_suffix {A} (ic : bool) (r : regex) :
  forall (s : jsstring) (c : captures) (k : jsstring -> captures -> option A) (res : A),
    rmatch ic r s c k = Some res ->
    exists p s' c', s = p ++ s' /\ k s' c' = Some res.
Proof.
  induction r as [|a|a|a|r1 IH1 r2 IH2|r1 IH1 r2 IH2|i r1 IH1];
    intros s c k res; cbn [rmatch].
  - intros H. exists [], s, c. auto.
  - destruct s as [|x s]; [discriminate|].
    destruct (atom_matches ic a x); [|discriminate].
    intros H. exists [x], s, c. auto.
  - intros H. apply star_greedy_suffix in H as (p & s' & -> & Hk). exists p, s', c. auto.
  - intros H. apply star_lazy_suffix in H as (p & s' & -> & Hk). exists p, s', c. auto.
  - intros H. apply IH1 in H as (p1 & s1 & c1 & -> & H).
    apply IH2 in H as (p2 & s2 & c2 & -> & H).
    exists (p1 ++ p2), s2, c2. rewrite <- app_assoc. auto.
  - destruct (rmatch ic r1 s c k) eqn:E.
    + intros [= ->]. exact (IH1 _ _ _ _ E).
    + apply IH2.
  - intros H. apply IH1 in H as (p & s' & c' & -> & H). eauto.
Qed.

(** A match of an expression that starts with a pattern character is not
    empty. *)
Lemma rmatch_nonempty {A} (ic : bool) (r : regex) (c0 : N) :
  first_char r = Some c0 ->
  forall (s : jsstring) (c : captures) (k : jsstring -> captures -> option A) (res : A),
    rmatch ic r s c k = Some res ->
    exists x p s' c', s = x :: p ++ s' /\ k s' c' = Some res.
Proof.
  induction r as [|a|a|a|r1 IH1 r2 IH2|r1 IH1 r2 IH2|i r1 IH1];
    intros Hf s c k res; try discriminate; cbn [rmatch]; cbn [first_char] in Hf.
  - destruct s as [|x s]; [discriminate|].
    destruct (atom_matches ic a x); [|discriminate].
    intros H. exists x, [], s, c. auto.
  - intros H. apply (IH1 Hf) in H as (x & p1 & s1 & c1 & -> & H).
    apply rmatch_suffix in H as (p2 & s2 & c2 & -> & H).
    exists x, (p1 ++ p2), s2, c2. rewrite <- app_assoc. auto.
  - intros H. apply (IH1 Hf) in H as (x & p & s' & c' & -> & H). eauto 6.
Qed.

Lemma exec_rest (ic : bool) (r : regex) (c0 : N) (s rest : jsstring) (c : captures) :
  first_char r = Some c0 ->
  exec ic r s = Some (c, rest) ->
  exists x p, s = x :: p ++ rest.
Proof.
  intros Hf H. unfold exec in H.
  apply (rmatch_nonempty ic r c0 Hf) in H as (x & p & s' & c' & -> & [= _ ->]).
  eauto.
Qed.

(** A replacement by the empty string only deletes. *)
Lemma replace_from_deletes (ic : bool) (r : regex) (x : N) :
  forall (s : jsstring) (n : nat), In x (replace_from ic r [] n s) -> In x s.
Proof.
  induction s as [|y s IH]; intros n.
  - destruct n; cbn [replace_from]; [|tauto].
    destruct (exec ic r []) as [[c rest]|]; cbn; tauto.
  - destruct n as [|n]; cbn [replace_from].
    + destruct (exec ic r (y :: s)) as [[c rest]|].
      * cbn [substitute app].
        destruct (length (y :: s) - length rest)%nat.
        -- intros [->|H]; [left; reflexivity | right; exact (IH _ H)].
        -- intros H. right. exact (IH _ H).
      * intros [->|H]; [left; reflexivity | right; exact (IH _ H)].
    + intros H. right. exact (IH _ H).
Qed.

(** The tag expression matches at a [<] that a [>] follows. *)
Lemma exec_tag_some (s : jsstring) :
  existsb (N.eqb 62) s = true -> exec false re_tag (60%N :: s) <> None.
Proof.
  let v := eval vm_compute in re_tag in change re_tag with v.
  unfold exec. simpl. induction s as [|x s IH]; [discriminate|].
  cbn [existsb]. intros H. cbn [star_greedy atom_matches].
  destruct (N.eqb_spec x 62) as [->|Hx].
  - simpl. discriminate.
  - cbn [negb]. assert ((62 =? x)%N = false) as E
      by (apply N.eqb_neq; congruence).
    rewrite E in H. cbn [orb] in H. specialize (IH H).
    destruct (star_greedy false (NotChr 62) s _); [discriminate | congruence].
Qed.

(** After the tag-stripping stage no [<] is followed by a [>]. *)
Lemma strip_tag_free :
  forall (s : jsstring) (n : nat), tag_free (replace_from false re_tag [] n s) = true.
Proof.
  induction s as [|y s IH]; intros n.
  - destruct n; reflexivity.
  - destruct n as [|n]; cbn [replace_from]; [|apply IH].
    destruct (exec false re_tag (y :: s)) as [[c rest]|] eqn:E.
    + cbn [substitute app].
      destruct (exec_rest false re_tag 60 _ _ _ eq_refl E) as (x & p & Hs).
      assert (length (y :: s) - length rest = S (length p))%nat as ->
        by (rewrite Hs; cbn [length]; rewrite length_app; lia).
      apply IH.
    + cbn [tag_free]. rewrite (IH 0%nat), andb_true_r.
      destruct (N.eqb_spec y 60) as [->|Hy]; [|reflexivity].
      cbn [negb orb].
      destruct (existsb (N.eqb 62) (replace_from false re_tag [] 0 s)) eqn:Ex;
        [|reflexivity].
      exfalso. apply (exec_tag_some s); [|exact E].
      apply existsb_exists in Ex as (z & Hz & Hz62).
      apply existsb_exists. exists z. split; [|exact Hz62].
      exact (replace_from_deletes false re_tag z s 0 Hz).
Qed.

(** The generic stage alone turns an element into its bare text. *)
Lemma strip_element (g1 t g2 : jsstring) :
  tag_body g1 = true -> markup_free t = true -> tag_body g2 = true ->
  replace_all false re_tag []
    (str "<" ++ g1 ++ str ">" ++ t ++ str "<" ++ g2 ++ str ">")
  = t.
Proof.
  intros H1 Ht H2.
  replace (str "<" ++ g1 ++ str ">" ++ t ++ str "<" ++ g2 ++ str ">")
    with ((str "<" ++ g1 ++ str ">") ++ (t ++ str "<" ++ g2 ++ str ">" ++ []))
    by (rewrite <- !app_assoc, app_nil_r; reflexivity).
  rewrite (replace_all_match_app false re_tag [] _ _ []).
  - rewrite (stage_tag t g2 [] Ht H2 eq_refl). cbn [substitute app]. apply app_nil_r.
  - discriminate.
  - rewrite <- !app_assoc.
    let v := eval vm_compute in re_tag in change re_tag with v.
    eval_str. cbn [app]. unfold exec. simpl.
    apply star_greedy_run; [apply tag_body_run; exact H1 | reflexivity].
Qed.




(** ** The background context *)

Import Background.

Lemma cleanupProcessedMessages_lookup (t : Z) (pm : gmap jsstring Z)
    (k : jsstring) (ts : Z) :
  cleanupProcessedMessages t pm !! k = Some ts <->
  pm !! k = Some ts /\ t - MESSAGE_EXPIRY_TIME <= ts.
Proof.
  unfold cleanupProcessedMessages. rewrite map_lookup_filter_Some. simpl.
  split; intros [H1 H2]; split; auto.
  - destruct (Z.ltb_spec ts (t - MESSAGE_EXPIRY_TIME)); [discriminate | lia].
  - destruct (Z.ltb_spec ts (t - MESSAGE_EXPIRY_TIME)); [lia | reflexivity].
Qed.

(** A message whose identifier is on record is rejected: nothing changes
    and nothing is asked of the platform. *)
Lemma onMessage_processed (m : ExtMessage) (tab : option Z) (t : Z)
    (r1 r2 : bool) (st : state) (ts : Z) :
  processedMessages st !! generateMessageId m = Some ts ->
  onMessage m tab t r1 r2 st = (st, []).
Proof.
  intros H. unfold onMessage, isMessageProcessed. rewrite H. reflexivity.
Qed.

Lemma processed_after_lookup (m : ExtMessage) (t : Z) (r1 r2 : bool)
    (pm : gmap jsstring Z) (k : jsstring) (ts : Z) :
  pm !! k = Some ts -> k <> generateMessageId m -> t - MESSAGE_EXPIRY_TIME <= ts ->
  processed_after m t r1 r2 pm !! k = Some ts.
Proof.
  intros Hk Hne Hts. unfold processed_after.
  assert (forall (b : bool) (q : gmap jsstring Z),
             q !! k = Some ts ->
             (if b then cleanupProcessedMessages t q else q) !! k = Some ts) as Hc.
  { intros [] q Hq; [|exact Hq]. apply cleanupProcessedMessages_lookup. auto. }
  apply Hc. rewrite lookup_insert_ne by congruence.
  apply Hc. rewrite lookup_insert_ne by congruence. exact Hk.
Qed.

Lemma processed_after_self (m : ExtMessage) (t : Z) (r1 r2 : bool)
    (pm : gmap jsstring Z) :
  processed_after m t r1 r2 pm !! generateMessageId m = Some t.
Proof.
  unfold processed_after.
  assert (forall (b : bool) (q : gmap jsstring Z),
             q !! generateMessageId m = Some t ->
             (if b then cleanupProcessedMessages t q else q) !! generateMessageId m = Some t)
    as Hc.
  { intros [] q Hq; [|exact Hq]. apply cleanupProcessedMessages_lookup.
    split; [exact Hq | unfold MESSAGE_EXPIRY_TIME; lia]. }
  apply Hc. apply lookup_insert_eq.
Qed.

(** Whatever the message, the listener changes the record of processed
    identifiers to [processed_after] or not at all. *)
Lemma onMessage_processedMessages (m : ExtMessage) (tab : option Z) (t : Z)
    (r1 r2 : bool) (st : state) :
  processedMessages (onMessage m tab t r1 r2 st).1 = processedMessages st
  \/ (processedMessages st !! generateMessageId m = None
      /\ processedMessages (onMessage m tab t r1 r2 st).1
         = processed_after m t r1 r2 (processedMessages st)).
Proof.
  unfold onMessage, isMessageProcessed.
  destruct (processedMessages st !! generateMessageId m) eqn:E; [left; reflexivity|].
  right. split; [reflexivity|].
  fold (processed_after m t r1 r2 (processedMessages st)).
  destruct (messageType m); try reflexivity.
  - destruct tab as [tabId|]; [|reflexivity]. destruct (tabId =? 0); reflexivity.
  - destruct (match metadata_type m with Some v => truthy v | None => false end).
    + destruct (messageDeduplication.isDuplicate m t _) as [d rm].
      destruct d; reflexivity.
    + reflexivity.
  - destruct tab as [tabId|]; [|reflexivity]. destruct (tabId =? 0); reflexivity.
Qed.

Lemma perform_bg (t : Z) (w : world) (c : command) : bg (perform t w c) = bg w.
Proof. destruct c; reflexivity. Qed.

Lemma issue_bg (t : Z) (cs : list command) (w : world) : bg (issue t w cs) = bg w.
Proof.
  unfold issue. revert w. induction cs as [|c cs IH]; intros w; [reflexivity|].
  cbn [foldl]. rewrite IH. apply perform_bg.
Qed.

Lemma fire_bg (t : Z) (w : world) : bg (fire t w) = bg w.
Proof.
  unfold fire.
  assert (forall (l : list (Z * ExtMessage)) (w0 : world),
             bg (foldl (fun w' x => issue t w' (sendToSidePanel x.2)) w0 l) = bg w0) as H.
  { induction l as [|x l IH]; intros w0; [reflexivity|].
    cbn [foldl]. rewrite IH. apply issue_bg. }
  rewrite H. reflexivity.
Qed.

Lemma serve_processedMessages (ok : bool) (w : world) :
  processedMessages (bg (serve ok w)) = processedMessages (bg w).
Proof.
  unfold serve. destruct (requests w) as [|[m|v] rest]; [reflexivity| |reflexivity].
  destruct ok; reflexivity.
Qed.

(** An identifier recorded at [t1] stays on record through every event
    that happens no later than [t1] plus the expiry time. *)
Lemma processed_kept (id : jsstring) (t1 : Z) (evs : list event) :
  forall w : world,
    processedMessages (bg w) !! id = Some t1 ->
    (forall ev t, In ev evs -> event_time ev = Some t -> t <= t1 + MESSAGE_EXPIRY_TIME) ->
    processedMessages (bg (run w evs)) !! id = Some t1.
Proof.
  induction evs as [|ev evs IH]; intros w Hid Hev; [exact Hid|].
  unfold run. cbn [foldl]. apply IH.
  - destruct ev as [m tab t r1 r2|ok|t]; cbn [step].
    + pose proof (onMessage_processedMessages m tab t r1 r2 (bg w)) as Hpm.
      destruct (onMessage m tab t r1 r2 (bg w)) as [st cs]. cbn [fst] in Hpm.
      rewrite issue_bg. cbn [bg].
      destruct Hpm as [->|[Hnone ->]]; [exact Hid|].
      apply processed_after_lookup; [exact Hid | congruence |].
      specialize (Hev (Deliver m tab t r1 r2) t (or_introl eq_refl) eq_refl). lia.
    + rewrite serve_processedMessages. exact Hid.
    + rewrite fire_bg. exact Hid.
  - intros ev' t Hin. apply Hev. right. exact Hin.
Qed.

(** A captured selection that is new to both filters is handed to
    [storeCapture] twice, once directly and once by
    [ensurePanelOpenAndSendMessage]. *)
Lemma onMessage_captured (m : ExtMessage) (tab : option Z) (t : Z)
    (r1 r2 : bool) (st : state) :
  messageType m = capturedSelection ->
  processedMessages st !! generateMessageId m = None ->
  (forall ts, recentMessages st !! messageDeduplication.getMessageHash m = Some ts ->
              messageDeduplication.deduplicationWindow <= t - ts) ->
  exists st',
    onMessage m tab t r1 r2 st
    = (st', StorageGet m :: StorageGet m ::
            (if isSidePanelOpen st then sendToSidePanel m else []))
    /\ processedMessages st' = processed_after m t r1 r2 (processedMessages st)
    /\ isSidePanelOpen st' = isSidePanelOpen st
    /\ recentCaptures st' = recentCaptures st.
Proof.
  intros Hkind Hnew Hfresh. unfold onMessage, isMessageProcessed.
  rewrite Hnew, Hkind.
  fold (processed_after m t r1 r2 (processedMessages st)).
  assert ((messageDeduplication.isDuplicate m t (recentMessages st)).1 = false) as Hdup.
  { destruct ((messageDeduplication.isDuplicate m t (recentMessages st)).1) eqn:E;
      [|reflexivity].
    apply dedup_check_true_iff in E as (ts & H1 & H2).
    specialize (Hfresh ts H1). lia. }
  destruct (match metadata_type m with Some v => truthy v | None => false end).
  - cbn [set_processed recentMessages].
    destruct (messageDeduplication.isDuplicate m t (recentMessages st)) as [d rm].
    cbn [fst] in Hdup. subst d. eexists. split; [reflexivity|]. auto.
  - eexists. split; [reflexivity|]. auto.
Qed.

Lemma deliver_captured (w : world) (m : ExtMessage) (tab : option Z) (t : Z)
    (r1 r2 : bool) :
  messageType m = capturedSelection ->
  processedMessages (bg w) !! generateMessageId m = None ->
  (forall ts, recentMessages (bg w) !! messageDeduplication.getMessageHash m = Some ts ->
              messageDeduplication.deduplicationWindow <= t - ts) ->
  let w1 := step w (Deliver m tab t r1 r2) in
  requests w1 = requests w ++ [Get m; Get m]
  /\ stored w1 = stored w
  /\ timers w1 = timers w
  /\ processedMessages (bg w1) !! generateMessageId m = Some t
  /\ recentCaptures (bg w1) = recentCaptures (bg w).
Proof.
  intros Hkind Hnew Hfresh w1. subst w1. cbn [step].
  destruct (onMessage_captured m tab t r1 r2 (bg w) Hkind Hnew Hfresh)
    as (st' & -> & Hpm & Hopen & Hrc).
  assert (processedMessages st' !! generateMessageId m = Some t) as Hid
    by (rewrite Hpm; apply processed_after_self).
  destruct (isSidePanelOpen (bg w)); cbn; rewrite <- app_assoc; auto.
Qed.

(** A delivery that is rejected leaves the whole world as it is. *)
Lemma deliver_processed (w : world) (m : ExtMessage) (tab : option Z) (t : Z)
    (r1 r2 : bool) (ts : Z) :
  processedMessages (bg w) !! generateMessageId m = Some ts ->
  step w (Deliver m tab t r1 r2) = w.
Proof.
  intros H. cbn [step]. rewrite (onMessage_processed m tab t r1 r2 (bg w) ts H).
  destruct w; reflexivity.
Qed.

(** The store after the two reads and the two writes of one accepted
    capture are served in the order of issue. *)
Lemma serve_captured (w1 : world) (m : ExtMessage) :
  requests w1 = [Get m; Get m] ->
  let w2 := run w1 [Serve true; Serve true; Serve true; Serve true] in
  stored w2 = Some (trimmedCaptures m (existingCaptures w1))
  /\ requests w2 = []
  /\ bg w2 = bg w1.
Proof.
  intros Hreq. destruct w1 as [b s rq tm sn]. cbn in Hreq. subst rq.
  cbn. auto.
Qed.

(** What one append writes. *)
Lemma append_record_stored (w : world) (m : ExtMessage) :
  requests w = [] ->
  stored (append_record w m) = Some (trimmedCaptures m (existingCaptures w))
  /\ requests (append_record w m) = []
  /\ bg (append_record w m) = bg w.
Proof.
  intros Hreq. destruct w as [b s rq tm sn]. cbn in Hreq. subst rq.
  cbn. auto.
Qed.

Lemma trimmedCaptures_length (m : ExtMessage) (l : list ExtMessage) :
  (length (trimmedCaptures m l) <= MAX_RECENT_CAPTURES)%nat.
Proof. unfold trimmedCaptures. rewrite length_take. lia. Qed.

Lemma trimmedCaptures_cons (m : ExtMessage) (l : list ExtMessage) :
  trimmedCaptures m l = m :: take 99 l.
Proof. reflexivity. Qed.

Lemma take_removelast {A} (l : list A) (n : nat) :
  length l = S n -> take n l = removelast l.
Proof.
  revert n. induction l as [|x l IH]; intros n Hl; [discriminate|].
  destruct l as [|y l].
  - cbn in Hl. injection Hl as <-. reflexivity.
  - destruct n as [|n]; [discriminate|].
    cbn [take]. rewrite (IH n) by (cbn in Hl |- *; lia). reflexivity.
Qed.

(** Appends that follow one another leave the records in reverse order of
    arrival, cut to the maximum. *)
Lemma append_all_stored (ms : list ExtMessage) :
  forall w : world,
    requests w = [] -> ms <> [] ->
    stored (foldl append_record w ms)
    = Some (take MAX_RECENT_CAPTURES (rev ms ++ existingCaptures w))
    /\ requests (foldl append_record w ms) = [].
Proof.
  induction ms as [|m ms IH]; intros w Hreq Hne; [congruence|].
  cbn [foldl].
  destruct (append_record_stored w m Hreq) as (Hst & Hrq & _).
  destruct ms as [|m' ms'].
  - cbn [foldl rev app]. split; [exact Hst | exact Hrq].
  - destruct (IH (append_record w m) Hrq ltac:(discriminate)) as [H1 H2].
    split; [|exact H2]. rewrite H1. f_equal.
    unfold existingCaptures at 1. rewrite Hst.
    change (rev (m :: m' :: ms')) with (rev (m' :: ms') ++ [m]).
    rewrite <- app_assoc. cbn [app].
    unfold trimmedCaptures.
    generalize (rev (m' :: ms')) as l. intros l.
    rewrite !take_app.
    f_equal.
    destruct (MAX_RECENT_CAPTURES - length l)%nat as [|k] eqn:E; [reflexivity|].
    rewrite take_take.
    replace (S k `min` MAX_RECENT_CAPTURES)%nat with (S k)
      by (unfold MAX_RECENT_CAPTURES in *; lia).
    reflexivity.
Qed.

(** C5.  From any store state with no request pending and for any record,
    an append reads the list, puts the record in front, keeps the first 100
    and writes that back: the written list has at most 100 records, starts
    with the new one and continues with the old ones in their order; on a
    store of 100 records the last, oldest, one is dropped.  After any
    number of appends the store holds the records in reverse order of
    arrival, newest first, cut to 100.  The in-memory fallback is bounded in
    the same way. *)
Theorem storeCapture_prepends_and_trims
    (w : world) (m : ExtMessage) (ms : list ExtMessage)
    (Hidle : requests w = []) :
  stored (append_record w m) = Some (take 100 (m :: existingCaptures w))
  /\ (length (take 100 (m :: existingCaptures w)) <= 100)%nat
  /\ take 100 (m :: existingCaptures w) = m :: take 99 (existingCaptures w)
  /\ (length (existingCaptures w) = 100%nat ->
      stored (append_record w m) = Some (m :: removelast (existingCaptures w)))
  /\ (ms <> [] ->
      stored (foldl append_record w ms)
      = Some (take 100 (rev ms ++ existingCaptures w))
      /\ (length (take 100 (rev ms ++ existingCaptures w)) <= 100)%nat)
  /\ ((length (recentCaptures (bg w)) <= 100)%nat ->
      let w' := serve false (issue 0 w (storeCapture m)) in
      stored w' = stored w
      /\ (exists l, recentCaptures (bg w') = m :: l)
      /\ (length (recentCaptures (bg w')) <= 100)%nat).
Proof.
  destruct (append_record_stored w m Hidle) as (Hst & _ & _).
  split; [exact Hst|]. split; [rewrite length_take; lia|].
  split; [reflexivity|]. split; [|split].
  - intros Hlen. rewrite Hst. unfold trimmedCaptures, MAX_RECENT_CAPTURES.
    cbn [take]. rewrite (take_removelast (existingCaptures w) 99 Hlen). reflexivity.
  - intros Hne. destruct (append_all_stored ms w Hidle Hne) as [H _].
    split; [exact H | rewrite length_take; lia].
  - intros Hlen w'. subst w'. destruct w as [b s rq tm sn]. cbn in Hidle. subst rq.
    cbn in Hlen |- *. split; [reflexivity|].
    unfold remember, MAX_RECENT_CAPTURES. cbn [length].
    destruct (Nat.ltb_spec 100 (S (length (recentCaptures b)))) as [Hgt|Hle].
    + assert (length (recentCaptures b) = 100%nat) as E by lia.
      destruct (recentCaptures b) as [|x l] eqn:El; [discriminate|].
      split; [exists (removelast (x :: l)); reflexivity|].
      change (length (removelast (m :: x :: l)) <= 100)%nat.
      rewrite <- (take_removelast (m :: x :: l) 100) by (cbn [length] in *; lia).
      rewrite length_take. lia.
    + split; [eauto | cbn [length]; lia].
Qed.

(** The first append to the empty store. *)
Lemma storeCapture_prepends_and_trims_witness :
  requests boot = []
  /\ stored (append_record boot sample_message) = Some [sample_message].
Proof.
  split; [reflexivity|].
  exact (proj1 (storeCapture_prepends_and_trims boot sample_message [] eq_refl)).
Defined.

(** C2.  A capture-reported message that is new to the background is
    processed: its identifier is recorded and two reads of the store are
    issued for it.  When the same message is delivered again less than 5 s
    later the listener returns at once: the world is unchanged, whether the
    store has settled or not; and once the requests are served, in the
    order of issue, the store holds the message in front of the old
    records, exactly once when the message was not stored before.  On its
    own, a message with the identifier of one processed at [t1] is rejected
    as long as every event up to then happened no later than 10 s after
    [t1]. *)
Theorem duplicate_delivery_rejected
    (w : world) (m : ExtMessage) (tab tab' : option Z) (t1 t2 : Z)
    (r1 r2 r3 r4 : bool)
    (Hkind : messageType m = capturedSelection)
    (Hidle : requests w = [])
    (Hnew : processedMessages (bg w) !! generateMessageId m = None)
    (Hfresh : forall ts,
        recentMessages (bg w) !! messageDeduplication.getMessageHash m = Some ts ->
        5000 <= t1 - ts)
    (Ht : t1 <= t2 < t1 + 5000) :
  let w1 := step w (Deliver m tab t1 r1 r2) in
  let w2 := run w1 [Serve true; Serve true; Serve true; Serve true] in
  requests w1 = [Get m; Get m]
  /\ step w1 (Deliver m tab' t2 r3 r4) = w1
  /\ step w2 (Deliver m tab' t2 r3 r4) = w2
  /\ stored w2 = Some (take 100 (m :: existingCaptures w))
  /\ requests w2 = []
  /\ (~ In m (existingCaptures w) ->
      forall i : nat, take 100 (m :: existingCaptures w) !! i = Some m <-> i = 0%nat)
  /\ (forall (evs : list event) (m' : ExtMessage) (tab'' : option Z) (t : Z)
             (ra rb : bool),
         (forall ev t', In ev evs -> event_time ev = Some t' -> t' <= t1 + 10000) ->
         generateMessageId m' = generateMessageId m ->
         step (run w1 evs) (Deliver m' tab'' t ra rb) = run w1 evs).
Proof.
  intros w1 w2.
  destruct (deliver_captured w m tab t1 r1 r2 Hkind Hnew Hfresh)
    as (Hreq & Hst & _ & Hid & _).
  fold w1 in Hreq, Hst, Hid. rewrite Hidle in Hreq. cbn [app] in Hreq.
  destruct (serve_captured w1 m Hreq) as (Hst2 & Hreq2 & Hbg2). fold w2 in Hst2, Hreq2, Hbg2.
  split; [exact Hreq|]. split; [|split; [|split; [|split; [|split]]]].
  - exact (deliver_processed w1 m tab' t2 r3 r4 t1 Hid).
  - apply (deliver_processed w2 m tab' t2 r3 r4 t1). rewrite Hbg2. exact Hid.
  - rewrite Hst2. unfold existingCaptures. rewrite Hst. reflexivity.
  - exact Hreq2.
  - intros Hnot i. split.
    + intros Hi. destruct i as [|i]; [reflexivity|]. exfalso. apply Hnot.
      cbn [take lookup list_lookup] in Hi.
      apply list_elem_of_In. apply list_elem_of_lookup. exists i.
      apply lookup_take_Some in Hi. tauto.
    + intros ->. reflexivity.
  - intros evs m' tab'' t ra rb Hev Hsame.
    apply (deliver_processed _ m' tab'' t ra rb t1).
    rewrite Hsame. apply processed_kept; [exact Hid | exact Hev].
Qed.

(** The sample message delivered twice, 2 s apart, to a fresh background. *)
Lemma duplicate_delivery_rejected_witness :
  let w1 := step boot (Deliver sample_message (Some 7) 1000 false false) in
  let w2 := run w1 [Serve true; Serve true; Serve true; Serve true] in
  step w1 (Deliver sample_message (Some 7) 3000 false false) = w1
  /\ step w2 (Deliver sample_message (Some 7) 3000 false false) = w2
  /\ stored w2 = Some [sample_message].
Proof.
  intros w1 w2.
  assert (Hfresh : forall ts : Z,
             recentMessages (bg boot) !! messageDeduplication.getMessageHash sample_message
             = Some ts -> 5000 <= 1000 - ts).
  { intros ts H. cbn in H. rewrite lookup_empty in H. discriminate H. }
  destruct (duplicate_delivery_rejected boot sample_message (Some 7) (Some 7)
              1000 3000 false false false false
              eq_refl eq_refl eq_refl Hfresh ltac:(lia))
    as (_ & H1 & H2 & H3 & _).
  split; [exact H1|]. split; [exact H2|]. exact H3.
Defined.

(** ** The capture functions of the page *)

Lemma bind_ret {A B} (m : M A) (k : A -> M B) (st st' : pstate) (a : A) :
  m st = (Ret a, st') -> bind m k st = k a st'.
Proof. intros H. unfold bind. rewrite H. reflexivity. Qed.

Lemma bind_throw {A B} (m : M A) (k : A -> M B) (st st' : pstate) (e : jsstring) :
  m st = (Throw e, st') -> bind m k st = (Throw e, st').
Proof. intros H. unfold bind. rewrite H. reflexivity. Qed.

Lemma dom_cases {A} (p : page) (op : dom_op) (v : A) (st : pstate) :
  dom p op v st = (Ret v, st) \/ exists e, dom p op v st = (Throw e, st).
Proof. unfold dom. destruct (throws p op) as [e|]; [right; exists e|left]; reflexivity. Qed.

(** Without a selection the guard answers nothing, unless the page raises
    first. *)
Lemma read_selection_none (p : page) (st : pstate) :
  no_selection (selection p) = true ->
  read_selection p st = (Ret None, st)
  \/ exists e, read_selection p st = (Throw e, st).
Proof.
  intros Hno. unfold read_selection, bind, dom, ret, throw.
  destruct (throws p opGetSelection) as [e|]; [right; eauto|].
  destruct (selection p) as [sel|]; [|left; reflexivity].
  unfold no_selection in Hno.
  destruct (rangeCount sel =? 0)%nat; [left; reflexivity|].
  destruct (throws p opToString) as [e|]; [right; eauto|].
  cbn [orb] in Hno. destruct (decide (trim (sel_toString sel) = [])); [|discriminate].
  left. reflexivity.
Qed.

(** The handler of [captureContent] answers null. *)
Lemma captureContent_handler (flag : bool) (e : jsstring) (st : pstate) :
  exists st',
    (when flag (emit (Shown (CaptureFailedToast e))) ;; ret (Now None)) st
    = (Ret (Now None), st').
Proof. destruct flag; eexists; reflexivity. Qed.

Lemma finish_capture_returns (p : page) (type : CaptureType) (flag : bool)
    (c : option CapturedContent) (st : pstate) :
  exists st', finish_capture p type flag c st = (Ret (Now c), st').
Proof. destruct c, flag; eexists; reflexivity. Qed.

(** [captureContent] returns; for the types other than the screenshot it
    returns the capture or null. *)
Lemma captureContent_returns (p : page) (sp : screen_platform)
    (type : CaptureType) (flag : bool) (st : pstate) :
  exists r st', captureContent p sp type flag st = (Ret r, st').
Proof.
  unfold captureContent, try_catch.
  match goal with
  | |- context [match ?body st with _ => _ end] => destruct (body st) as [[r|e] st1]
  end.
  - eauto.
  - destruct (captureContent_handler flag e st1) as [st' H].
    exists (Now None), st'. exact H.
Qed.

(** When the capture function of a selection-based type answers null or
    raises, [captureContent] answers null. *)
Lemma captureContent_null (p : page) (flag : bool)
    (st : pstate) (m : M (option CapturedContent)) (type : CaptureType) :
  (m st = (Ret None, st) \/ exists e st1, m st = (Throw e, st1)) ->
  (try_catch (do c <- m; finish_capture p type flag c)
             (fun e => when flag (emit (Shown (CaptureFailedToast e))) ;; ret (Now None))
             st).1
  = Ret (Now None).
Proof.
  intros H. unfold try_catch.
  destruct H as [H|(e & st1 & H)].
  - rewrite (bind_ret _ _ _ _ _ H).
    destruct (finish_capture_returns p type flag None st) as [st' E]. rewrite E. reflexivity.
  - rewrite (bind_throw _ _ _ _ _ H).
    destruct (captureContent_handler flag e st1) as [st' E]. rewrite E. reflexivity.
Qed.

Lemma captureTextSelection_none (p : page) (a b : bool) (st : pstate) :
  no_selection (selection p) = true ->
  captureTextSelection p a b st = (Ret None, st)
  \/ exists e st1, captureTextSelection p a b st = (Throw e, st1).
Proof.
  intros Hno. unfold captureTextSelection.
  destruct (read_selection_none p st Hno) as [H|[e H]].
  - left. rewrite (bind_ret _ _ _ _ _ H). reflexivity.
  - right. exists e, st. apply bind_throw. exact H.
Qed.

Lemma captureHtmlSelection_none (p : page) (a b : bool) (st : pstate) :
  no_selection (selection p) = true ->
  captureHtmlSelection p a b st = (Ret None, st)
  \/ exists e st1, captureHtmlSelection p a b st = (Throw e, st1).
Proof.
  intros Hno. unfold captureHtmlSelection.
  destruct (read_selection_none p st Hno) as [H|[e H]].
  - left. rewrite (bind_ret _ _ _ _ _ H). reflexivity.
  - right. exists e, st. apply bind_throw. exact H.
Qed.

Lemma captureMarkdownSelection_none (p : page) (b : bool) (st : pstate) :
  no_selection (selection p) = true ->
  captureMarkdownSelection p b st = (Ret None, st)
  \/ exists e st1, captureMarkdownSelection p b st = (Throw e, st1).
Proof.
  intros Hno. unfold captureMarkdownSelection.
  destruct (captureHtmlSelection_none p false true st Hno) as [H|(e & st1 & H)].
  - left. rewrite (bind_ret _ _ _ _ _ H). reflexivity.
  - right. exists e, st1. apply bind_throw. exact H.
Qed.

(** [captureFullPage] catches what the page raises. *)
Lemma captureFullPage_returns (p : page) (st : pstate) :
  exists c st', captureFullPage p st = (Ret c, st').
Proof.
  unfold captureFullPage, try_catch.
  match goal with
  | |- context [match ?body st with _ => _ end] => destruct (body st) as [[r|e] st1]
  end; eauto.
Qed.

(** [captureScreenshot] resolves or hangs; it never rejects and never
    raises. *)
Lemma resolve_unless_timed_out_returns {A} (cleared t : Z) (v : option A) (st : pstate) :
  exists t' v' st', resolve_unless_timed_out cleared t v st = (Ret (Settled t' v'), st').
Proof.
  unfold resolve_unless_timed_out. destruct (cleared <? SCREENSHOT_TIMEOUT); eauto.
Qed.

Lemma captureScreenshot_displayMedia_returns (p : page) (sp : screen_platform)
    (t1 : Z) (st : pstate) :
  exists run st',
    captureScreenshot_displayMedia p sp t1 st = (Ret run, st')
    /\ forall t e, run.1 <> Rejected t e.
Proof.
  unfold captureScreenshot_displayMedia.
  destruct (getDisplayMedia sp) as [d2 u|d2 e|].
  - destruct (loadedmetadata sp) as [d3|].
    + destruct (canvasContext sp); unfold bind at 1;
        match goal with
        | |- context [resolve_unless_timed_out ?c ?t ?v st] =>
            destruct (resolve_unless_timed_out_returns c t v st) as (t' & v' & st' & ->)
        end; eexists _, _; (split; [reflexivity | discriminate]).
    + destruct (t1 + d2 + 200 <? SCREENSHOT_TIMEOUT); eexists _, _;
        (split; [reflexivity | discriminate]).
  - unfold bind at 1.
    destruct (resolve_unless_timed_out_returns (A := CapturedContent)
                (t1 + d2) (t1 + d2) None st) as (t' & v' & st' & ->).
    eexists _, _. split; [reflexivity | discriminate].
  - eexists _, _. split; [reflexivity | discriminate].
Qed.

Lemma captureScreenshot_returns (p : page) (sp : screen_platform) (st : pstate) :
  exists run st',
    captureScreenshot p sp st = (Ret run, st') /\ forall t e, run.1 <> Rejected t e.
Proof.
  unfold captureScreenshot, bind at 1. cbn [emit].
  destruct (hasCaptureVisibleTab sp).
  - destruct (captureVisibleTab sp) as [d u|d e|].
    + unfold bind at 1.
      match goal with
      | |- context [resolve_unless_timed_out ?c ?t ?v ?s] =>
          destruct (resolve_unless_timed_out_returns c t v s) as (t' & v' & st' & ->)
      end. eexists _, _. split; [reflexivity | discriminate].
    + apply captureScreenshot_displayMedia_returns.
    + eexists _, _. split; [reflexivity | discriminate].
  - apply captureScreenshot_displayMedia_returns.
Qed.

(** The delayed notifications are shown one after the other; showing
    them never raises. *)
Lemma emit_all_returns (l : list effect) (st : pstate) :
  emit_all l st = (Ret tt, Build_pstate (tracked st) (trace st ++ l)).
Proof.
  revert st. induction l as [|e l IH]; intros [rc tr].
  - cbn. rewrite app_nil_r. reflexivity.
  - cbn [emit_all]. unfold bind, emit. cbn. rewrite IH. cbn.
    rewrite <- app_assoc. reflexivity.
Qed.

Lemma whitespace_no_selection (sel : Selection) :
  forallb is_space (sel_toString sel) = true -> no_selection (Some sel) = true.
Proof.
  intros H. unfold no_selection. rewrite (trim_spaces _ H).
  destruct (decide ([] = [])) as [_|Hne]; [apply orb_true_r | congruence].
Qed.

(** C10.  Whatever the type, the page and the state, [captureContent]
    returns: it never raises, and the promise it returns for a screenshot
    is never rejected.  For the selection-based types it answers null when
    there is no selection or the selection is empty or whitespace only, and
    it answers null when the capture function it calls raises; the
    full-page capture catches what the page raises by itself. *)
Theorem captureContent_never_throws
    (p : page) (sp : screen_platform) (type : CaptureType) (flag : bool)
    (st : pstate) :
  (exists r st',
      captureContent p sp type flag st = (Ret r, st')
      /\ forall t e, r <> Later (Rejected t e))
  /\ (no_selection (selection p) = true ->
      type = TEXT \/ type = HTML \/ type = MARKDOWN ->
      (captureContent p sp type flag st).1 = Ret (Now None))
  /\ (forall sel : Selection,
         selection p = Some sel -> forallb is_space (sel_toString sel) = true ->
         type = TEXT \/ type = HTML \/ type = MARKDOWN ->
         (captureContent p sp type flag st).1 = Ret (Now None))
  /\ (forall (e : jsstring) (st1 : pstate),
         (type = TEXT /\ captureTextSelection p false true st = (Throw e, st1))
         \/ (type = HTML /\ captureHtmlSelection p false true st = (Throw e, st1))
         \/ (type = MARKDOWN /\ captureMarkdownSelection p false st = (Throw e, st1)) ->
         (captureContent p sp type flag st).1 = Ret (Now None))
  /\ (exists c st', captureFullPage p st = (Ret c, st')).
Proof.
  assert (no_selection (selection p) = true ->
          type = TEXT \/ type = HTML \/ type = MARKDOWN ->
          (captureContent p sp type flag st).1 = Ret (Now None)) as Hnone.
  { intros Hno [-> | [-> | ->]]; unfold captureContent; apply captureContent_null.
    - apply captureTextSelection_none. exact Hno.
    - apply captureHtmlSelection_none. exact Hno.
    - apply captureMarkdownSelection_none. exact Hno. }
  split; [|split; [exact Hnone|split; [|split]]].
  - assert (forall (m : M (option CapturedContent)) (ty : CaptureType),
               exists c st',
                 try_catch (do c <- m; finish_capture p ty flag c)
                   (fun e => when flag (emit (Shown (CaptureFailedToast e))) ;; ret (Now None))
                   st
                 = (Ret (Now c), st')) as Hsync.
    { intros m ty. unfold try_catch.
      destruct (m st) as [[c|e] st1] eqn:E.
      - rewrite (bind_ret _ _ _ _ _ E).
        destruct (finish_capture_returns p ty flag c st1) as [st' E']. rewrite E'. eauto.
      - rewrite (bind_throw _ _ _ _ _ E).
        destruct (captureContent_handler flag e st1) as [st' E']. rewrite E'. eauto. }
    destruct type.
    { destruct (Hsync (captureTextSelection p false true) TEXT) as (c & st' & E).
      exists (Now c), st'. split; [exact E | discriminate]. }
    { destruct (Hsync (captureHtmlSelection p false true) HTML) as (c & st' & E).
      exists (Now c), st'. split; [exact E | discriminate]. }
    { destruct (Hsync (captureMarkdownSelection p false) MARKDOWN) as (c & st' & E).
      exists (Now c), st'. split; [exact E | discriminate]. }
    2: { destruct (Hsync (captureFullPage p) FULLPAGE) as (c & st' & E).
         exists (Now c), st'. split; [exact E | discriminate]. }
    destruct (captureScreenshot_returns p sp st) as ([pr later] & st' & Hs & Hrej).
    unfold captureContent, try_catch. rewrite (bind_ret _ _ _ _ _ Hs). cbn [fst snd].
    destruct pr as [t [shot|]|t e|].
    + unfold bind, track, sendCapturedContent, emit. cbn. rewrite emit_all_returns.
      eexists _, _. split; [reflexivity|]. discriminate.
    + unfold bind. rewrite emit_all_returns.
      eexists _, _. split; [reflexivity|]. discriminate.
    + exfalso. exact (Hrej t e eq_refl).
    + unfold bind. rewrite emit_all_returns.
      eexists _, _. split; [reflexivity|]. discriminate.
  - intros sel Hsel Hws. apply Hnone. rewrite Hsel.
    apply whitespace_no_selection. exact Hws.
  - intros e st1 [[-> H] | [[-> H] | [-> H]]]; unfold captureContent;
      apply captureContent_null; right; eauto.
  - apply captureFullPage_returns.
Qed.

(** A selection of blanks, and a selection that raises when read. *)
Lemma captureContent_never_throws_witness :
  (captureContent blank_page no_screen TEXT true empty_pstate).1 = Ret (Now None)
  /\ (captureContent broken_page no_screen HTML true empty_pstate).1 = Ret (Now None).
Proof.
  split.
  - destruct (captureContent_never_throws blank_page no_screen TEXT true empty_pstate)
      as (_ & _ & H & _).
    apply (H blank_selection); [reflexivity | reflexivity | left; reflexivity].
  - destruct (captureContent_never_throws broken_page no_screen HTML true empty_pstate)
      as (_ & _ & _ & H & _).
    apply (H (str "boom") empty_pstate). right. left. split; reflexivity.
Defined.

(** On the page whose selection raises when it is read. *)
Lemma captureContent_catches_example :
  let broken := broken_page in
  (captureTextSelection broken false true empty_pstate).1 = Throw (str "boom")
  /\ (captureContent broken no_screen TEXT true empty_pstate).1 = Ret (Now None)
  /\ trace (captureContent broken no_screen TEXT true empty_pstate).2
     = [Shown (CaptureFailedToast (str "boom"))].
Proof. repeat split. Qed.

(** ** Screenshot attempts *)

(** Whatever the page and the state, [captureContent] answers a screenshot
    request with a promise; it shows the "capturing" notification first, and
    how long the promise stays unsettled depends on the platform alone. *)
Lemma captureContent_screenshot (sp : screen_platform) :
  exists d : option Z,
    forall (p : page) (flag : bool) (st : pstate),
      exists (pr : promise (option CapturedContent)) (st' : pstate) (later : list effect),
        captureContent p sp SCREENSHOT flag st = (Ret (Later pr), st')
        /\ duration pr = d
        /\ trace st' = trace st ++ Shown (InfoToast (str "Capturing Screenshot")) :: later.
Proof.
  destruct sp as [has cvt gdm lm vw vh cc url].
  unfold captureContent, try_catch, captureScreenshot, captureScreenshot_displayMedia,
    resolve_unless_timed_out, bind, emit, ret, track, sendCapturedContent.
  cbn [hasCaptureVisibleTab captureVisibleTab getDisplayMedia loadedmetadata
       canvasContext canvasDataURL videoWidth videoHeight].
  destruct has; [destruct cvt as [d0 u0|d0 e0|]|];
    try destruct gdm as [d2 u2|d2 e2|];
    try destruct lm as [d3|];
    try destruct cc;
    repeat match goal with
           | |- context [if ?a <? ?b then _ else _] => destruct (a <? b)
           end;
    eexists; intros p flag st; eexists _, _, _;
    cbn -[str screenshot_content captureTracker.getContentHash];
    (split; [reflexivity|]); cbn [duration]; (split; [reflexivity|]);
    cbn [trace]; rewrite <- ?app_assoc; reflexivity.
Qed.

Lemma attempt_duration_spec (sp : screen_platform) (p q : page) (flag : bool)
    (st st' : pstate) (pr : promise (option CapturedContent)) :
  captureContent q sp SCREENSHOT flag st = (Ret (Later pr), st') ->
  duration pr = attempt_duration p sp.
Proof.
  intros E. destruct (captureContent_screenshot sp) as [d H].
  destruct (H q flag st) as (pr1 & st1 & l1 & E1 & Hd1 & _).
  destruct (H p true empty_pstate) as (pr2 & st2 & l2 & E2 & Hd2 & _).
  unfold attempt_duration. rewrite E2. cbn [fst].
  rewrite E in E1. injection E1 as -> _. congruence.
Qed.

(** Every trigger that asks for a screenshot starts an attempt. *)
Lemma serve_triggers_attempts (p : page) (sp : screen_platform)
    (arrivals : list (Z * trigger)) :
  forall st : pstate,
    Forall (fun r => capture_calls p r.2 = [(SCREENSHOT, true)]) arrivals ->
    Forall2 (fun r a => started_at a = r.1
                        /\ duration (its_promise a) = attempt_duration p sp)
            arrivals (serve_triggers p sp arrivals st).1.
Proof.
  induction arrivals as [|[t tr] rest IH]; intros st HF; [constructor|].
  apply Forall_cons_iff in HF as [Hcalls HF]. cbn [snd] in Hcalls.
  cbn [serve_triggers]. rewrite Hcalls. cbn [run_calls].
  destruct (captureContent_screenshot sp) as [d H].
  destruct (H (at_time p t) true st) as (pr & st1 & later & E & _ & _).
  rewrite E.
  specialize (IH st1 HF).
  destruct (serve_triggers p sp rest st1) as [more st2]. cbn [fst app] in *.
  constructor; [|exact IH].
  split; [reflexivity|]. exact (attempt_duration_spec sp p _ _ _ _ _ E).
Qed.

Lemma in_flight_count (d : option Z) (T : Z) (arrivals : list (Z * trigger))
    (attempts : list screenshot_attempt) :
  Forall2 (fun r a => started_at a = r.1 /\ duration (its_promise a) = d)
          arrivals attempts ->
  length (List.filter (in_flight_at T) attempts)
  = length (List.filter
              (fun r => (r.1 <=? T)
                        && match d with Some x => T <? r.1 + x | None => true end)
              arrivals).
Proof.
  induction 1 as [|r a rs l [Hs Hd] _ IH]; [reflexivity|].
  cbn [List.filter]. unfold in_flight_at at 1. rewrite Hs, Hd.
  destruct ((r.1 <=? T) && match d with Some x => T <? r.1 + x | None => true end);
    cbn [length]; rewrite IH; reflexivity.
Qed.

(** C6, as the code has it.  The cooldown, the in-progress flag and the
    15 s timer of [handleScreenshotCapture] guard nothing, for no code
    calls that function: the Ctrl+Shift+P shortcut and the capture request
    of the background call [captureContent] for a screenshot themselves.
    That call starts an attempt each time, whatever the time since the last
    one and whatever is still running, so the attempts in flight at a time
    are all the requests made before it that the platform has not yet
    answered.  The timer that [captureScreenshot] sets is cleared once the
    media stream has arrived: when the video never becomes ready after
    that, the promise never settles and no failure is reported.  And the
    handler's own flag is shared by all attempts: the timer of an attempt
    lowers it while that attempt's capture is still awaited, and the next
    request starts a second attempt beside it. *)
Theorem screenshot_attempts_overlap (sp : screen_platform) :
  (* the two ways to ask for a screenshot call captureContent(SCREENSHOT) *)
  (forall (p : page) (event : KeyboardEvent),
      ctrlKey event = true -> shiftKey event = true ->
      key event = str "p" \/ key event = str "P" ->
      capture_calls p (KeyDown event) = [(SCREENSHOT, true)])
  /\ (forall p : page,
         capture_calls p (Message (capture_request (str "screenshot")))
         = [(SCREENSHOT, true)])
  (* each request starts an attempt; none is dropped or rejected *)
  /\ (forall (p : page) (arrivals : list (Z * trigger)) (st : pstate),
         Forall (fun r => capture_calls p r.2 = [(SCREENSHOT, true)]) arrivals ->
         let d := attempt_duration p sp in
         let attempts := (serve_triggers p sp arrivals st).1 in
         Forall2 (fun r a => started_at a = r.1 /\ duration (its_promise a) = d)
                 arrivals attempts
         /\ forall T : Z,
              length (List.filter (in_flight_at T) attempts)
              = length (List.filter
                          (fun r => (r.1 <=? T)
                                    && match d with
                                       | Some x => T <? r.1 + x
                                       | None => true
                                       end)
                          arrivals))
  (* no timeout once the media stream has arrived *)
  /\ (forall (d2 : Z) (u : unit),
         hasCaptureVisibleTab sp = false -> getDisplayMedia sp = Fulfils d2 u ->
         d2 + 200 < 15000 -> loadedmetadata sp = None ->
         forall (p : page) (flag : bool) (st : pstate),
           (captureContent p sp SCREENSHOT flag st).1 = Ret (Later Unsettled)
           /\ trace (captureContent p sp SCREENSHOT flag st).2
              = trace st ++ [Shown (InfoToast (str "Capturing Screenshot"))])
  (* the flag of the handler, were it called *)
  /\ (forall (st : Screenshot.state) (id : nat) (due t t' : Z),
         In (id, due) (Screenshot.armed st) -> In id (Screenshot.awaiting st) ->
         due <= t -> 1000 <= t' - Screenshot.lastScreenshotTime st ->
         let st1 := (Screenshot.step st (Screenshot.TimerFires id t)).1 in
         let st2 := (Screenshot.step st1 (Screenshot.Request t')).1 in
         (Screenshot.step st (Screenshot.TimerFires id t)).2 = Screenshot.TimedOut id
         /\ (Screenshot.step st1 (Screenshot.Request t')).2
            = Screenshot.Started (S (Screenshot.screenshotCaptureCounter st))
         /\ Screenshot.awaiting st2
            = S (Screenshot.screenshotCaptureCounter st) :: Screenshot.awaiting st
         /\ In id (Screenshot.awaiting st2)).
Proof.
  split; [|split; [|split; [|split]]].
  - intros p event Hc Hs Hk. unfold capture_calls, handleKeyboardShortcut, shortcut.
    rewrite Hc, Hs. destruct Hk as [-> | ->]; reflexivity.
  - intros p. reflexivity.
  - intros p arrivals st HF d attempts. subst d attempts.
    pose proof (serve_triggers_attempts p sp arrivals st HF) as H2.
    split; [exact H2|]. intros T. apply in_flight_count. exact H2.
  - intros d2 u Hhas Hgdm Hd2 Hlm p flag st.
    unfold captureContent, try_catch, captureScreenshot, captureScreenshot_displayMedia,
      bind, emit, ret.
    rewrite Hhas, Hgdm, Hlm. unfold SCREENSHOT_TIMEOUT.
    destruct (Z.ltb_spec (0 + d2 + 200) 15000); [|lia].
    cbn. split; reflexivity.
  - intros st id due t t' Harmed Hawait Hdue Hcool st1 st2.
    assert (Ha : Screenshot.is_armed id t (Screenshot.armed st) = true).
    { unfold Screenshot.is_armed. apply existsb_exists. exists (id, due).
      split; [exact Harmed|]. cbn. rewrite Nat.eqb_refl.
      destruct (Z.leb_spec due t); [reflexivity | lia]. }
    subst st2 st1. cbn [Screenshot.step]. rewrite Ha. cbn [fst snd].
    split; [reflexivity|].
    cbn [Screenshot.step Screenshot.lastScreenshotTime Screenshot.activeScreenshotCapture].
    unfold Screenshot.SCREENSHOT_COOLDOWN.
    destruct (Z.ltb_spec (t' - Screenshot.lastScreenshotTime st) 1000); [lia|].
    cbn. split; [reflexivity|]. split; [reflexivity|]. right. exact Hawait.
Qed.

(** The shortcut pressed twice, 400 ms apart, on a platform that never
    answers: two attempts, both in flight at the second press and for the
    14.6 s that follow.  On a platform whose media stream arrives after 1 s
    and whose video never becomes ready, the attempt never settles.  And in
    the handler, an attempt whose timer has fired is still awaited when the
    next request starts another. *)
Lemma screenshot_attempts_overlap_witness :
  let press := KeyDown {| ctrlKey := true; shiftKey := true; key := str "P" |} in
  let arrivals := [(1000000, press); (1000400, press)] in
  let attempts := (serve_triggers sample_page no_screen arrivals empty_pstate).1 in
  List.map started_at attempts = [1000000; 1000400]
  /\ length (List.filter (in_flight_at 1000400) attempts) = 2%nat
  /\ length (List.filter (in_flight_at 1014999) attempts) = 2%nat
  /\ (captureContent sample_page stalled_screen SCREENSHOT true empty_pstate).1
     = Ret (Later Unsettled)
  /\ Screenshot.awaiting
       (Screenshot.run Screenshot.initial
          [Screenshot.Request 1000000; Screenshot.TimerFires 1 1015000;
           Screenshot.Request 1016000]).1
     = [2%nat; 1%nat].
Proof.
  intros press arrivals attempts.
  destruct (screenshot_attempts_overlap no_screen) as (Hkey & _ & Hall & _).
  assert (Hpress : capture_calls sample_page press = [(SCREENSHOT, true)])
    by (apply Hkey; [reflexivity | reflexivity | right; reflexivity]).
  destruct (Hall sample_page arrivals empty_pstate
              ltac:(repeat constructor; exact Hpress))
    as [_ Hcount].
  subst attempts.
  split; [vm_compute; reflexivity|].
  split; [rewrite (Hcount 1000400); vm_compute; reflexivity|].
  split; [rewrite (Hcount 1014999); vm_compute; reflexivity|].
  destruct (screenshot_attempts_overlap stalled_screen) as (_ & _ & _ & Hstall & Hflag).
  split.
  - exact (proj1 (Hstall 1000 tt eq_refl eq_refl ltac:(lia) eq_refl
                    sample_page true empty_pstate)).
  - pose (st := (Screenshot.step Screenshot.initial (Screenshot.Request 1000000)).1).
    destruct (Hflag st 1%nat 1015000 1015000 1016000
                ltac:(left; reflexivity) ltac:(left; reflexivity)
                ltac:(lia) ltac:(vm_compute; discriminate))
      as (_ & _ & H & _).
    exact H.
Defined.

(** What a successful HTML capture with [showToast = false] and the
    default [sendMessage = true] does: it hands the capture to
    [sendCapturedContent] and shows nothing. *)
Lemma captureHtmlSelection_sends (p : page) (st st1 : pstate) (hc : CapturedContent) :
  captureHtmlSelection p false true st = (Ret (Some hc), st1) ->
  cc_type hc = HTML
  /\ trace st1 = trace st ++ [Sent hc].
Proof.
  unfold captureHtmlSelection, read_selection, bind, dom, ret, throw, when,
    sendCapturedContent, emit.
  destruct (throws p opGetSelection); [discriminate|].
  destruct (selection p) as [sel|]; [|discriminate].
  destruct (rangeCount sel =? 0)%nat; [discriminate|].
  destruct (throws p opToString); [discriminate|].
  destruct (decide (trim (sel_toString sel) = [])); [discriminate|].
  destruct (throws p opCloneContents); [discriminate|].
  destruct (throws p opInnerHTML); [discriminate|].
  destruct (throws p opDocument); [discriminate|].
  intros [= <- <-]. cbn. auto.
Qed.

(** C7, as the code has it.  When the HTML extraction succeeds, the
    Markdown capture is [htmlToMarkdown] of the extracted markup and no
    notification is shown for the intermediate HTML capture; but that
    capture is handed to [sendCapturedContent]: the effects of
    [captureMarkdownSelection] begin with the send of an HTML capture.
    Without a selection the result is null and nothing is sent. *)
Theorem markdown_capture_sends_html
    (p : page) (showNotification : bool) (st st1 : pstate) (hc : CapturedContent)
    (Hhtml : captureHtmlSelection p false true st = (Ret (Some hc), st1)) :
  cc_type hc = HTML
  /\ exists (md : CapturedContent) (st2 : pstate),
      captureMarkdownSelection p showNotification st = (Ret (Some md), st2)
      /\ cc_type md = MARKDOWN
      /\ cc_content md = htmlToMarkdown (cc_content hc)
      /\ trace st2
         = trace st ++ Sent hc ::
           (if showNotification
            then [Sent md; Shown (CaptureToast (str "Markdown") (cc_content md))]
            else []).
Proof.
  destruct (captureHtmlSelection_sends p st st1 hc Hhtml) as (Hty & Htr).
  split; [exact Hty|].
  unfold captureMarkdownSelection. rewrite (bind_ret _ _ _ _ _ Hhtml).
  destruct showNotification.
  - eexists _, _. split; [reflexivity|]. do 2 (split; [reflexivity|]).
    cbn [trace]. rewrite Htr, <- !app_assoc. reflexivity.
  - eexists _, _. split; [reflexivity|]. do 2 (split; [reflexivity|]).
    cbn [trace]. rewrite Htr. reflexivity.
Qed.

(** On the sample page one Markdown capture through [captureContent]
    sends two messages, the first of type HTML. *)
Lemma markdown_capture_sample :
  List.map (fun e => match e with
                     | Sent c => Some (cc_type c)
                     | Shown _ => None
                     end)
           (trace (captureContent sample_page no_screen MARKDOWN true empty_pstate).2)
  = [Some HTML; Some MARKDOWN; None]
  /\ (captureMarkdownSelection
        {| selection := None;
           document_title := document_title sample_page;
           location_href := location_href sample_page;
           page_metadata := page_metadata sample_page;
           querySelector := querySelector sample_page;
           document_outerHTML := document_outerHTML sample_page;
           text_of_html := text_of_html sample_page;
           throws := throws sample_page;
           now := now sample_page;
           elapsed := elapsed sample_page;
           date_iso := date_iso sample_page;
           userAgent := userAgent sample_page |} true empty_pstate)
     = (Ret None, empty_pstate).
Proof. split; vm_compute; reflexivity. Qed.

Lemma markdown_capture_sends_html_witness :
  exists hc st1,
    captureHtmlSelection sample_page false true empty_pstate = (Ret (Some hc), st1)
    /\ cc_type hc = HTML
    /\ In (Sent hc) (trace (captureMarkdownSelection sample_page true empty_pstate).2).
Proof.
  destruct (captureHtmlSelection sample_page false true empty_pstate)
    as [[[hc|]|e] st1] eqn:E; try (vm_compute in E; discriminate).
  exists hc, st1. split; [reflexivity|].
  destruct (markdown_capture_sends_html sample_page true empty_pstate st1 hc E)
    as (Hty & md & st2 & Hmd & _ & _ & Htr).
  split; [exact Hty|]. rewrite Hmd. cbn [snd]. rewrite Htr.
  apply in_or_app. right. left. reflexivity.
Defined.

(** ** Sending with retries *)

(** The claim of C8 fails on a send that is retried: the message sent
    again is a capture-reported message, not a capture request. *)
Lemma retried_message_is_capturedSelection :
  sendCapturedContent_run sample_capture
    [SendFails 5 (str "Could not establish connection. Receiving end does not exist.");
     SendOk] 0
  = [Attempt 0 0 sample_message; Attempt 205 1 sample_message]
  /\ messageType sample_message = capturedSelection
  /\ ~ (forall (t : Z) (k : nat) (m : ExtMessage),
           In (Attempt t (S k) m)
              (sendCapturedContent_run sample_capture
                 [SendFails 5 (str "Could not establish connection. Receiving end does not exist.");
                  SendOk] 0) ->
           messageType m = requestCapture).
Proof.
  split; [reflexivity|]. split; [reflexivity|].
  intros H. specialize (H 205 0%nat sample_message (or_intror (or_introl eq_refl))).
  discriminate.
Qed.

(** C8, as the code has it.  A send that fails is tried again 200 ms times
    the number of the retry after the failure, up to 2 retries; after the
    third failure it is given up with a notification.  Every attempt sends
    the same capture-reported message. *)
Theorem sendCapturedContent_retry
    (c : CapturedContent) (results : list send_result) (t : Z) :
  let m := captured_message c in
  let evs := sendCapturedContent_run c results t in
  messageType m = capturedSelection
  /\ (forall (t' : Z) (k : nat) (m' : ExtMessage),
         In (Attempt t' k m') evs -> m' = m /\ (k <= 2)%nat)
  /\ (length evs <= 4)%nat
  /\ (forall rest, results = SendOk :: rest -> evs = [Attempt t 0 m])
  /\ (forall d0 e0 rest, results = SendFails d0 e0 :: SendOk :: rest ->
        evs = [Attempt t 0 m; Attempt (t + d0 + 200) 1 m])
  /\ (forall d0 e0 d1 e1 rest,
         results = SendFails d0 e0 :: SendFails d1 e1 :: SendOk :: rest ->
         evs = [Attempt t 0 m; Attempt (t + d0 + 200) 1 m;
                Attempt (t + d0 + 200 + d1 + 400) 2 m])
  /\ (forall d0 e0 d1 e1 d2 e2 rest,
         results = SendFails d0 e0 :: SendFails d1 e1 :: SendFails d2 e2 :: rest ->
         evs = [Attempt t 0 m; Attempt (t + d0 + 200) 1 m;
                Attempt (t + d0 + 200 + d1 + 400) 2 m;
                GaveUp (t + d0 + 200 + d1 + 400 + d2) e2]).
Proof.
  intros m evs. subst evs. unfold sendCapturedContent_run. fold m.
  split; [reflexivity|].
  split; [|split; [|split; [|split; [|split]]]].
  - intros t' k m' Hin.
    destruct results as [|[|d0 e0] [|[|d1 e1] [|[|d2 e2] rest]]]; cbn in Hin;
      repeat (destruct Hin as [Hin|Hin];
              [first [discriminate Hin
                     | inversion Hin; subst; split; [reflexivity | lia]]|]);
      destruct Hin.
  - destruct results as [|[|d0 e0] [|[|d1 e1] [|[|d2 e2] rest]]]; cbn; lia.
  - intros rest ->. reflexivity.
  - intros d0 e0 rest ->. reflexivity.
  - intros d0 e0 d1 e1 rest ->. cbn. repeat f_equal; lia.
  - intros d0 e0 d1 e1 d2 e2 rest ->. cbn. repeat f_equal; lia.
Qed.

(** Three failed sends in a row. *)
Lemma sendCapturedContent_retry_witness :
  sendCapturedContent_run sample_capture
    [SendFails 5 (str "no receiver"); SendFails 7 (str "no receiver");
     SendFails 9 (str "no receiver")] 0
  = [Attempt 0 0 sample_message; Attempt 205 1 sample_message;
     Attempt 612 2 sample_message; GaveUp 621 (str "no receiver")].
Proof.
  destruct (sendCapturedContent_retry sample_capture
              [SendFails 5 (str "no receiver"); SendFails 7 (str "no receiver");
               SendFails 9 (str "no receiver")] 0)
    as (_ & _ & _ & _ & _ & _ & H).
  exact (H 5 _ 7 _ 9 _ [] eq_refl).
Defined.

(** ** Replay on panel attach ([sendAllCapturesToSidePanel]) *)

(** The listener never writes the in-memory array. *)
Lemma onMessage_recentCaptures (m : ExtMessage) (tab : option Z) (t : Z)
    (r1 r2 : bool) (st : state) :
  recentCaptures (onMessage m tab t r1 r2 st).1 = recentCaptures st.
Proof.
  unfold onMessage, isMessageProcessed.
  destruct (processedMessages st !! generateMessageId m); [reflexivity|].
  destruct (messageType m); cbn; try reflexivity;
    repeat match goal with
           | |- context [match ?x with _ => _ end] => destruct x; cbn; try reflexivity
           end.
Qed.

(** With an empty in-memory array the listener sets no timer. *)
Lemma onMessage_sets_no_timer (m : ExtMessage) (tab : option Z) (t : Z)
    (r1 r2 : bool) (st : state) :
  recentCaptures st = [] ->
  forallb (fun c => negb (sets_timer c)) (onMessage m tab t r1 r2 st).2 = true.
Proof.
  intros Hmem. unfold onMessage, isMessageProcessed.
  destruct (processedMessages st !! generateMessageId m); [reflexivity|].
  destruct (messageType m); cbn; try reflexivity;
    try (unfold sendAllCapturesToSidePanel; cbn; rewrite Hmem; reflexivity);
    repeat match goal with
           | |- context [match ?x with _ => _ end] => destruct x; cbn; try reflexivity
           end.
Qed.

Lemma issue_timers (t : Z) (cs : list command) :
  forall w : world,
    forallb (fun c => negb (sets_timer c)) cs = true ->
    timers (issue t w cs) = timers w.
Proof.
  unfold issue. induction cs as [|c cs IH]; intros w H; [reflexivity|].
  cbn in H. apply andb_prop in H as [Hc Hcs]. cbn [foldl].
  rewrite (IH _ Hcs). destruct c; cbn in *; try reflexivity. discriminate.
Qed.

Lemma issue_stored (t : Z) (cs : list command) :
  forall w : world, stored (issue t w cs) = stored w.
Proof.
  unfold issue. induction cs as [|c cs IH]; intros w; [reflexivity|].
  cbn [foldl]. rewrite IH. destruct c; reflexivity.
Qed.

Lemma replay_invariant (ev : event) (w : world) :
  read_fails ev = false ->
  recentCaptures (bg w) = [] /\ timers w = [] ->
  recentCaptures (bg (step w ev)) = [] /\ timers (step w ev) = [].
Proof.
  intros Hev [Hmem Htim]. destruct ev as [m tab t r1 r2|ok|t]; cbn [step].
  - pose proof (onMessage_recentCaptures m tab t r1 r2 (bg w)) as Hrc.
    pose proof (onMessage_sets_no_timer m tab t r1 r2 (bg w) Hmem) as Hnt.
    destruct (onMessage m tab t r1 r2 (bg w)) as [st cs]. cbn [fst snd] in *.
    rewrite issue_bg, (issue_timers _ _ _ Hnt). cbn. split; congruence.
  - destruct ok; [|discriminate]. unfold serve.
    destruct (requests w) as [|[m|v] rest]; cbn; auto.
  - rewrite fire_bg. split; [exact Hmem|]. unfold fire. rewrite Htim. reflexivity.
Qed.

(** When the read of the store fails, the capture is kept in memory and
    replayed on attach, one send per 100 ms. *)
Lemma replay_of_memory_fallback :
  let evs := [Deliver sample_message (Some 7) 1000 false false;
              Serve false; Serve false] in
  let w := step (run boot evs) (Deliver panel_loaded None 60000 false false) in
  stored w = None
  /\ List.map fst (timers w) = [60000; 60100]
  /\ List.map (fun x => content x.2) (timers w)
     = [content sample_message; content sample_message].
Proof. vm_compute. auto. Qed.

(** ** White space and the hashes *)

Lemma star_greedy_spaces {A} (s : jsstring) (k : jsstring -> option A) :
  (forall s', is_Some (k s')) ->
  star_greedy false Space s k = k (trimStart s).
Proof.
  intros Hk. induction s as [|x s IH]; [reflexivity|].
  cbn [star_greedy trimStart atom_matches].
  destruct (is_space x); [|reflexivity].
  rewrite IH. destruct (Hk (trimStart s)) as [r ->]. reflexivity.
Qed.

Lemma exec_spaces (x : N) (s : jsstring) :
  exec false re_spaces (x :: s)
  = if is_space x then Some ([], trimStart s) else None.
Proof.
  unfold exec, re_spaces. cbn [rmatch atom_matches].
  destruct (is_space x); [|reflexivity].
  apply (star_greedy_spaces s (fun s' => Some ([], s'))). eauto.
Qed.

Lemma trimStart_split (s : jsstring) :
  exists a, s = a ++ trimStart s /\ forallb is_space a = true.
Proof.
  induction s as [|x s (a & Ha & Hsp)]; [exists []; auto|].
  cbn [trimStart]. destruct (is_space x) eqn:Hx.
  - exists (x :: a). cbn [app forallb]. rewrite Hx, Hsp. split; [congruence | reflexivity].
  - exists []. auto.
Qed.

Lemma filter_spaces (a s : jsstring) :
  forallb is_space a = true ->
  List.filter (fun c => negb (is_space c)) (a ++ s)
  = List.filter (fun c => negb (is_space c)) s.
Proof.
  induction a as [|x a IH]; [reflexivity|].
  cbn [forallb app List.filter]. intros H. apply andb_prop in H as [Hx Ha].
  rewrite Hx. cbn [negb]. apply IH, Ha.
Qed.

Lemma strip_spaces_filter (s : jsstring) :
  strip_spaces s = List.filter (fun c => negb (is_space c)) s.
Proof.
  unfold strip_spaces, replace_all.
  remember (length s) as n eqn:Hn. revert s Hn.
  induction n as [n IH] using lt_wf_ind. intros s Hn.
  destruct s as [|x s]; [reflexivity|].
  cbn [replace_from List.filter]. rewrite exec_spaces.
  destruct (is_space x) eqn:Hx; cbn [negb].
  - cbn [substitute app].
    destruct (trimStart_split s) as (a & Ha & Hsp).
    assert (Hlen : (length (x :: s) - length (trimStart s) = S (length a))%nat).
    { rewrite Ha at 1. cbn [length]. rewrite length_app. lia. }
    rewrite Hlen.
    rewrite Ha at 1. rewrite replace_from_skip.
    rewrite (IH (length (trimStart s))); [| |reflexivity].
    + rewrite Ha at 2. rewrite (filter_spaces a _ Hsp). reflexivity.
    + subst n. cbn [length]. rewrite Ha at 2. rewrite length_app. lia.
  - f_equal. apply (IH (length s)); [subst n; cbn [length]; lia | reflexivity].
Qed.

(** ** [escapeHtml] and [createContentPreview] *)

Lemma exec_char (c x : N) (s : jsstring) :
  exec false (One (Chr c)) (x :: s) = if (x =? c)%N then Some ([], s) else None.
Proof. unfold exec. cbn. destruct (x =? c)%N; reflexivity. Qed.

Lemma replace_all_char (c : N) (t : jsstring) (s : jsstring) :
  replace_all false (One (Chr c)) [TLit t] s
  = flat_map (fun x => if (x =? c)%N then t else [x]) s.
Proof.
  unfold replace_all. induction s as [|x s IH]; [reflexivity|].
  cbn [replace_from flat_map]. rewrite exec_char.
  destruct (x =? c)%N.
  - cbn [substitute]. rewrite app_nil_r.
    replace (length (x :: s) - length s)%nat with 1%nat by (cbn [length]; lia).
    rewrite IH. reflexivity.
  - rewrite IH. reflexivity.
Qed.

Lemma flat_map_flat_map {A B C} (f : A -> list B) (g : B -> list C) (l : list A) :
  flat_map g (flat_map f l) = flat_map (fun x => flat_map g (f x)) l.
Proof.
  induction l as [|x l IH]; [reflexivity|].
  cbn [flat_map]. rewrite flat_map_app, IH. reflexivity.
Qed.

Lemma escape_chain (x : N) :
  flat_map (fun x => if (x =? 39)%N then str "&#039;" else [x])
    (flat_map (fun x => if (x =? 34)%N then str "&quot;" else [x])
       (flat_map (fun x => if (x =? 62)%N then str "&gt;" else [x])
          (flat_map (fun x => if (x =? 60)%N then str "&lt;" else [x])
             (if (x =? 38)%N then str "&amp;" else [x]))))
  = escape_unit x.
Proof.
  unfold escape_unit.
  destruct (N.eqb_spec x 38) as [->|H38]; [vm_compute; reflexivity|].
  cbn [flat_map app].
  destruct (N.eqb_spec x 60) as [->|H60]; [vm_compute; reflexivity|].
  cbn [flat_map app].
  destruct (N.eqb_spec x 62) as [->|H62]; [vm_compute; reflexivity|].
  cbn [flat_map app].
  destruct (N.eqb_spec x 34) as [->|H34]; [vm_compute; reflexivity|].
  cbn [flat_map app].
  destruct (N.eqb_spec x 39) as [->|H39]; [vm_compute; reflexivity|].
  reflexivity.
Qed.

Lemma escapeHtml_flat_map (html : jsstring) :
  escapeHtml html = flat_map escape_unit (truncated html).
Proof.
  unfold escapeHtml. fold (truncated html).
  rewrite !replace_all_char.
  generalize (truncated html) as s. intros s.
  rewrite !flat_map_flat_map.
  induction s as [|x s IH]; [reflexivity|].
  cbn [flat_map]. rewrite IH. f_equal.
  rewrite <- (escape_chain x).
  rewrite !flat_map_flat_map. reflexivity.
Qed.

Lemma escape_unit_length (x : N) : (length (escape_unit x) <= 6)%nat.
Proof.
  unfold escape_unit.
  repeat match goal with
         | |- context [if ?b then _ else _] => destruct b; [vm_compute; lia|]
         end.
  cbn. lia.
Qed.

Lemma flat_map_length_le {A B} (f : A -> list B) (n : nat) (l : list A) :
  (forall x, length (f x) <= n)%nat ->
  (length (flat_map f l) <= n * length l)%nat.
Proof.
  intros H. induction l as [|x l IH]; cbn [flat_map length]; [lia|].
  rewrite length_app. specialize (H x). lia.
Qed.

Lemma truncated_length (html : jsstring) : (length (truncated html) <= 103)%nat.
Proof.
  unfold truncated, substring0.
  destruct (Nat.ltb_spec 100 (length html)).
  - rewrite length_app, length_take. change (length (str "...")) with 3%nat. lia.
  - lia.
Qed.

Lemma escape_unit_safe (y x : N) :
  In x (escape_unit y) -> x <> 60%N /\ x <> 62%N /\ x <> 34%N /\ x <> 39%N.
Proof.
  unfold escape_unit.
  destruct (N.eqb_spec y 38) as [->|H38].
  { vm_compute. intros H. repeat (destruct H as [<-|H]; [repeat split; discriminate|]). destruct H. }
  destruct (N.eqb_spec y 60) as [->|H60].
  { vm_compute. intros H. repeat (destruct H as [<-|H]; [repeat split; discriminate|]). destruct H. }
  destruct (N.eqb_spec y 62) as [->|H62].
  { vm_compute. intros H. repeat (destruct H as [<-|H]; [repeat split; discriminate|]). destruct H. }
  destruct (N.eqb_spec y 34) as [->|H34].
  { vm_compute. intros H. repeat (destruct H as [<-|H]; [repeat split; discriminate|]). destruct H. }
  destruct (N.eqb_spec y 39) as [->|H39].
  { vm_compute. intros H. repeat (destruct H as [<-|H]; [repeat split; discriminate|]). destruct H. }
  intros [<-|[]]. auto.
Qed.

Lemma flat_map_escape_id (s : jsstring) :
  forallb (fun x => negb (html_special x)) s = true -> flat_map escape_unit s = s.
Proof.
  induction s as [|x s IH]; [reflexivity|].
  cbn [forallb flat_map]. intros H. apply andb_prop in H as [Hx Hs].
  rewrite (IH Hs). unfold html_special in Hx. unfold escape_unit.
  destruct (x =? 38)%N; [discriminate|]. destruct (x =? 60)%N; [discriminate|].
  destruct (x =? 62)%N; [discriminate|]. destruct (x =? 34)%N; [discriminate|].
  destruct (x =? 39)%N; [discriminate|]. reflexivity.
Qed.

(** X4.  [escapeHtml] works on the input cut to 100 code units (with
    [...] appended when it was longer) and is one pass over it: each of
    [&], [<], [>], the double and the single quote becomes its entity, and
    the [&] of an entity is not escaped again.  The result holds none of
    [<], [>] and the two quotes; an input of at most 100 code units
    without the five characters is returned as it is; the result is at
    most 618 code units long. *)
Theorem escapeHtml_escapes (html : jsstring) :
  escapeHtml html = flat_map escape_unit (truncated html)
  /\ (forall x : N, In x (escapeHtml html) ->
        x <> 60%N /\ x <> 62%N /\ x <> 34%N /\ x <> 39%N)
  /\ ((length html <= 100)%nat ->
      forallb (fun x => negb (html_special x)) html = true ->
      escapeHtml html = html)
  /\ (length (escapeHtml html) <= 618)%nat.
Proof.
  split; [apply escapeHtml_flat_map|]. rewrite escapeHtml_flat_map.
  split; [|split].
  - intros x Hx. apply in_flat_map in Hx as (y & _ & Hy).
    exact (escape_unit_safe y x Hy).
  - intros Hlen Hsafe. unfold truncated.
    destruct (Nat.ltb_spec 100 (length html)); [lia|].
    apply flat_map_escape_id. exact Hsafe.
  - pose proof (flat_map_length_le escape_unit 6 (truncated html) escape_unit_length).
    pose proof (truncated_length html). lia.
Qed.

Lemma trimStart_length (s : jsstring) : (length (trimStart s) <= length s)%nat.
Proof.
  induction s as [|x s IH]; [reflexivity|].
  cbn [trimStart]. destruct (is_space x); cbn [length]; lia.
Qed.

Lemma trim_length (s : jsstring) : (length (trim s) <= length s)%nat.
Proof.
  unfold trim. rewrite length_rev.
  pose proof (trimStart_length (rev (trimStart s))) as H1.
  rewrite length_rev in H1. pose proof (trimStart_length s). lia.
Qed.

Lemma ellipsis_length (n : nat) (s t : jsstring) :
  (length (substring0 n s ++ (if (n <? length t)%nat then str "..." else [])) <= n + 3)%nat.
Proof.
  unfold substring0. rewrite length_app, length_take.
  destruct (n <? length t)%nat; [change (length (str "...")) with 3%nat|cbn [length]]; lia.
Qed.

(** X5.  The preview is never longer than 498 code units, and not longer
    than 123 unless the type is HTML or FULLPAGE and the parser raises.
    For the other types a content of at most 120 code units is its own
    preview and a longer one is cut to 120 with [...] appended.  For parsed
    markup the preview is the trimmed text cut to 120, and [...] is
    appended when the untrimmed text is longer than 120.  When the parser
    raises, the preview holds none of [<], [>] and the two quotes. *)
Theorem createContentPreview_bounds
    (parse : jsstring -> outcome jsstring) (content : jsstring) (type : CaptureType) :
  let preview := createContentPreview parse content type in
  (length preview <= 498)%nat
  /\ ((type <> HTML /\ type <> FULLPAGE) \/ (exists text, parse content = Ret text) ->
      (length preview <= 123)%nat)
  /\ (type <> HTML -> type <> FULLPAGE ->
      ((length content <= 120)%nat -> preview = content)
      /\ ((120 < length content)%nat -> preview = take 120 content ++ str "..."))
  /\ (forall text : jsstring,
         type = HTML \/ type = FULLPAGE -> parse content = Ret text ->
         preview = take 120 (trim text)
                   ++ (if (120 <? length text)%nat then str "..." else []))
  /\ (forall e : jsstring,
         type = HTML \/ type = FULLPAGE -> parse content = Throw e ->
         forall x : N, In x preview -> x <> 60%N /\ x <> 62%N /\ x <> 34%N /\ x <> 39%N).
Proof.
  intros preview. subst preview.
  assert (Hplain : (length (substring0 120 content
                            ++ (if (120 <? length content)%nat then str "..." else []))
                    <= 123)%nat) by apply ellipsis_length.
  assert (Hparsed : forall text,
             (length (substring0 120 (trim text)
                      ++ (if (120 <? length text)%nat then str "..." else [])) <= 123)%nat)
    by (intros; apply ellipsis_length).
  assert (Hescaped : (length (escapeHtml (substring0 80 content
                               ++ (if (80 <? length content)%nat then str "..." else [])))
                      <= 498)%nat).
  { rewrite escapeHtml_flat_map.
    pose proof (ellipsis_length 80 content content) as H80.
    set (s := substring0 80 content ++ _) in *.
    unfold truncated. destruct (Nat.ltb_spec 100 (length s)); [lia|].
    pose proof (flat_map_length_le escape_unit 6 s escape_unit_length). lia. }
  split; [|split; [|split; [|split]]].
  - unfold createContentPreview. destruct type; try lia.
    + destruct (parse content); [specialize (Hparsed a); lia | lia].
    + destruct (parse content); [specialize (Hparsed a); lia | lia].
  - intros [[H1 H2] | [text Htext]]; unfold createContentPreview.
    + destruct type; try congruence; exact Hplain.
    + destruct type; try exact Hplain; rewrite Htext; apply Hparsed.
  - intros H1 H2. unfold createContentPreview, substring0.
    split; intros Hlen.
    + destruct (Nat.ltb_spec 120 (length content)); [lia|].
      rewrite app_nil_r, take_ge by lia. destruct type; congruence.
    + destruct (Nat.ltb_spec 120 (length content)); [|lia]. destruct type; congruence.
  - intros text [-> | ->] Htext; unfold createContentPreview; rewrite Htext; reflexivity.
  - intros e [-> | ->] He x; unfold createContentPreview; rewrite He;
      rewrite escapeHtml_flat_map; intros Hx;
      apply in_flat_map in Hx as (y & _ & Hy); exact (escape_unit_safe y x Hy).
Qed.

(** ** [htmlToMarkdown] on text without markup *)

Lemma plain_text_mismatch (ic : bool) (c0 : N) (s : jsstring) :
  c0 = 60%N \/ c0 = 38%N ->
  plain_text s = true ->
  forallb (fun x => negb (atom_matches ic (Chr c0) x)) s = true.
Proof.
  intros Hc Hs. unfold plain_text in Hs. rewrite forallb_forall in *.
  intros x Hx. specialize (Hs x Hx). apply andb_prop in Hs as [H60 H38].
  apply negb_true_iff in H60, H38. apply negb_true_iff.
  destruct Hc as [-> | ->]; apply chr_small_mismatch; (lia || assumption).
Qed.

Lemma replace_all_plain (ic : bool) (r : regex) (tpl : template) (s : jsstring) :
  first_char r = Some 60%N \/ first_char r = Some 38%N ->
  plain_text s = true ->
  replace_all ic r tpl s = s.
Proof.
  intros Hr Hs.
  assert (exists c0, first_char r = Some c0 /\ (c0 = 60%N \/ c0 = 38%N)) as (c0 & Hc0 & Hc).
  { destruct Hr as [H | H]; eauto. }
  rewrite <- (app_nil_r s) at 1.
  rewrite (replace_all_copy ic r tpl c0 s [] Hc0 (plain_text_mismatch ic c0 s Hc Hs)).
  rewrite (replace_all_nil ic r tpl c0 Hc0). apply app_nil_r.
Qed.

(** X6.  [htmlToMarkdown] returns a string without [<] and without [&]
    as it is, line terminators included. *)
Theorem htmlToMarkdown_plain_text (s : jsstring) (Hplain : plain_text s = true) :
  htmlToMarkdown s = s.
Proof.
  unfold htmlToMarkdown. cbv zeta.
  repeat (rewrite (replace_all_plain _ _ _ s);
          [| (left; reflexivity) || (right; reflexivity) | exact Hplain]).
  reflexivity.
Qed.

Lemma htmlToMarkdown_plain_text_witness :
  htmlToMarkdown (str "first line" ++ [10%N] ++ str "  second > line")
  = str "first line" ++ [10%N] ++ str "  second > line".
Proof. apply htmlToMarkdown_plain_text. reflexivity. Defined.

(** ** The capture tracker is written, never read *)

Lemma steady_ret {A} (a : A) : steady (ret a).
Proof.
  exists (Ret a), (fun g => g), []. split; [auto|].
  intros [rc tr]. unfold ret, tracked. cbn. rewrite app_nil_r. reflexivity.
Qed.

Lemma steady_throw {A} (e : jsstring) : steady (@throw A e).
Proof.
  exists (Throw e), (fun g => g), []. split; [auto|].
  intros [rc tr]. unfold throw, tracked. cbn. rewrite app_nil_r. reflexivity.
Qed.

Lemma steady_emit (e : effect) : steady (emit e).
Proof.
  exists (Ret tt), (fun g => g), [e]. split; [auto|].
  intros [rc tr]. reflexivity.
Qed.

Lemma steady_track (h : jsstring) (t : Z) : steady (track h t).
Proof.
  exists (Ret tt), (fun g => <[h := t]> g), []. split.
  - intros g k Hk. destruct (decide (h = k)) as [->|Hne].
    + rewrite lookup_insert_eq. eauto.
    + rewrite lookup_insert_ne by exact Hne. exact Hk.
  - intros [rc tr]. unfold track, tracked. cbn. rewrite app_nil_r. reflexivity.
Qed.

Lemma steady_bind {A B} (m : M A) (k : A -> M B) :
  steady m -> (forall a, steady (k a)) -> steady (bind m k).
Proof.
  intros (r & f & evs & Hf & Hm) Hk. destruct r as [a|e].
  - destruct (Hk a) as (r' & f' & evs' & Hf' & Hka).
    exists r', (fun g => f' (f g)), (evs ++ evs'). split.
    + intros g x Hx. apply Hf', Hf, Hx.
    + intros st. unfold bind. rewrite Hm, Hka. unfold tracked. cbn.
      rewrite app_assoc. reflexivity.
  - exists (Throw e), f, evs. split; [exact Hf|].
    intros st. unfold bind. rewrite Hm. reflexivity.
Qed.

Lemma steady_try_catch {A} (m : M A) (h : jsstring -> M A) :
  steady m -> (forall e, steady (h e)) -> steady (try_catch m h).
Proof.
  intros (r & f & evs & Hf & Hm) Hh. destruct r as [a|e].
  - exists (Ret a), f, evs. split; [exact Hf|].
    intros st. unfold try_catch. rewrite Hm. reflexivity.
  - destruct (Hh e) as (r' & f' & evs' & Hf' & Hhe).
    exists r', (fun g => f' (f g)), (evs ++ evs'). split.
    + intros g x Hx. apply Hf', Hf, Hx.
    + intros st. unfold try_catch. rewrite Hm, Hhe. unfold tracked. cbn.
      rewrite app_assoc. reflexivity.
Qed.

Lemma steady_dom {A} (p : page) (op : dom_op) (v : A) : steady (dom p op v).
Proof. unfold dom. destruct (throws p op); [apply steady_throw | apply steady_ret]. Qed.

Lemma steady_when (b : bool) (m : M unit) : steady m -> steady (when b m).
Proof. intros H. destruct b; [exact H | apply steady_ret]. Qed.

Ltac steady_step :=
  first
    [ apply steady_ret | apply steady_throw | apply steady_emit | apply steady_track
    | apply steady_dom
    | apply steady_when
    | apply steady_bind; [|intros ?]
    | apply steady_try_catch; [|intros ?]
    | match goal with
      | |- steady (match ?x with _ => _ end) => destruct x
      | |- steady (if ?x then _ else _) => destruct x
      end ].

Lemma steady_read_selection (p : page) : steady (read_selection p).
Proof. unfold read_selection. repeat steady_step. Qed.

Lemma steady_captureTextSelection (p : page) (a b : bool) :
  steady (captureTextSelection p a b).
Proof.
  unfold captureTextSelection, sendCapturedContent.
  apply steady_bind; [apply steady_read_selection|]. intros ?. repeat steady_step.
Qed.

Lemma steady_captureHtmlSelection (p : page) (a b : bool) :
  steady (captureHtmlSelection p a b).
Proof.
  unfold captureHtmlSelection, sendCapturedContent.
  apply steady_bind; [apply steady_read_selection|]. intros ?. repeat steady_step.
Qed.

Lemma steady_captureMarkdownSelection (p : page) (a : bool) :
  steady (captureMarkdownSelection p a).
Proof.
  unfold captureMarkdownSelection, sendCapturedContent.
  apply steady_bind; [apply steady_captureHtmlSelection|]. intros ?. repeat steady_step.
Qed.

Lemma steady_captureFullPage (p : page) : steady (captureFullPage p).
Proof. unfold captureFullPage. repeat steady_step. Qed.

Lemma steady_resolve {A} (c t : Z) (v : option A) : steady (resolve_unless_timed_out c t v).
Proof. unfold resolve_unless_timed_out. repeat steady_step. Qed.

Lemma steady_displayMedia (p : page) (sp : screen_platform) (t : Z) :
  steady (captureScreenshot_displayMedia p sp t).
Proof.
  unfold captureScreenshot_displayMedia.
  repeat first [apply steady_resolve | steady_step].
Qed.

Lemma steady_captureScreenshot (p : page) (sp : screen_platform) :
  steady (captureScreenshot p sp).
Proof.
  unfold captureScreenshot.
  repeat first [apply steady_resolve | apply steady_displayMedia | steady_step].
Qed.

Lemma steady_emit_all (l : list effect) : steady (emit_all l).
Proof.
  exists (Ret tt), (fun g => g), l. split; [auto|].
  intros st. apply emit_all_returns.
Qed.

Lemma steady_finish (p : page) (ty : CaptureType) (b : bool) (c : option CapturedContent) :
  steady (finish_capture p ty b c).
Proof. unfold finish_capture, sendCapturedContent. repeat steady_step. Qed.

Lemma steady_captureContent (p : page) (sp : screen_platform) (ty : CaptureType) (b : bool) :
  steady (captureContent p sp ty b).
Proof.
  unfold captureContent, sendCapturedContent.
  apply steady_try_catch; [|intros ?; repeat steady_step].
  destruct ty;
    repeat first [ apply steady_finish | apply steady_captureTextSelection
                 | apply steady_captureHtmlSelection | apply steady_captureMarkdownSelection
                 | apply steady_captureFullPage | apply steady_captureScreenshot
                 | apply steady_emit_all | steady_step ].
Qed.

(** X2.  For every page, platform, type and flag, the outcome of
    [captureContent] and the effects it emits are the same from every
    state: the capture tracker is written and never read, so a capture
    that is repeated is sent again; and no entry of the tracker is ever
    removed. *)
Theorem captureContent_ignores_tracker
    (p : page) (sp : screen_platform) (type : CaptureType) (flag : bool) :
  exists (r : outcome capture_result) (evs : list effect),
    forall st : pstate,
      (captureContent p sp type flag st).1 = r
      /\ trace (captureContent p sp type flag st).2 = trace st ++ evs
      /\ forall k : jsstring,
           is_Some (tracked st !! k) ->
           is_Some (tracked (captureContent p sp type flag st).2 !! k).
Proof.
  destruct (steady_captureContent p sp type flag) as (r & f & evs & Hf & H).
  exists r, evs. intros st. rewrite H. cbn. split; [reflexivity|].
  split; [reflexivity|]. intros k Hk. apply Hf, Hk.
Qed.

Lemma captureTextSelection_sends (p : page) (st st1 : pstate) (c : CapturedContent) :
  captureTextSelection p false true st = (Ret (Some c), st1) ->
  cc_type c = TEXT
  /\ trace st1 = trace st ++ [Sent c]
  /\ tracked st1 = tracked st.
Proof.
  unfold captureTextSelection, read_selection, bind, dom, ret, throw, when,
    sendCapturedContent, emit.
  destruct (throws p opGetSelection); [discriminate|].
  destruct (selection p) as [sel|]; [|discriminate].
  destruct (rangeCount sel =? 0)%nat; [discriminate|].
  destruct (throws p opToString); [discriminate|].
  destruct (decide (trim (sel_toString sel) = [])); [discriminate|].
  destruct (throws p opDocument); [discriminate|].
  intros [= <- <-]. cbn. auto.
Qed.

Lemma captureHtmlSelection_sends_tracked (p : page) (st st1 : pstate) (c : CapturedContent) :
  captureHtmlSelection p false true st = (Ret (Some c), st1) ->
  cc_type c = HTML
  /\ trace st1 = trace st ++ [Sent c]
  /\ tracked st1 = tracked st.
Proof.
  unfold captureHtmlSelection, read_selection, bind, dom, ret, throw, when,
    sendCapturedContent, emit.
  destruct (throws p opGetSelection); [discriminate|].
  destruct (selection p) as [sel|]; [|discriminate].
  destruct (rangeCount sel =? 0)%nat; [discriminate|].
  destruct (throws p opToString); [discriminate|].
  destruct (decide (trim (sel_toString sel) = [])); [discriminate|].
  destruct (throws p opCloneContents); [discriminate|].
  destruct (throws p opInnerHTML); [discriminate|].
  destruct (throws p opDocument); [discriminate|].
  intros [= <- <-]. cbn. auto.
Qed.

Lemma finish_capture_some (p : page) (ty : CaptureType) (flag : bool)
    (c : CapturedContent) (st : pstate) :
  exists st2,
    finish_capture p ty flag (Some c) st = (Ret (Now (Some c)), st2)
    /\ trace st2 = trace st ++ Sent c :: (if flag then [Shown (CapturedToast c)] else [])
    /\ tracked st2 = <[captureTracker.getContentHash c := now p]> (tracked st).
Proof.
  destruct st as [rc tr]. destruct flag; eexists; (split; [reflexivity|]); cbn.
  - rewrite <- app_assoc. auto.
  - auto.
Qed.

(** X1.  When [captureContent] is asked for TEXT or HTML and the
    selection capture it calls succeeds, the same capture is handed to
    [sendCapturedContent] twice: once inside the selection capture, whose
    [sendMessage] parameter keeps its default, and once by [captureContent]
    itself; the notification, if asked for, follows, and the capture's
    hash is recorded in the tracker at the time of the call. *)
Theorem captureContent_sends_twice
    (p : page) (sp : screen_platform) (type : CaptureType) (flag : bool)
    (st st1 : pstate) (c : CapturedContent)
    (Hcapture :
       (type = TEXT /\ captureTextSelection p false true st = (Ret (Some c), st1))
       \/ (type = HTML /\ captureHtmlSelection p false true st = (Ret (Some c), st1))) :
  exists st2 : pstate,
    captureContent p sp type flag st = (Ret (Now (Some c)), st2)
    /\ trace st2
       = trace st ++ Sent c :: Sent c ::
         (if flag then [Shown (CapturedToast c)] else [])
    /\ tracked st2 = <[captureTracker.getContentHash c := now p]> (tracked st).
Proof.
  destruct Hcapture as [[-> H] | [-> H]].
  - destruct (captureTextSelection_sends p st st1 c H) as (_ & Htr & Hrc).
    destruct (finish_capture_some p TEXT flag c st1) as (st2 & Hf & Htr2 & Hrc2).
    exists st2. unfold captureContent, try_catch. rewrite (bind_ret _ _ _ _ _ H), Hf.
    split; [reflexivity|]. rewrite Htr2, Htr, Hrc2, Hrc, <- app_assoc. auto.
  - destruct (captureHtmlSelection_sends_tracked p st st1 c H) as (_ & Htr & Hrc).
    destruct (finish_capture_some p HTML flag c st1) as (st2 & Hf & Htr2 & Hrc2).
    exists st2. unfold captureContent, try_catch. rewrite (bind_ret _ _ _ _ _ H), Hf.
    split; [reflexivity|]. rewrite Htr2, Htr, Hrc2, Hrc, <- app_assoc. auto.
Qed.

Lemma captureContent_sends_twice_witness :
  exists c st2,
    captureContent sample_page no_screen TEXT true empty_pstate = (Ret (Now (Some c)), st2)
    /\ cc_content c = str "Hello world"
    /\ trace st2 = [Sent c; Sent c; Shown (CapturedToast c)].
Proof.
  destruct (captureTextSelection sample_page false true empty_pstate)
    as [[[c|]|e] st1] eqn:E; try (vm_compute in E; discriminate).
  destruct (captureContent_sends_twice sample_page no_screen TEXT true empty_pstate st1 c
              (or_introl (conj eq_refl E)))
    as (st2 & H & Htr & _).
  exists c, st2. split; [exact H|]. split; [|exact Htr].
  vm_compute in E. injection E as <- _. reflexivity.
Defined.

(** ** The content of a full-page capture *)

Lemma find_content_node_first (p : page) (sels : list jsstring) :
  match find_content_node p sels with
  | Some (selector, outer) =>
      exists pre post inner,
        sels = pre ++ selector :: post
        /\ forallb (fun s => negb (substantial p s)) pre = true
        /\ querySelector p selector = Some (inner, outer)
        /\ (500 < length inner)%nat
  | None => forallb (fun s => negb (substantial p s)) sels = true
  end.
Proof.
  induction sels as [|s sels IH]; [reflexivity|].
  cbn [find_content_node].
  destruct (querySelector p s) as [[inner outer]|] eqn:Hq.
  - destruct (Nat.ltb_spec 500 (length inner)) as [Hlen|Hlen].
    + exists [], sels, inner. repeat split; [exact Hq | exact Hlen].
    + assert (Hs : negb (substantial p s) = true).
      { unfold substantial. rewrite Hq.
        destruct (Nat.ltb_spec 500 (length inner)); [lia | reflexivity]. }
      destruct (find_content_node p sels) as [[sel outer']|].
      * destruct IH as (pre & post & inner' & -> & Hpre & Hq' & Hlen').
        exists (s :: pre), post, inner'. cbn [forallb app]. rewrite Hs, Hpre. auto.
      * cbn [forallb]. rewrite Hs, IH. reflexivity.
  - assert (Hs : negb (substantial p s) = true).
    { unfold substantial. rewrite Hq. reflexivity. }
    destruct (find_content_node p sels) as [[sel outer']|].
    + destruct IH as (pre & post & inner' & -> & Hpre & Hq' & Hlen').
      exists (s :: pre), post, inner'. cbn [forallb app]. rewrite Hs, Hpre. auto.
    + cbn [forallb]. rewrite Hs, IH. reflexivity.
Qed.

Lemma meta_get_app (k : jsstring) (a b : PageMetadata) :
  meta_get k (a ++ b)
  = match meta_get k b with
    | Some v => Some v
    | None => meta_get k a
    end.
Proof.
  induction a as [|[k' v] a IH]; cbn [app meta_get].
  - destruct (meta_get k b); reflexivity.
  - rewrite IH. destruct (meta_get k b); reflexivity.
Qed.

(** X3.  On a page whose DOM raises nowhere, [captureFullPage] returns a
    FULLPAGE capture and leaves the state as it is.  Its content is the
    outer HTML of the element of the first selector, in the order of the
    source, whose element has more than 500 code units of inner HTML, and
    the metadata names that selector; when no selector has such an
    element, the content is the outer HTML of the whole document and the
    metadata says that no main content node was found. *)
Theorem captureFullPage_main_content (p : page) (st : pstate)
    (Hdom : forall op : dom_op, throws p op = None) :
  exists c : CapturedContent,
    captureFullPage p st = (Ret (Some c), st)
    /\ cc_type c = FULLPAGE
    /\ ((exists (pre : list jsstring) (selector : jsstring) (post : list jsstring)
                (inner : jsstring),
            fullPageSelectors = pre ++ selector :: post
            /\ forallb (fun s => negb (substantial p s)) pre = true
            /\ querySelector p selector = Some (inner, cc_content c)
            /\ (500 < length inner)%nat
            /\ cc_meta "hasMainContentNode" c = Some (VStr (str "true"))
            /\ cc_meta "mainContentSelector" c = Some (VStr selector))
        \/ (forallb (fun s => negb (substantial p s)) fullPageSelectors = true
            /\ cc_content c = document_outerHTML p
            /\ cc_meta "hasMainContentNode" c = Some (VStr (str "false"))
            /\ cc_meta "mainContentSelector" c = Some (VStr []))).
Proof.
  unfold captureFullPage, try_catch, bind, dom. rewrite !Hdom. unfold ret.
  fold fullPageSelectors.
  pose proof (find_content_node_first p fullPageSelectors) as Hfirst.
  destruct (find_content_node p fullPageSelectors) as [[selector outer]|].
  - eexists. split; [reflexivity|]. split; [reflexivity|].
    left. destruct Hfirst as (pre & post & inner & Hsel & Hpre & Hq & Hlen).
    exists pre, selector, post, inner. cbn [cc_content].
    repeat (split; [assumption|]).
    unfold cc_meta; cbn [cc_metadata]; rewrite !meta_get_app. split; reflexivity.
  - eexists. split; [reflexivity|]. split; [reflexivity|].
    right. split; [exact Hfirst|]. split; [reflexivity|].
    unfold cc_meta; cbn [cc_metadata]; rewrite !meta_get_app. split; reflexivity.
Qed.

Lemma captureFullPage_main_content_witness :
  exists c, captureFullPage article_page empty_pstate = (Ret (Some c), empty_pstate)
            /\ cc_content c = str "<article>" ++ List.repeat 120%N 501 ++ str "</article>"
            /\ cc_meta "mainContentSelector" c = Some (VStr (str "article")).
Proof.
  destruct (captureFullPage_main_content article_page empty_pstate (fun _ => eq_refl))
    as (c & Hc & _ & H).
  exists c. split; [exact Hc|].
  vm_compute in Hc. injection Hc as <-. split; vm_compute; reflexivity.
Defined.

(** ** Page metadata *)

Lemma meta_get_single (k k' : jsstring) (v : jsval) :
  meta_get k [(k', v)] = if decide (k = k') then Some v else None.
Proof. reflexivity. Qed.

Lemma meta_get_attribute (k : jsstring) (attr : option jsstring)
    (kept : jsstring -> bool) (v : jsval) :
  kept [] = false ->
  meta_get k (match attr with
              | Some (n :: name) => if kept (n :: name) then [(n :: name, v)] else []
              | _ => []
              end)
  = if (if decide (attr = Some k) then kept k else false) then Some v else None.
Proof.
  intros Hnil. destruct attr as [[|n name]|].
  - destruct (decide (Some [] = Some k)) as [E|E]; [|reflexivity].
    injection E as <-. rewrite Hnil. reflexivity.
  - destruct (decide (Some (n :: name) = Some k)) as [E|E].
    + injection E as <-. destruct (kept (n :: name)); [|reflexivity].
      rewrite meta_get_single. destruct (decide (n :: name = n :: name)); congruence.
    + destruct (kept (n :: name)); [|reflexivity].
      rewrite meta_get_single. destruct (decide (k = n :: name)); congruence.
  - destruct (decide (None = Some k)); [discriminate | reflexivity].
Qed.

Lemma meta_get_tag_entries (k : jsstring) (tag : MetaTag) :
  meta_get k (tag_entries tag)
  = if sets_key k tag then VStr <$> meta_content tag else None.
Proof.
  unfold tag_entries, sets_key, present.
  destruct (meta_content tag) as [[|c content]|]; try reflexivity.
  cbn [andb fmap option_fmap option_map].
  rewrite meta_get_app.
  rewrite (meta_get_attribute k (meta_property tag) property_kept _ eq_refl).
  rewrite (meta_get_attribute k (meta_name tag) name_kept _ eq_refl).
  destruct (if decide (meta_property tag = Some k) then property_kept k else false);
    destruct (if decide (meta_name tag = Some k) then name_kept k else false); reflexivity.
Qed.

Lemma meta_get_tags (k : jsstring) (tags : list MetaTag) :
  meta_get k (flat_map tag_entries tags)
  = match last (List.filter (sets_key k) tags) with
    | Some tag => VStr <$> meta_content tag
    | None => None
    end.
Proof.
  induction tags as [|tag tags IH] using rev_ind; [reflexivity|].
  rewrite flat_map_app, List.filter_app, meta_get_app. cbn [flat_map List.filter].
  rewrite app_nil_r, meta_get_tag_entries.
  destruct (sets_key k tag) eqn:Hs.
  - rewrite last_snoc. unfold sets_key, present in Hs.
    destruct (meta_content tag) as [[|c content]|]; try discriminate. reflexivity.
  - rewrite app_nil_r. exact IH.
Qed.

Lemma tag_entries_absent (tag : MetaTag) :
  present (meta_content tag) = false -> tag_entries tag = [].
Proof.
  unfold tag_entries, present. destruct (meta_content tag) as [[|c content]|]; [auto|discriminate|auto].
Qed.

Lemma flat_map_present (tags : list MetaTag) :
  flat_map tag_entries (List.filter (fun tag => present (meta_content tag)) tags)
  = flat_map tag_entries tags.
Proof.
  induction tags as [|tag tags IH]; [reflexivity|].
  cbn [List.filter flat_map]. destruct (present (meta_content tag)) eqn:E.
  - cbn [flat_map]. rewrite IH. reflexivity.
  - rewrite (tag_entries_absent tag E), IH. reflexivity.
Qed.

Lemma canonical_entry_other (d : Document) (k : jsstring) :
  k <> str "canonicalUrl" -> meta_get k (canonical_entry d) = None.
Proof.
  intros H. unfold canonical_entry.
  destruct (doc_canonical d) as [[[|h href]|]|]; try reflexivity.
  rewrite meta_get_single. destruct (decide (k = str "canonicalUrl")); congruence.
Qed.

Lemma text_statistics_other (text : jsstring) (k : jsstring) :
  k <> str "wordCount" -> k <> str "characterCount" -> k <> str "excerpt" ->
  meta_get k (text_statistics text) = None.
Proof.
  intros H1 H2 H3. unfold text_statistics. cbn [meta_get].
  destruct (decide (k = str "excerpt")); [congruence|].
  destruct (decide (k = str "characterCount")); [congruence|].
  destruct (decide (k = str "wordCount")); [congruence|]. reflexivity.
Qed.

Lemma tags_never_set (k : jsstring) (tags : list MetaTag) :
  name_kept k = false -> property_kept k = false ->
  meta_get k (flat_map tag_entries tags) = None.
Proof.
  intros Hn Hp. rewrite meta_get_tags.
  replace (List.filter (sets_key k) tags) with (@nil MetaTag); [reflexivity|].
  induction tags as [|tag tags IH]; [reflexivity|].
  cbn [List.filter]. rewrite <- IH. unfold sets_key. rewrite Hn, Hp.
  destruct (decide (meta_name tag = Some k));
    destruct (decide (meta_property tag = Some k)); rewrite ?andb_false_r; reflexivity.
Qed.

Lemma last_setting_content (k : jsstring) (tags : list MetaTag) (tag : MetaTag) :
  last (List.filter (sets_key k) tags) = Some tag ->
  exists c content, meta_content tag = Some (c :: content).
Proof.
  intros E. apply last_Some_elem_of, list_elem_of_In, filter_In in E as [_ E].
  unfold sets_key, present in E.
  destruct (meta_content tag) as [[|c content]|]; try discriminate. eauto.
Qed.

(** The part of the metadata that follows the meta tags sets none of the
    keys [title], [url], [domain], [type]. *)
Lemma page_keys (d : Document) (k : jsstring) :
  k <> str "canonicalUrl" -> k <> str "wordCount" -> k <> str "characterCount" ->
  k <> str "excerpt" ->
  meta_get k (extractPageMetadata d)
  = match last (List.filter (sets_key k) (doc_metaTags d)) with
    | Some tag => VStr <$> meta_content tag
    | None => meta_get k (base_information d)
    end.
Proof.
  intros H1 H2 H3 H4. unfold extractPageMetadata.
  destruct (doc_bodyText d) as [text|].
  - rewrite meta_get_app, text_statistics_other by assumption.
    rewrite meta_get_app, canonical_entry_other by assumption.
    rewrite meta_get_app, meta_get_tags.
    destruct (last _) as [tag|] eqn:E; [|reflexivity].
    destruct (last_setting_content _ _ _ E) as (c & content & ->). reflexivity.
  - rewrite meta_get_app, canonical_entry_other by assumption.
    rewrite meta_get_app, meta_get_tags.
    destruct (last _) as [tag|] eqn:E; [|reflexivity].
    destruct (last_setting_content _ _ _ E) as (c & content & ->). reflexivity.
Qed.

(** X16.  In the metadata [extractPageMetadata] returns, [domain] is
    always the host name; [title] and [url] are the content of the last
    meta tag that sets them, and the document's title and address when no
    tag does; [type] is there only when a meta tag sets it.  A tag sets one
    of these three keys exactly when it has a content and its [property]
    attribute is the key.  Tags without content change nothing.  Without a
    document body the three text statistics are absent and the rest is
    returned. *)
Theorem extractPageMetadata_keys (d : Document) :
  let md := extractPageMetadata d in
  let last_tag k := last (List.filter (sets_key k) (doc_metaTags d)) in
  meta_get (str "domain") md = Some (VStr (doc_hostname d))
  /\ meta_get (str "title") md
     = match last_tag (str "title") with
       | Some tag => VStr <$> meta_content tag
       | None => Some (VStr (doc_title d))
       end
  /\ meta_get (str "url") md
     = match last_tag (str "url") with
       | Some tag => VStr <$> meta_content tag
       | None => Some (VStr (doc_href d))
       end
  /\ meta_get (str "type") md
     = match last_tag (str "type") with
       | Some tag => VStr <$> meta_content tag
       | None => None
       end
  /\ (forall (k : jsstring) (tag : MetaTag),
         In k [str "title"; str "url"; str "type"] ->
         sets_key k tag = true <->
         present (meta_content tag) = true /\ meta_property tag = Some k)
  /\ extractPageMetadata
       (with_metaTags d (List.filter (fun tag => present (meta_content tag)) (doc_metaTags d)))
     = md
  /\ (doc_bodyText d = None ->
      meta_get (str "wordCount") md = None
      /\ meta_get (str "characterCount") md = None
      /\ meta_get (str "excerpt") md = None).
Proof.
  intros md last_tag. subst md last_tag.
  split; [|split; [|split; [|split; [|split; [|split]]]]].
  - rewrite page_keys by discriminate.
    pose proof (tags_never_set (str "domain") (doc_metaTags d) eq_refl eq_refl) as H.
    rewrite meta_get_tags in H. destruct (last _) as [tag|] eqn:E; [|reflexivity].
    destruct (last_setting_content _ _ _ E) as (c & content & Hc). rewrite Hc in H.
    discriminate H.
  - rewrite page_keys by discriminate. reflexivity.
  - rewrite page_keys by discriminate. reflexivity.
  - rewrite page_keys by discriminate. reflexivity.
  - intros k tag Hk. unfold sets_key.
    assert (Hkept : name_kept k = false /\ property_kept k = true).
    { destruct Hk as [<-|[<-|[<-|[]]]]; split; reflexivity. }
    destruct Hkept as [-> ->].
    destruct (decide (meta_name tag = Some k));
      destruct (decide (meta_property tag = Some k));
      cbn [orb]; rewrite ?andb_true_r, ?andb_false_r; intuition discriminate.
  - unfold extractPageMetadata, with_metaTags, base_information, canonical_entry.
    cbn [doc_title doc_href doc_hostname doc_metaTags doc_canonical doc_bodyText].
    rewrite flat_map_present. reflexivity.
  - intros Hbody. unfold extractPageMetadata. rewrite Hbody.
    assert (Hk : forall k : jsstring,
               name_kept k = false -> property_kept k = false -> k <> str "canonicalUrl" ->
               meta_get k (base_information d) = None ->
               meta_get k ((base_information d ++ flat_map tag_entries (doc_metaTags d))
                           ++ canonical_entry d) = None).
    { intros k Hn Hp Hc Hb.
      rewrite meta_get_app, canonical_entry_other by assumption.
      rewrite meta_get_app, tags_never_set by assumption. exact Hb. }
    repeat split; apply Hk; (reflexivity || discriminate).
Qed.

(** ** Capture requests: context menu, content script, keyboard *)

Lemma requestedCaptureType_value (t : CaptureType) :
  requestedCaptureType (Some (CaptureType_value t)) = t.
Proof. destruct t; reflexivity. Qed.

Lemma requestedCaptureType_default (s : jsstring) :
  (forall t, s <> CaptureType_value t) -> requestedCaptureType (Some s) = TEXT.
Proof.
  intros H. unfold requestedCaptureType.
  destruct (decide (s = str "screenshot")) as [->|_]; [destruct (H SCREENSHOT); reflexivity|].
  destruct (decide (s = str "html")) as [->|_]; [destruct (H HTML); reflexivity|].
  destruct (decide (s = str "markdown")) as [->|_]; [destruct (H MARKDOWN); reflexivity|].
  destruct (decide (s = str "fullpage")) as [->|_]; [destruct (H FULLPAGE); reflexivity|].
  reflexivity.
Qed.

Lemma menuCaptureType_Some (info : OnClickData) (s : jsstring) :
  menuCaptureType info = Some s <->
  exists t : CaptureType,
    menuItemId info = str "rko-capture-" ++ CaptureType_value t
    /\ s = CaptureType_value t
    /\ (needs_selection t = true -> present (selectionText info) = true).
Proof.
  unfold menuCaptureType. split.
  - repeat match goal with
           | |- context [decide (?a = ?b)] => destruct (decide (a = b)) as [?E|?E]
           end; try discriminate;
      try (destruct (present (selectionText info)) eqn:Hsel; [|discriminate]);
      intros [= <-].
    + exists TEXT. rewrite E. auto.
    + exists HTML. rewrite E0. auto.
    + exists MARKDOWN. rewrite E1. auto.
    + exists FULLPAGE. rewrite E2. repeat split. discriminate.
    + exists SCREENSHOT. rewrite E3. repeat split. discriminate.
  - intros (t & Hid & -> & Hsel). rewrite Hid.
    destruct t; cbn in Hsel; try rewrite (Hsel eq_refl); reflexivity.
Qed.

(** X13.  The content script decodes the content of a capture request to
    the capture type whose string it is, and to TEXT for every other
    string.  A click on the context menu leads to a request exactly when
    the tab has a non-zero id and the entry is one of the five capture
    entries, with a non-empty selection text for text, HTML and Markdown;
    the request carries the string of the entry's type, and the content
    script answers it with [captureContent] of that type, notification
    on. *)
Theorem capture_request_round_trip (p : page) :
  (forall t : CaptureType, requestedCaptureType (Some (CaptureType_value t)) = t)
  /\ (forall s : jsstring,
         (forall t, s <> CaptureType_value t) -> requestedCaptureType (Some s) = TEXT)
  /\ (forall (info : OnClickData) (tab : option Z) (tabId : Z) (msg : ExtMessage),
         contextMenus_onClicked info tab = Some (tabId, msg) <->
         tab = Some tabId /\ tabId <> 0
         /\ exists t : CaptureType,
              menuItemId info = str "rko-capture-" ++ CaptureType_value t
              /\ (needs_selection t = true -> present (selectionText info) = true)
              /\ msg = capture_request (CaptureType_value t)
              /\ contentScript_onMessage p msg = Capture t true).
Proof.
  split; [exact requestedCaptureType_value|].
  split; [exact requestedCaptureType_default|].
  intros info tab tabId msg. unfold contextMenus_onClicked. split.
  - destruct tab as [id|]; [|discriminate].
    destruct (Z.eqb_spec id 0); [discriminate|].
    destruct (menuCaptureType info) as [s|] eqn:E; [|discriminate].
    intros [= <- <-]. apply menuCaptureType_Some in E as (t & Hid & -> & Hsel).
    split; [reflexivity|]. split; [assumption|]. exists t.
    repeat split; try assumption.
    unfold contentScript_onMessage, capture_request. cbn [messageType content].
    rewrite requestedCaptureType_value. reflexivity.
  - intros (-> & Hne & t & Hid & Hsel & -> & _).
    destruct (Z.eqb_spec tabId 0); [contradiction|].
    assert (E : menuCaptureType info = Some (CaptureType_value t)).
    { apply menuCaptureType_Some. exists t. auto. }
    rewrite E. reflexivity.
Qed.

Lemma lower_single (k : jsstring) (c : N) :
  (97 <= c <= 122)%N ->
  lower k = [c] <-> k = [c] \/ k = [(c - 32)%N].
Proof.
  intros Hc. unfold lower. split.
  - destruct k as [|x [|y k]]; try discriminate. cbn [List.map].
    destruct (N.leb_spec 65 x); destruct (N.leb_spec x 90); cbn [andb];
      intros [= Heq]; [right | left | left | left]; f_equal; lia.
  - intros [-> | ->]; cbn [List.map].
    + destruct (N.leb_spec 65 c); destruct (N.leb_spec c 90); cbn [andb]; try reflexivity. lia.
    + destruct (N.leb_spec 65 (c - 32)); destruct (N.leb_spec (c - 32) 90); cbn [andb];
        try lia. f_equal. lia.
Qed.

(** X14.  One key event makes at most one call of [captureContent].  The
    call for a type is made exactly when Ctrl and Shift are down and the
    key is the letter of that type, in lower or upper case: S for text, H
    for HTML, M for Markdown, F for the full page, P for a screenshot. *)
Theorem keyboard_shortcut_captures (event : KeyboardEvent) :
  (length (handleKeyboardShortcut event) <= 1)%nat
  /\ forall t : CaptureType,
       In t (handleKeyboardShortcut event) <->
       ctrlKey event = true /\ shiftKey event = true
       /\ (key event = [shortcut_letter t] \/ key event = [(shortcut_letter t - 32)%N]).
Proof.
  pose proof (lower_single (key event) 115 ltac:(lia)) as Hs.
  pose proof (lower_single (key event) 104 ltac:(lia)) as Hh.
  pose proof (lower_single (key event) 109 ltac:(lia)) as Hm.
  pose proof (lower_single (key event) 102 ltac:(lia)) as Hf.
  pose proof (lower_single (key event) 112 ltac:(lia)) as Hp.
  change (115 - 32)%N with 83%N in Hs. change (104 - 32)%N with 72%N in Hh.
  change (109 - 32)%N with 77%N in Hm. change (102 - 32)%N with 70%N in Hf.
  change (112 - 32)%N with 80%N in Hp.
  unfold handleKeyboardShortcut, shortcut.
  destruct (ctrlKey event), (shiftKey event); cbn [andb];
    try (split; [cbn; lia|]; intros t; split; [intros [] | intros (? & ? & _); discriminate]).
  change (str "s") with [115%N]. change (str "h") with [104%N].
  change (str "m") with [109%N]. change (str "f") with [102%N].
  change (str "p") with [112%N].
  assert (Hletters : forall t : CaptureType,
             (key event = [shortcut_letter t]
              \/ key event = [(shortcut_letter t - 32)%N])
             <-> lower (key event) = [shortcut_letter t]).
  { intros t. destruct t; cbn [shortcut_letter].
    - change (115 - 32)%N with 83%N. symmetry. exact Hs.
    - change (104 - 32)%N with 72%N. symmetry. exact Hh.
    - change (109 - 32)%N with 77%N. symmetry. exact Hm.
    - change (112 - 32)%N with 80%N. symmetry. exact Hp.
    - change (102 - 32)%N with 70%N. symmetry. exact Hf. }
  clear Hs Hh Hm Hf Hp.
  split.
  - repeat match goal with
           | |- context [decide (?a = ?b)] => destruct (decide (a = b))
           end; try congruence; cbn; lia.
  - intros t.
    assert (Hboth : forall P : Prop, (true = true /\ true = true /\ P) <-> P) by tauto.
    rewrite Hboth, Hletters.
    repeat match goal with
           | |- context [decide (?a = ?b)] => destruct (decide (a = b))
           end;
      try congruence; cbn [app In]; destruct t; cbn [shortcut_letter];
      split; intros; try tauto; try congruence;
      repeat match goal with
             | H : _ \/ _ |- _ => destruct H
             | H : False |- _ => destruct H
             end; try discriminate; try congruence.
Qed.

(** ** Message identifiers *)

Lemma generateMessageId_closed (m : ExtMessage) :
  generateMessageId m
  = MessageType_value (messageType m) ++ str "-" ++ or_empty (metadata_type m) ++ str "-"
    ++ take 40 (List.filter nonblank
                  (take 100 (match content m with Some c => c | None => [] end))).
Proof.
  unfold generateMessageId, substring0. rewrite strip_spaces_filter.
  destruct (content m); reflexivity.
Qed.

Lemma onMessage_fresh (m : ExtMessage) (tab : option Z) (t : Z)
    (r1 r2 : bool) (st : state) :
  processedMessages st !! generateMessageId m = None ->
  processedMessages (onMessage m tab t r1 r2 st).1
  = processed_after m t r1 r2 (processedMessages st).
Proof.
  intros E. unfold onMessage, isMessageProcessed. rewrite E.
  fold (processed_after m t r1 r2 (processedMessages st)).
  destruct (messageType m); try reflexivity.
  - destruct tab as [tabId|]; [|reflexivity]. destruct (tabId =? 0); reflexivity.
  - destruct (match metadata_type m with Some v => truthy v | None => false end).
    + destruct (messageDeduplication.isDuplicate m t _) as [d rm].
      destruct d; reflexivity.
    + reflexivity.
  - destruct tab as [tabId|]; [|reflexivity]. destruct (tabId =? 0); reflexivity.
Qed.

Lemma deliver_bg (w : world) (m : ExtMessage) (tab : option Z) (t : Z) (r1 r2 : bool) :
  bg (step w (Deliver m tab t r1 r2)) = (onMessage m tab t r1 r2 (bg w)).1.
Proof.
  cbn [step]. destruct (onMessage m tab t r1 r2 (bg w)) as [st cs].
  rewrite issue_bg. reflexivity.
Qed.

Lemma deliver_records (w : world) (m : ExtMessage) (tab : option Z) (t : Z)
    (r1 r2 : bool) :
  is_Some (processedMessages (bg (step w (Deliver m tab t r1 r2))) !! generateMessageId m).
Proof.
  rewrite deliver_bg.
  destruct (processedMessages (bg w) !! generateMessageId m) as [ts|] eqn:E.
  - rewrite (onMessage_processed m tab t r1 r2 (bg w) ts E). cbn. rewrite E. eauto.
  - rewrite (onMessage_fresh m tab t r1 r2 (bg w) E), processed_after_self. eauto.
Qed.

(** X7.  The identifier of a message is its kind, its metadata type and
    the first 40 of the code units that are left when white space is
    removed from the first 100 code units of its content.  Two messages
    that agree on these three have one identifier, whatever the rest of
    their content, their title, address or timestamp; and once the first
    has been delivered, the delivery of the second changes nothing,
    whenever it comes. *)
Theorem generateMessageId_collision
    (m m' : ExtMessage) (c c' : jsstring)
    (Hc : content m = Some c) (Hc' : content m' = Some c')
    (Hkind : messageType m' = messageType m)
    (Htype : metadata_type m' = metadata_type m)
    (Hsample : take 40 (List.filter nonblank (take 100 c'))
               = take 40 (List.filter nonblank (take 100 c))) :
  generateMessageId m
  = MessageType_value (messageType m) ++ str "-" ++ or_empty (metadata_type m) ++ str "-"
    ++ take 40 (List.filter nonblank (take 100 c))
  /\ generateMessageId m' = generateMessageId m
  /\ forall (w : world) (tab tab' : option Z) (t1 t2 : Z) (r1 r2 r3 r4 : bool),
       let w1 := step w (Deliver m tab t1 r1 r2) in
       step w1 (Deliver m' tab' t2 r3 r4) = w1.
Proof.
  assert (Hid : generateMessageId m' = generateMessageId m).
  { rewrite !generateMessageId_closed, Hc, Hc', Hkind, Htype, Hsample. reflexivity. }
  split; [rewrite generateMessageId_closed, Hc; reflexivity|].
  split; [exact Hid|].
  intros w tab tab' t1 t2 r1 r2 r3 r4 w1.
  destruct (deliver_records w m tab t1 r1 r2) as [ts Hts].
  apply (deliver_processed w1 m' tab' t2 r3 r4 ts). rewrite Hid. exact Hts.
Qed.

Lemma generateMessageId_collision_witness :
  generateMessageId second_capture = generateMessageId first_capture
  /\ run boot [Deliver first_capture (Some 7) 1000 false false;
               Deliver second_capture (Some 7) 30000 false false]
     = run boot [Deliver first_capture (Some 7) 1000 false false].
Proof.
  assert (Hsample : take 40 (List.filter nonblank (take 100
             (str "Lorem ipsum dolor sit amet, consectetur adipiscing elit. Ut enim ad minim")))
           = take 40 (List.filter nonblank (take 100
             (str "Lorem ipsum dolor sit amet, consectetur adipiscing elit, sed do eiusmod")))).
  { vm_compute. reflexivity. }
  destruct (generateMessageId_collision first_capture second_capture _ _
              eq_refl eq_refl eq_refl eq_refl Hsample) as (_ & Hid & Hdrop).
  split; [exact Hid|].
  exact (Hdrop boot (Some 7) (Some 7) 1000 30000 false false false false).
Defined.

Lemma cleanup_lookup_None (t : Z) (pm : gmap jsstring Z) (k : jsstring) :
  (forall ts, pm !! k = Some ts -> ts < t - MESSAGE_EXPIRY_TIME) ->
  cleanupProcessedMessages t pm !! k = None.
Proof.
  intros H. destruct (cleanupProcessedMessages t pm !! k) as [ts|] eqn:E; [|reflexivity].
  apply cleanupProcessedMessages_lookup in E as [E1 E2]. specialize (H ts E1). lia.
Qed.

Lemma cleanup_lookup_mono (t : Z) (pm : gmap jsstring Z) (k : jsstring) (ts : Z) :
  cleanupProcessedMessages t pm !! k = Some ts -> pm !! k = Some ts.
Proof. intros H. apply cleanupProcessedMessages_lookup in H. tauto. Qed.

Lemma processed_after_expired (m : ExtMessage) (t : Z) (r1 r2 : bool)
    (pm : gmap jsstring Z) (k : jsstring) (ts : Z) :
  pm !! k = Some ts -> k <> generateMessageId m ->
  ts < t - MESSAGE_EXPIRY_TIME -> r1 || r2 = true ->
  processed_after m t r1 r2 pm !! k = None.
Proof.
  intros Hk Hne Hts Hr. unfold processed_after.
  destruct r2.
  - apply cleanup_lookup_None. intros ts'. rewrite lookup_insert_ne by congruence.
    destruct r1.
    + intros H. apply cleanup_lookup_mono in H.
      rewrite lookup_insert_ne in H by congruence. congruence.
    + rewrite lookup_insert_ne by congruence. congruence.
  - destruct r1; [|discriminate]. rewrite lookup_insert_ne by congruence.
    apply cleanup_lookup_None. intros ts'. rewrite lookup_insert_ne by congruence. congruence.
Qed.

Lemma step_keeps_processed (w : world) (ev : event) (id : jsstring) (ts : Z) :
  runs_cleanup ev = false ->
  processedMessages (bg w) !! id = Some ts ->
  processedMessages (bg (step w ev)) !! id = Some ts.
Proof.
  intros Hev Hid. destruct ev as [m tab t r1 r2|ok|t].
  - rewrite deliver_bg. cbn in Hev. apply orb_false_elim in Hev as [-> ->].
    destruct (processedMessages (bg w) !! generateMessageId m) as [ts'|] eqn:E.
    + rewrite (onMessage_processed m tab t false false (bg w) ts' E). exact Hid.
    + rewrite (onMessage_fresh m tab t false false (bg w) E).
      unfold processed_after.
      assert (id <> generateMessageId m) by congruence.
      rewrite !lookup_insert_ne by congruence. exact Hid.
  - cbn [step]. rewrite serve_processedMessages. exact Hid.
  - cbn [step]. rewrite fire_bg. exact Hid.
Qed.

(** X8.  An identifier on record is not forgotten by the passing of
    time: through any events in which no cleanup runs, a message with that
    identifier is rejected, however late it comes.  It is forgotten when a
    cleanup runs more than 10 s after it was recorded, which takes the
    delivery of a message with another, new, identifier and one of the two
    random draws. *)
Theorem processed_ids_expire_only_by_cleanup
    (w : world) (m : ExtMessage) (ts : Z)
    (Hid : processedMessages (bg w) !! generateMessageId m = Some ts) :
  (forall (evs : list event) (tab : option Z) (t : Z) (r1 r2 : bool),
      forallb (fun ev => negb (runs_cleanup ev)) evs = true ->
      step (run w evs) (Deliver m tab t r1 r2) = run w evs)
  /\ (forall (m2 : ExtMessage) (tab : option Z) (t : Z) (r1 r2 : bool),
         processedMessages (bg w) !! generateMessageId m2 = None ->
         r1 || r2 = true ->
         ts < t - MESSAGE_EXPIRY_TIME ->
         processedMessages (bg (step w (Deliver m2 tab t r1 r2))) !! generateMessageId m
         = None).
Proof.
  split.
  - intros evs tab t r1 r2 Hno.
    apply (deliver_processed _ m tab t r1 r2 ts).
    revert w Hid. induction evs as [|ev evs IH]; intros w Hid; [exact Hid|].
    cbn in Hno. apply andb_prop in Hno as [Hev Hevs].
    unfold run. cbn [foldl]. apply (IH Hevs).
    apply step_keeps_processed; [|exact Hid].
    destruct (runs_cleanup ev); [discriminate | reflexivity].
  - intros m2 tab t r1 r2 Hnew Hr Hts.
    rewrite deliver_bg, (onMessage_fresh m2 tab t r1 r2 (bg w) Hnew).
    apply (processed_after_expired m2 t r1 r2 _ _ ts Hid); [congruence | exact Hts | exact Hr].
Qed.

Lemma processed_ids_expire_only_by_cleanup_witness :
  let w := step boot (Deliver sample_message (Some 7) 1000 false false) in
  step (run w [Deliver panel_loaded None 500000 false false])
       (Deliver sample_message (Some 7) 900000 true true)
  = run w [Deliver panel_loaded None 500000 false false]
  /\ processedMessages (bg (step w (Deliver panel_loaded None 500000 true false)))
       !! generateMessageId sample_message = None.
Proof.
  intros w.
  assert (Hid : processedMessages (bg w) !! generateMessageId sample_message = Some 1000).
  { vm_compute. reflexivity. }
  destruct (processed_ids_expire_only_by_cleanup w sample_message 1000 Hid) as [H1 H2].
  split.
  - exact (H1 [Deliver panel_loaded None 500000 false false] (Some 7) 900000 true true eq_refl).
  - refine (H2 panel_loaded None 500000 true false _ eq_refl eq_refl).
    vm_compute. reflexivity.
Defined.

(** ** The type of a capture message *)

Lemma captureTextSelection_metadata (p : page) (a b : bool) (st st1 : pstate)
    (c : CapturedContent) :
  captureTextSelection p a b st = (Ret (Some c), st1) ->
  cc_type c = TEXT
  /\ exists sel, selection p = Some sel /\ cc_metadata c = Some (enhancedMetadata p sel).
Proof.
  unfold captureTextSelection, read_selection, bind, dom, ret, throw, when,
    sendCapturedContent, emit.
  destruct (throws p opGetSelection); [discriminate|].
  destruct (selection p) as [sel|]; [|discriminate].
  destruct (rangeCount sel =? 0)%nat; [discriminate|].
  destruct (throws p opToString); [discriminate|].
  destruct (decide (trim (sel_toString sel) = [])); [discriminate|].
  destruct (throws p opDocument); [discriminate|].
  destruct a, b; intros [= <- <-]; eauto.
Qed.

(** X17.  In the message [sendCapturedContent] builds, the page metadata
    is spread last: [metadata.type] is the [type] entry of the capture's
    metadata when it has one, and the capture type's own string otherwise.
    So on a page with a [type] meta property, a text capture is sent with
    that property's content as its type, and the background's identifier
    of the message is built from it. *)
Theorem message_type_follows_page_metadata (c : CapturedContent) :
  metadata_type (captured_message c)
  = match cc_meta "type" c with
    | Some v => Some v
    | None => Some (VStr (CaptureType_value (cc_type c)))
    end
  /\ forall (p : page) (d : Document) (a b : bool) (st st1 : pstate)
            (tag : MetaTag) (x : jsstring),
       page_metadata p = extractPageMetadata d ->
       last (List.filter (sets_key (str "type")) (doc_metaTags d)) = Some tag ->
       meta_content tag = Some x ->
       captureTextSelection p a b st = (Ret (Some c), st1) ->
       metadata_type (captured_message c) = Some (VStr x)
       /\ Background.generateMessageId (captured_message c)
          = str "capturedSelection-" ++ x ++ str "-"
            ++ take 40 (List.filter nonblank (take 100 (cc_content c))).
Proof.
  assert (Hgen : metadata_type (captured_message c)
                 = match cc_meta "type" c with
                   | Some v => Some v
                   | None => Some (VStr (CaptureType_value (cc_type c)))
                   end).
  { unfold metadata_type, captured_message, cc_meta. cbn [metadata].
    rewrite meta_get_app. destruct (cc_metadata c) as [md|].
    - destruct (meta_get (str "type") md); reflexivity.
    - reflexivity. }
  split; [exact Hgen|].
  intros p d a b st st1 tag x Hpage Hlast Hx Hcap.
  destruct (captureTextSelection_metadata p a b st st1 c Hcap) as (Hty & sel & _ & Hmd).
  assert (Htype : cc_meta "type" c = Some (VStr x)).
  { unfold cc_meta. rewrite Hmd. unfold enhancedMetadata. rewrite meta_get_app.
    rewrite meta_get_single.
    destruct (decide (str "type" = str "styling")); [discriminate|].
    rewrite Hpage.
    rewrite page_keys by discriminate. rewrite Hlast, Hx. reflexivity. }
  rewrite Hgen, Htype. split; [reflexivity|].
  rewrite generateMessageId_closed, Hgen, Htype.
  destruct (last_setting_content _ _ _ Hlast) as (y & content & Hc).
  rewrite Hx in Hc. injection Hc as ->. reflexivity.
Qed.

Lemma message_type_follows_page_metadata_witness :
  exists c st1,
    captureTextSelection tagged_page false false empty_pstate = (Ret (Some c), st1)
    /\ cc_type c = TEXT
    /\ metadata_type (captured_message c) = Some (VStr (str "article")).
Proof.
  destruct (captureTextSelection tagged_page false false empty_pstate)
    as [[[c|]|e] st1] eqn:E; try (vm_compute in E; discriminate).
  exists c, st1. split; [reflexivity|].
  destruct (message_type_follows_page_metadata c) as [_ H].
  destruct (H tagged_page tagged_document false false empty_pstate st1
              {| meta_name := None; meta_property := Some (str "type");
                 meta_content := Some (str "article") |}
              (str "article") eq_refl ltac:(vm_compute; reflexivity) eq_refl E) as [Hty _].
  split; [|exact Hty].
  vm_compute in E. injection E as <- _. reflexivity.
Defined.

(** ** Overlapping appends to the store *)

Lemma run_app (w : world) (a b : list event) : run w (a ++ b) = run (run w a) b.
Proof. unfold run. apply foldl_app. Qed.

Lemma issue_requests (t : Z) (ms : list ExtMessage) :
  forall w : world,
    issue t w (flat_map storeCapture ms) = with_requests w (requests w ++ List.map Get ms).
Proof.
  induction ms as [|m ms IH]; intros w.
  - cbn. unfold with_requests. rewrite app_nil_r. destruct w; reflexivity.
  - cbn [flat_map storeCapture app]. unfold issue in *. cbn [foldl perform].
    rewrite IH. unfold with_requests. cbn. rewrite <- app_assoc. reflexivity.
Qed.

(** Serving the reads: each is answered from the same stored list, and its
    write joins the queue. *)
Lemma serve_reads (gs : list ExtMessage) :
  forall (w : world) (ps : list request),
    requests w = List.map Get gs ++ ps ->
    run w (replicate (length gs) (Serve true))
    = with_requests w
        (ps ++ List.map (fun g => Put (trimmedCaptures g (existingCaptures w))) gs).
Proof.
  induction gs as [|g gs IH]; intros w ps Hq.
  - cbn. unfold with_requests. cbn in Hq. rewrite app_nil_r, <- Hq. destruct w; reflexivity.
  - cbn [length replicate]. unfold run in *. cbn [foldl step]. unfold serve at 1.
    rewrite Hq. cbn [List.map app].
    rewrite (IH _ (ps ++ [Put (trimmedCaptures g (existingCaptures w))])).
    + unfold with_requests, existingCaptures. cbn. rewrite <- app_assoc. reflexivity.
    + cbn. rewrite app_assoc. reflexivity.
Qed.

(** Serving the writes: the last one stays. *)
Lemma serve_writes (vs : list (list ExtMessage)) :
  forall (w : world),
    requests w = List.map Put vs ->
    run w (replicate (length vs) (Serve true))
    = {| bg := bg w; stored := match last vs with Some v => Some v | None => stored w end;
         requests := []; timers := timers w; sent := sent w |}.
Proof.
  induction vs as [|v vs IH]; intros w Hq.
  - cbn. cbn in Hq. rewrite <- Hq. destruct w; reflexivity.
  - cbn [length replicate]. unfold run in *. cbn [foldl step]. unfold serve at 1.
    rewrite Hq. cbn [List.map].
    rewrite IH by reflexivity. cbn [bg stored timers sent]. f_equal.
    rewrite last_cons. destruct (last vs); reflexivity.
Qed.

(** X9.  When several appends are issued to an idle store before any of
    them is served, every read sees the same list and every write puts one
    new record in front of it: after all requests are served the store
    holds the record of the last append in front of the old records, and
    the records of the other appends are lost.  Appends that run one
    after the other keep them all. *)
Theorem overlapping_appends_keep_last
    (w : world) (ms : list ExtMessage) (m : ExtMessage)
    (Hidle : requests w = []) :
  let n := length (ms ++ [m]) in
  let w1 := issue 0 w (flat_map storeCapture (ms ++ [m])) in
  let w2 := run w1 (replicate n (Serve true) ++ replicate n (Serve true)) in
  requests w1 = List.map Get (ms ++ [m])
  /\ stored w2 = Some (take 100 (m :: existingCaptures w))
  /\ requests w2 = []
  /\ stored (foldl append_record w (ms ++ [m]))
     = Some (take 100 (m :: rev ms ++ existingCaptures w)).
Proof.
  intros n w1 w2. subst w1 w2 n.
  rewrite issue_requests, Hidle. cbn [app].
  split; [reflexivity|].
  rewrite run_app.
  rewrite (serve_reads (ms ++ [m]) (with_requests w (List.map Get (ms ++ [m]))) [])
    by (cbn; rewrite app_nil_r; reflexivity).
  cbn [app].
  set (vs := List.map (fun g => trimmedCaptures g (existingCaptures (with_requests w (List.map Get (ms ++ [m])))))
                      (ms ++ [m])).
  assert (Hlen : length (ms ++ [m]) = length vs) by (subst vs; rewrite length_map; reflexivity).
  rewrite Hlen.
  rewrite (serve_writes vs).
  2:{ subst vs. cbn. rewrite List.map_map. reflexivity. }
  cbn [stored requests].
  assert (Hlast : last vs = Some (trimmedCaptures m (existingCaptures w))).
  { subst vs. rewrite List.map_app. cbn [List.map]. rewrite last_snoc. reflexivity. }
  rewrite Hlast. split; [reflexivity|]. split; [reflexivity|].
  destruct (append_all_stored (ms ++ [m]) w Hidle) as [H _].
  { destruct ms; discriminate. }
  rewrite H. unfold MAX_RECENT_CAPTURES. rewrite rev_app_distr. reflexivity.
Qed.

Lemma overlapping_appends_keep_last_witness :
  let w1 := issue 0 boot (flat_map storeCapture [sample_message; first_capture]) in
  stored (run w1 [Serve true; Serve true; Serve true; Serve true]) = Some [first_capture]
  /\ stored (foldl append_record boot [sample_message; first_capture])
     = Some [first_capture; sample_message].
Proof.
  destruct (overlapping_appends_keep_last boot [sample_message] first_capture eq_refl)
    as (_ & H & _ & H').
  split; [exact H | exact H'].
Defined.

(** ** Forwarding and replay *)

Lemma issue_app (t : Z) (w : world) (a b : list command) :
  issue t w (a ++ b) = issue t (issue t w a) b.
Proof. unfold issue. apply foldl_app. Qed.

(** X10.  The delivery of a capture message that is new to the
    background sends it to the panel exactly when [isSidePanelOpen] is
    set, once, at the time of the delivery, with its kind, content and
    metadata and with [background] as its origin; it issues two reads of
    the store, sets no timer and leaves the flag and the store as they
    are. *)
Theorem captured_message_forwarding
    (w : world) (m : ExtMessage) (tab : option Z) (t : Z) (r1 r2 : bool)
    (Hkind : messageType m = capturedSelection)
    (Hnew : processedMessages (bg w) !! generateMessageId m = None)
    (Hfresh : forall ts,
        recentMessages (bg w) !! messageDeduplication.getMessageHash m = Some ts ->
        messageDeduplication.deduplicationWindow <= t - ts) :
  let w1 := step w (Deliver m tab t r1 r2) in
  sent w1 = sent w ++ (if isSidePanelOpen (bg w) then [(t, forwarded m)] else [])
  /\ requests w1 = requests w ++ [Get m; Get m]
  /\ timers w1 = timers w
  /\ stored w1 = stored w
  /\ isSidePanelOpen (bg w1) = isSidePanelOpen (bg w).
Proof.
  intros w1. subst w1. cbn [step].
  destruct (onMessage_captured m tab t r1 r2 (bg w) Hkind Hnew Hfresh)
    as (st' & -> & _ & Hopen & _).
  destruct (isSidePanelOpen (bg w)); cbn; rewrite ?app_nil_r, <- ?app_assoc; auto.
Qed.

Lemma captured_message_forwarding_witness :
  let w := step boot (Deliver panel_loaded None 500 false false) in
  sent (step w (Deliver sample_message (Some 7) 1000 false false))
  = [(1000, forwarded sample_message)]
  /\ sent (step boot (Deliver sample_message (Some 7) 1000 false false)) = [].
Proof.
  intros w.
  assert (Hempty : forall (w0 : world) (ts : Z),
             recentMessages (bg w0) = ∅ ->
             recentMessages (bg w0) !! messageDeduplication.getMessageHash sample_message
             = Some ts ->
             messageDeduplication.deduplicationWindow <= 1000 - ts).
  { intros w0 ts -> H. rewrite lookup_empty in H. discriminate H. }
  split.
  - exact (proj1 (captured_message_forwarding w sample_message (Some 7) 1000 false false
                    eq_refl ltac:(vm_compute; reflexivity)
                    (fun ts => Hempty w ts eq_refl))).
  - exact (proj1 (captured_message_forwarding boot sample_message (Some 7) 1000 false false
                    eq_refl eq_refl (fun ts => Hempty boot ts eq_refl))).
Defined.

Lemma issue_timeouts (t : Z) (l : list ExtMessage) :
  forall (f : nat -> Z) (w : world),
    issue t w (imap (fun i c => SetTimeout (f i) c) l)
    = {| bg := bg w; stored := stored w; requests := requests w;
         timers := timers w ++ imap (fun i c => (t + f i, c)) l;
         sent := sent w |}.
Proof.
  induction l as [|c l IH]; intros f w.
  - cbn. rewrite app_nil_r. destruct w; reflexivity.
  - cbn [imap]. unfold issue in *. cbn [foldl perform].
    change (imap ((fun i c0 => SetTimeout (f i) c0) ∘ S) l)
      with (imap (fun i c0 => SetTimeout (f (S i)) c0) l).
    rewrite (IH (fun i => f (S i))). cbn. rewrite <- app_assoc. reflexivity.
Qed.

Lemma fire_all (u : Z) (l : list (Z * ExtMessage)) :
  forall w : world,
    timers w = l ->
    Forall (fun x => x.1 <= u) l ->
    fire u w
    = {| bg := bg w; stored := stored w; requests := requests w; timers := [];
         sent := sent w ++ List.map (fun x => (u, forwarded x.2)) l |}.
Proof.
  intros w Hl Hdue. unfold fire. rewrite Hl.
  assert (Hd : List.filter (fun x : Z * ExtMessage => x.1 <=? u) l = l).
  { clear Hl. induction Hdue as [|x l Hx _ IH]; [reflexivity|].
    cbn [List.filter]. destruct (Z.leb_spec x.1 u); [|lia]. rewrite IH. reflexivity. }
  assert (Hn : List.filter (fun x : Z * ExtMessage => negb (x.1 <=? u)) l = []).
  { clear Hl Hd. induction Hdue as [|x l Hx _ IH]; [reflexivity|].
    cbn [List.filter]. destruct (Z.leb_spec x.1 u); [|lia]. exact IH. }
  rewrite Hd, Hn. clear Hl Hd Hn Hdue.
  generalize (sent w) as s. generalize (requests w) as q.
  generalize (stored w) as sto. generalize (bg w) as b. clear w.
  induction l as [|x l IH]; intros b sto q s.
  - cbn. rewrite app_nil_r. reflexivity.
  - cbn [foldl List.map]. unfold issue at 2. cbn [sendToSidePanel foldl perform].
    fold (forwarded x.2). cbn [bg stored requests timers sent].
    rewrite IH. rewrite <- app_assoc. reflexivity.
Qed.

Lemma map_imap_forwarded (u : Z) (l : list ExtMessage) :
  forall g : nat -> Z,
    List.map (fun x : Z * ExtMessage => (u, forwarded x.2)) (imap (fun i c => (g i, c)) l)
    = List.map (fun c => (u, forwarded c)) l.
Proof.
  induction l as [|c l IH]; intros g; [reflexivity|].
  cbn [imap List.map]. f_equal.
  change (imap ((fun i c0 => (g i, c0)) ∘ S) l) with (imap (fun i c0 => (g (S i), c0)) l).
  apply (IH (fun i => g (S i))).
Qed.

(** X11.  The delivery of a [sidePanelLoaded] message that is new to the
    background sets [isSidePanelOpen], leaves the in-memory captures as
    they are, sends nothing at once and sets one timer for each in-memory
    capture, the i-th one 100 ms times i after the delivery, in the order
    of the array.  When no other timer was set, firing the timers once the
    last is due sends the captures in that order, each with [background]
    as its origin. *)
Theorem replay_spacing
    (w : world) (m : ExtMessage) (tab : option Z) (t : Z) (r1 r2 : bool)
    (Hkind : messageType m = sidePanelLoaded)
    (Hnew : processedMessages (bg w) !! generateMessageId m = None) :
  let w1 := step w (Deliver m tab t r1 r2) in
  let memory := recentCaptures (bg w) in
  isSidePanelOpen (bg w1) = true
  /\ recentCaptures (bg w1) = memory
  /\ timers w1 = timers w ++ imap (fun i c => (t + Z.of_nat i * 100, c)) memory
  /\ sent w1 = sent w
  /\ (timers w = [] ->
      forall u : Z,
        t + 100 * (Z.of_nat (length memory) - 1) <= u ->
        sent (fire u w1) = sent w ++ List.map (fun c => (u, forwarded c)) memory
        /\ timers (fire u w1) = []).
Proof.
  intros w1 memory.
  assert (Hw1 : w1 = {| bg := bg w1; stored := stored w; requests := requests w;
                        timers := timers w ++ imap (fun i c => (t + Z.of_nat i * 100, c)) memory;
                        sent := sent w |}
                /\ isSidePanelOpen (bg w1) = true /\ recentCaptures (bg w1) = memory).
  { subst w1 memory. cbn [step]. unfold onMessage, isMessageProcessed.
    rewrite Hnew, Hkind. cbn [bg]. unfold sendAllCapturesToSidePanel.
    cbn [recentCaptures set_panel set_processed].
    rewrite (issue_timeouts t (recentCaptures (bg w)) (fun i => Z.of_nat i * 100)).
    cbn. auto. }
  destruct Hw1 as (Hw1 & Hopen & Hmem).
  split; [exact Hopen|]. split; [exact Hmem|].
  split; [rewrite Hw1; reflexivity|]. split; [rewrite Hw1; reflexivity|].
  intros Hempty u Hu.
  assert (Hdue : Forall (fun x : Z * ExtMessage => x.1 <= u)
                   (imap (fun i c => (t + Z.of_nat i * 100, c)) memory)).
  { apply Forall_lookup. intros i [d c] Hi. rewrite list_lookup_imap in Hi.
    destruct (memory !! i) as [c'|] eqn:E; [|discriminate].
    cbn in Hi. injection Hi as <- <-. apply lookup_lt_Some in E. cbn. lia. }
  rewrite (fire_all u _ w1 ltac:(rewrite Hw1, Hempty; reflexivity) Hdue).
  cbn [sent timers]. split; [|reflexivity].
  cbn [app].
  rewrite (map_imap_forwarded u memory (fun i => t + Z.of_nat i * 100)).
  f_equal. rewrite Hw1. reflexivity.
Qed.

Lemma replay_spacing_witness :
  let w := run boot [Deliver first_capture (Some 7) 1000 false false;
                     Serve false; Serve false] in
  let w1 := step w (Deliver panel_loaded None 60000 false false) in
  List.map fst (timers w1) = [60000; 60100]
  /\ sent (fire 60100 w1) = [(60100, forwarded first_capture); (60100, forwarded first_capture)].
Proof.
  intros w w1.
  destruct (replay_spacing w panel_loaded None 60000 false false eq_refl
              ltac:(vm_compute; reflexivity))
    as (_ & _ & Htimers & _ & Hfire).
  split.
  - fold w1 in Htimers. rewrite Htimers. vm_compute. reflexivity.
  - destruct (Hfire eq_refl 60100 ltac:(vm_compute; discriminate)) as [Hsent _].
    fold w1 in Hsent. rewrite Hsent. vm_compute. reflexivity.
Defined.

(** ** What the panel gets when it attaches *)

(** While no request to the store fails, the in-memory array stays empty
    and no timer is set. *)
Lemma memory_stays_empty (evs : list event) :
  forallb (fun ev => negb (read_fails ev)) evs = true ->
  forall w : world,
    recentCaptures (bg w) = [] /\ timers w = [] ->
    recentCaptures (bg (run w evs)) = [] /\ timers (run w evs) = [].
Proof.
  unfold run. induction evs as [|ev evs IH]; intros Hok w Hw; [exact Hw|].
  cbn in Hok. apply andb_prop in Hok as [Hev Hevs]. cbn [foldl].
  apply (IH Hevs). apply replay_invariant; [|exact Hw].
  destruct (read_fails ev); [discriminate | reflexivity].
Qed.

(** Only the fallback of a failed read writes the in-memory array. *)
Lemma memory_written_by_fallback (w : world) (ev : event) :
  recentCaptures (bg (step w ev)) = recentCaptures (bg w)
  \/ exists (m : ExtMessage) (rest : list request),
       ev = Serve false /\ requests w = Get m :: rest
       /\ recentCaptures (bg (step w ev)) = remember m (recentCaptures (bg w)).
Proof.
  destruct ev as [m tab t r1 r2|ok|t].
  - left. rewrite deliver_bg. apply onMessage_recentCaptures.
  - cbn [step]. unfold serve. destruct (requests w) as [|[m|v] rest] eqn:E.
    + left. reflexivity.
    + destruct ok; [left; reflexivity|]. right. exists m, rest. auto.
    + left. reflexivity.
  - left. cbn [step]. rewrite fire_bg. reflexivity.
Qed.

(** The loader of a view that has just mounted takes over the list of the
    store. *)
Lemma loadRecentItems_mounted (now : Z) (data : option (list ExtMessage)) :
  Collections.loadRecentItems Collections.mounted now false (Collections.Got data)
  = {| Collections.setRecentItems :=
         Some (List.map Collections.Loaded
                 match data with Some l => l | None => [] end);
       Collections.setInitialized := true |}.
Proof. destruct data as [[|x l]|]; reflexivity. Qed.

(** C9 as worded fails on a capture that arrives while the panel is
    closed and is persisted: the panel attaches, the timers are fired at
    once and a minute later, and the background has sent nothing. *)
Lemma persisted_capture_not_replayed :
  let evs := [Deliver sample_message (Some 7) 1000 false false;
              Serve true; Serve true; Serve true; Serve true;
              Deliver panel_loaded None 60000 false false;
              Fire 60000; Fire 120000] in
  stored (run boot evs) = Some [sample_message]
  /\ isSidePanelOpen (bg (run boot evs)) = true
  /\ timers (run boot evs) = []
  /\ sent (run boot evs) = [].
Proof. vm_compute. auto. Qed.

(** C9, as the code has it.  When the panel attaches, the background
    replays its in-memory array and nothing else: one timer per capture of
    the array, the i-th one 100 ms times i after the attach, each sending
    its capture when it fires.  Only the fallback of a failed read of the
    store writes that array, so while no request to the store fails the
    array is empty and an attach sends nothing and sets no timer: the
    captures persisted in the store are not replayed.  They stay in the
    store, and the Collections view of the panel loads the list under
    [recentCaptures] itself when it mounts. *)
Theorem replay_on_attach (evs : list event) :
  let w := run boot evs in
  (* the in-memory array is written by the fallback of a failed read only *)
  (forall ev : event,
      recentCaptures (bg (step w ev)) = recentCaptures (bg w)
      \/ exists (m : ExtMessage) (rest : list request),
           ev = Serve false /\ requests w = Get m :: rest
           /\ recentCaptures (bg (step w ev)) = remember m (recentCaptures (bg w)))
  (* an attach replays that array, one send per 100 ms, and leaves the store alone *)
  /\ (forall (m : ExtMessage) (tab : option Z) (t : Z) (r1 r2 : bool),
         messageType m = sidePanelLoaded ->
         processedMessages (bg w) !! generateMessageId m = None ->
         let w1 := step w (Deliver m tab t r1 r2) in
         isSidePanelOpen (bg w1) = true
         /\ sent w1 = sent w
         /\ stored w1 = stored w
         /\ requests w1 = requests w
         /\ timers w1
            = timers w ++ imap (fun i c => (t + Z.of_nat i * 100, c)) (recentCaptures (bg w))
         /\ (timers w = [] ->
             forall u : Z,
               t + 100 * (Z.of_nat (length (recentCaptures (bg w))) - 1) <= u ->
               sent (fire u w1)
               = sent w ++ List.map (fun c => (u, forwarded c)) (recentCaptures (bg w))))
  (* persisted captures are not replayed *)
  /\ (forallb (fun ev => negb (read_fails ev)) evs = true ->
      recentCaptures (bg w) = []
      /\ timers w = []
      /\ forall (t : Z) (r1 r2 : bool),
           let w1 := step w (Deliver panel_loaded None t r1 r2) in
           timers w1 = [] /\ sent w1 = sent w /\ stored w1 = stored w)
  (* the panel loads the persisted list itself *)
  /\ (forall now : Z,
         Collections.loadRecentItems Collections.mounted now false
           (Collections.Got (stored w))
         = {| Collections.setRecentItems :=
                Some (List.map Collections.Loaded (existingCaptures w));
              Collections.setInitialized := true |}).
Proof.
  intros w.
  assert (Hattach : forall (m : ExtMessage) (tab : option Z) (t : Z) (r1 r2 : bool),
             messageType m = sidePanelLoaded ->
             processedMessages (bg w) !! generateMessageId m = None ->
             step w (Deliver m tab t r1 r2)
             = {| bg := bg (step w (Deliver m tab t r1 r2));
                  stored := stored w; requests := requests w;
                  timers := timers w
                            ++ imap (fun i c => (t + Z.of_nat i * 100, c))
                                    (recentCaptures (bg w));
                  sent := sent w |}
             /\ isSidePanelOpen (bg (step w (Deliver m tab t r1 r2))) = true).
  { intros m tab t r1 r2 Hkind Hnew. cbn [step]. unfold onMessage, isMessageProcessed.
    rewrite Hnew, Hkind. cbn [bg]. unfold sendAllCapturesToSidePanel.
    cbn [recentCaptures set_panel set_processed].
    rewrite (issue_timeouts t (recentCaptures (bg w)) (fun i => Z.of_nat i * 100)).
    cbn. auto. }
  split; [|split; [|split]].
  - intros ev. apply memory_written_by_fallback.
  - intros m tab t r1 r2 Hkind Hnew w1.
    destruct (Hattach m tab t r1 r2 Hkind Hnew) as [Hw1 Hopen]. fold w1 in Hw1, Hopen.
    split; [exact Hopen|].
    split; [rewrite Hw1; reflexivity|]. split; [rewrite Hw1; reflexivity|].
    split; [rewrite Hw1; reflexivity|]. split; [rewrite Hw1; reflexivity|].
    intros Hempty u Hu.
    assert (Hdue : Forall (fun x : Z * ExtMessage => x.1 <= u)
                     (imap (fun i c => (t + Z.of_nat i * 100, c)) (recentCaptures (bg w)))).
    { apply Forall_lookup. intros i [d c] Hi. rewrite list_lookup_imap in Hi.
      destruct (recentCaptures (bg w) !! i) as [c'|] eqn:E; [|discriminate].
      cbn in Hi. injection Hi as <- <-. apply lookup_lt_Some in E. cbn. lia. }
    rewrite (fire_all u _ w1 ltac:(rewrite Hw1, Hempty; reflexivity) Hdue).
    cbn [sent timers app].
    rewrite (map_imap_forwarded u (recentCaptures (bg w)) (fun i => t + Z.of_nat i * 100)).
    f_equal. rewrite Hw1. reflexivity.
  - intros Hok.
    destruct (memory_stays_empty evs Hok boot (conj eq_refl eq_refl)) as [Hmem Htim].
    fold w in Hmem, Htim.
    split; [exact Hmem|]. split; [exact Htim|].
    intros t r1 r2 w1. subst w1.
    destruct (processedMessages (bg w) !! generateMessageId panel_loaded) as [ts|] eqn:E.
    + rewrite (deliver_processed w panel_loaded None t r1 r2 ts E). auto.
    + destruct (Hattach panel_loaded None t r1 r2 eq_refl E) as [Hw1 _].
      rewrite Hw1. cbn [timers sent stored]. rewrite Hmem, Htim. auto.
  - intros now. apply loadRecentItems_mounted.
Qed.

(** A capture arrives while the panel is closed and is persisted; the
    panel then attaches: the background sends nothing and schedules
    nothing, and the Collections view, when it mounts, loads the capture
    from the store.  When the reads of the store fail instead, the capture
    is kept in memory, once per call of [storeCapture], and replayed. *)
Lemma replay_on_attach_witness :
  let evs := [Deliver sample_message (Some 7) 1000 false false;
              Serve true; Serve true; Serve true; Serve true] in
  let w1 := step (run boot evs) (Deliver panel_loaded None 60000 false false) in
  let failing := [Deliver sample_message (Some 7) 1000 false false;
                  Serve false; Serve false] in
  let w2 := step (run boot failing) (Deliver panel_loaded None 60000 false false) in
  timers w1 = [] /\ sent w1 = []
  /\ Collections.setRecentItems
       (Collections.loadRecentItems Collections.mounted 60000 false
          (Collections.Got (stored w1)))
     = Some [Collections.Loaded sample_message]
  /\ List.map fst (timers w2) = [60000; 60100]
  /\ sent (fire 60100 w2)
     = [(60100, forwarded sample_message); (60100, forwarded sample_message)].
Proof.
  intros evs w1 failing w2.
  destruct (replay_on_attach evs) as (_ & _ & Hnone & Hload).
  destruct (Hnone eq_refl) as (_ & _ & Hattach).
  destruct (Hattach 60000 false false) as (Htim & Hsent & Hstored).
  fold w1 in Htim, Hsent, Hstored.
  split; [exact Htim|]. split; [rewrite Hsent; vm_compute; reflexivity|].
  split; [rewrite Hstored, (Hload 60000); vm_compute; reflexivity|].
  destruct (replay_on_attach failing) as (_ & Hreplay & _).
  destruct (Hreplay panel_loaded None 60000 false false eq_refl
              ltac:(vm_compute; reflexivity))
    as (_ & _ & _ & _ & Htimers & Hfire).
  fold w2 in Htimers, Hfire.
  split; [rewrite Htimers; vm_compute; reflexivity|].
  rewrite (Hfire eq_refl 60100 ltac:(vm_compute; discriminate)).
  vm_compute. reflexivity.
Defined.

(** ** The content filter behind the identifier check *)

Lemma hashes_backed_later (evs : list event) (T T' : Z) (st : state) :
  T <= T' -> hashes_backed evs T st -> hashes_backed evs T' st.
Proof.
  intros HT H h ts Hh. destruct (H h ts Hh) as [Hle [Hold | Hback]].
  - split; [lia|]. left. lia.
  - split; [lia|]. right. exact Hback.
Qed.

Lemma onMessage_recentMessages (m : ExtMessage) (tab : option Z) (t : Z)
    (r1 r2 : bool) (st : state) :
  processedMessages st !! generateMessageId m = None ->
  recentMessages (onMessage m tab t r1 r2 st).1 = recentMessages st
  \/ (messageType m = capturedSelection
      /\ recentMessages (onMessage m tab t r1 r2 st).1
         = (messageDeduplication.isDuplicate m t (recentMessages st)).2).
Proof.
  intros E. unfold onMessage, isMessageProcessed. rewrite E.
  destruct (messageType m) eqn:Hk; try (left; reflexivity).
  - destruct tab as [tabId|]; [|left; reflexivity].
    destruct (tabId =? 0); left; reflexivity.
  - destruct (match metadata_type m with Some v => truthy v | None => false end).
    + right. split; [reflexivity|].
      destruct (messageDeduplication.isDuplicate m t _) as [d rm].
      destruct d; reflexivity.
    + left. reflexivity.
  - destruct tab as [tabId|]; [|left; reflexivity].
    destruct (tabId =? 0); left; reflexivity.
Qed.

Lemma hashes_backed_onMessage (evs : list event) (T : Z) (m : ExtMessage)
    (tab : option Z) (t : Z) (r1 r2 : bool) (st : state) :
  In (Deliver m tab t r1 r2) evs ->
  T <= t -> hashes_backed evs T st -> hashes_backed evs t (onMessage m tab t r1 r2 st).1.
Proof.
  intros Hev HT Hinv.
  destruct (processedMessages st !! generateMessageId m) as [ts'|] eqn:E.
  { rewrite (onMessage_processed m tab t r1 r2 st ts' E).
    exact (hashes_backed_later evs T t st HT Hinv). }
  pose proof (onMessage_fresh m tab t r1 r2 st E) as Hpm.
  pose proof (onMessage_recentMessages m tab t r1 r2 st E) as Hrm.
  set (st' := (onMessage m tab t r1 r2 st).1) in *.
  assert (Hold : forall h ts, recentMessages st !! h = Some ts ->
                   ts <= t
                   /\ (ts < t - MESSAGE_EXPIRY_TIME
                       \/ exists m0 tab0 b1 b2 ts0,
                            In (Deliver m0 tab0 ts b1 b2) evs
                            /\ messageType m0 = capturedSelection
                            /\ messageDeduplication.getMessageHash m0 = h
                            /\ processedMessages st' !! generateMessageId m0 = Some ts0
                            /\ ts <= ts0)).
  { intros h ts Hh.
    destruct (Hinv h ts Hh)
      as [Hle [Hexp | (m0 & tab0 & b1 & b2 & ts0 & Hin & Hk0 & Hh0 & Hp0 & Hts)]].
    - split; [lia|]. left. lia.
    - split; [lia|].
      destruct (Z_lt_le_dec ts0 (t - MESSAGE_EXPIRY_TIME)) as [Hlt | Hge].
      + left. lia.
      + right. exists m0, tab0, b1, b2, ts0. repeat split; try assumption.
        rewrite Hpm. apply processed_after_lookup; [exact Hp0 | congruence | exact Hge]. }
  destruct Hrm as [Hrm | [Hkind Hrm]].
  - intros h ts Hh. rewrite Hrm in Hh. exact (Hold h ts Hh).
  - intros h ts Hh. rewrite Hrm in Hh.
    unfold messageDeduplication.isDuplicate in Hh. rewrite dedup_check_map in Hh.
    assert (Hclean : forall ts1, dedup_cleanup messageDeduplication.deduplicationWindow t
                                   (recentMessages st) !! h = Some ts1 ->
                                 recentMessages st !! h = Some ts1).
    { intros ts1 H1. apply dedup_cleanup_lookup in H1. tauto. }
    destruct (dedup_cleanup messageDeduplication.deduplicationWindow t (recentMessages st)
                !! messageDeduplication.getMessageHash m) eqn:Ec.
    + exact (Hold h ts (Hclean ts Hh)).
    + destruct (decide (messageDeduplication.getMessageHash m = h)) as [<-|Hne].
      * rewrite lookup_insert_eq in Hh. injection Hh as <-.
        split; [lia|]. right. exists m, tab, r1, r2, t.
        repeat split; try assumption; try lia.
        rewrite Hpm. apply processed_after_self.
      * rewrite lookup_insert_ne in Hh by exact Hne. exact (Hold h ts (Hclean ts Hh)).
Qed.

Lemma serve_bg_maps (ok : bool) (w : world) :
  processedMessages (bg (serve ok w)) = processedMessages (bg w)
  /\ recentMessages (bg (serve ok w)) = recentMessages (bg w).
Proof.
  unfold serve. destruct (requests w) as [|[m|v] rest]; [auto| |auto].
  destruct ok; auto.
Qed.

Lemma hashes_backed_run (all evs : list event) :
  forall (T : Z) (w : world),
    (forall ev, In ev evs -> In ev all) ->
    in_order T evs = true ->
    hashes_backed all T (bg w) ->
    hashes_backed all (end_time T evs) (bg (run w evs)) /\ T <= end_time T evs.
Proof.
  induction evs as [|ev evs IH]; intros T w Hall Hord Hinv;
    [split; [exact Hinv | cbn; lia]|].
  assert (Hall' : forall ev', In ev' evs -> In ev' all)
    by (intros ev' H; apply Hall; right; exact H).
  pose proof (Hall ev (or_introl eq_refl)) as Hev.
  unfold run. cbn [foldl in_order end_time] in *.
  destruct ev as [m tab t r1 r2|ok|t]; cbn [event_time] in *.
  - apply andb_prop in Hord as [Ht Hord]. apply Z.leb_le in Ht.
    destruct (IH t (step w (Deliver m tab t r1 r2)) Hall' Hord) as [H1 H2].
    + rewrite deliver_bg. apply (hashes_backed_onMessage all T); assumption.
    + split; [exact H1 | lia].
  - apply (IH T (step w (Serve ok)) Hall' Hord).
    intros h ts Hh. cbn [step] in Hh.
    destruct (serve_bg_maps ok w) as [Hp Hr]. rewrite Hr in Hh.
    destruct (Hinv h ts Hh)
      as [Hle [Hexp | (m0 & tab0 & b1 & b2 & ts0 & Hin & Hk0 & Hh0 & Hp0 & Hts)]].
    + split; [lia|]. left. exact Hexp.
    + split; [lia|]. right. exists m0, tab0, b1, b2, ts0. cbn [step]. rewrite Hp. auto.
  - apply andb_prop in Hord as [Ht Hord]. apply Z.leb_le in Ht.
    destruct (IH t (step w (Fire t)) Hall' Hord) as [H1 H2].
    + cbn [step]. rewrite fire_bg. exact (hashes_backed_later all T t (bg w) Ht Hinv).
    + split; [exact H1 | lia].
Qed.

(** X18.  In every state the background reaches from its start through
    events in the order of their times, the content filter
    ([messageDeduplication]) can call a message whose identifier is not on
    record a duplicate only if a capture message with the same hash and
    another identifier was delivered earlier in the run, less than 5 s
    before, put that hash on record and has its own identifier on record
    still.  For every other message the identifier check has rejected the
    duplicate before the content filter is asked. *)
Theorem content_filter_is_shadowed
    (evs : list event) (m : ExtMessage) (T t : Z)
    (Horder : in_order T evs = true)
    (Hlater : end_time T evs <= t)
    (Hnew : processedMessages (bg (run boot evs)) !! generateMessageId m = None)
    (Hdup : (messageDeduplication.isDuplicate m t (recentMessages (bg (run boot evs)))).1
            = true) :
  exists (m0 : ExtMessage) (tab0 : option Z) (t0 : Z) (r1 r2 : bool) (ts0 : Z),
    In (Deliver m0 tab0 t0 r1 r2) evs
    /\ t0 <= t < t0 + messageDeduplication.deduplicationWindow
    /\ recentMessages (bg (run boot evs)) !! messageDeduplication.getMessageHash m = Some t0
    /\ messageType m0 = capturedSelection
    /\ messageDeduplication.getMessageHash m0 = messageDeduplication.getMessageHash m
    /\ processedMessages (bg (run boot evs)) !! generateMessageId m0 = Some ts0
    /\ generateMessageId m0 <> generateMessageId m.
Proof.
  assert (Hboot : hashes_backed evs T (bg boot)).
  { intros h ts Hh. cbn in Hh. rewrite lookup_empty in Hh. discriminate. }
  destruct (hashes_backed_run evs evs T boot (fun _ H => H) Horder Hboot) as [Hinv HT].
  unfold messageDeduplication.isDuplicate in Hdup.
  apply dedup_check_true_iff in Hdup as (ts & Hts & Hwin).
  destruct (Hinv _ ts Hts)
    as [Hle [Hexp | (m0 & tab0 & b1 & b2 & ts0 & Hin & Hk0 & Hh0 & Hp0 & _)]].
  - unfold MESSAGE_EXPIRY_TIME, messageDeduplication.deduplicationWindow in *. lia.
  - exists m0, tab0, ts, b1, b2, ts0.
    split; [exact Hin|]. split; [lia|]. split; [exact Hts|].
    repeat split; try assumption. congruence.
Qed.

(** A capture whose metadata type holds a dash, then one whose content
    starts with the rest of that type: two identifiers, one hash. *)
Lemma content_filter_is_shadowed_witness :
  exists (tab0 : option Z) (t0 : Z) (r1 r2 : bool) (ts0 : Z),
    In (Deliver dashed_type_message tab0 t0 r1 r2)
       [Deliver dashed_type_message (Some 7) 1000 false false]
    /\ t0 <= 2000 < t0 + messageDeduplication.deduplicationWindow
    /\ messageDeduplication.getMessageHash dashed_type_message
       = messageDeduplication.getMessageHash dashed_content_message
    /\ processedMessages
         (bg (run boot [Deliver dashed_type_message (Some 7) 1000 false false]))
         !! generateMessageId dashed_type_message = Some ts0
    /\ generateMessageId dashed_type_message <> generateMessageId dashed_content_message.
Proof.
  destruct (content_filter_is_shadowed
              [Deliver dashed_type_message (Some 7) 1000 false false]
              dashed_content_message 0 2000)
    as (m0 & tab0 & t0 & r1 & r2 & ts0 & Hin & Ht & _ & _ & Hh & Hp & Hid).
  - reflexivity.
  - vm_compute. discriminate.
  - vm_compute. reflexivity.
  - vm_compute. reflexivity.
  - destruct Hin as [E|[]]. injection E as <- <- <- <- <-.
    exists (Some 7), 1000, false, false, ts0.
    split; [left; reflexivity|]. split; [exact Ht|]. split; [exact Hh|].
    split; [exact Hp | exact Hid].
Defined.

(** ** The failure path of [sendToSidePanel] *)

Import PanelSend.

(** X12.  [sendToSidePanel] has no bound on its retries.  When each of n
    sends in a row fails with a connection error and the panel opens
    again each time, n + 1 sends are made, every one of the same message
    with [background] as its origin; each follows the one before it by the
    time the failure and the reopening took and 500 ms; and, from one
    failure on, the panel flag is left set. *)
Theorem sendToSidePanel_keeps_retrying (m : ExtMessage) (ds : list (Z * Z)) :
  forall (t : Z) (flag : bool),
    let r := sendToSidePanel_run m (List.map retriable ds) t flag in
    length r.1 = S (length ds)
    /\ Forall (fun x => x.2 = forwarded m) r.1
    /\ r.1 !! 0%nat = Some (t, forwarded m)
    /\ (forall (i : nat) (d d' : Z) (u : Z) (x : ExtMessage),
           ds !! i = Some (d, d') -> r.1 !! i = Some (u, x) ->
           r.1 !! S i = Some (u + d + d' + 500, forwarded m))
    /\ (ds <> [] -> r.2 = true).
Proof.
  induction ds as [|[d d'] ds IH]; intros t flag r; subst r.
  - cbn. split; [reflexivity|]. split; [repeat constructor|]. split; [reflexivity|].
    split; [intros i d d' u x H; destruct i; discriminate | congruence].
  - cbn [List.map sendToSidePanel_run retriable fst snd].
    change (js_includes (str "Could not establish connection") connection_error) with true.
    cbn iota.
    specialize (IH (t + d + d' + 500) true). cbn zeta in IH.
    fold retriable in IH |- *.
    destruct (sendToSidePanel_run m (List.map retriable ds) (t + d + d' + 500) true)
      as [more f] eqn:E.
    cbn [fst snd] in *. destruct IH as (Hlen & Hall & Hfirst & Hnext & Hflag).
    split; [cbn [length]; lia|].
    split; [constructor; [reflexivity | exact Hall]|].
    split; [reflexivity|].
    split.
    + intros i a a' u x Hi Hu. destruct i as [|i].
      * cbn in Hi, Hu. injection Hi as <- <-. injection Hu as <- <-. exact Hfirst.
      * cbn in Hi, Hu |- *. exact (Hnext i a a' u x Hi Hu).
    + intros _. destruct ds as [|p ds']; [cbn in E; injection E as _ <-; reflexivity|].
      apply Hflag. discriminate.
Qed.

(** Two failures, then a send that succeeds. *)
Lemma sendToSidePanel_three_sends :
  sendToSidePanel_run sample_message
    [Failed 10 connection_error (OpenOk 40); Failed 10 connection_error (OpenOk 40);
     Delivered] 1000 true
  = ([(1000, forwarded sample_message); (1550, forwarded sample_message);
      (2100, forwarded sample_message)], true).
Proof. vm_compute. reflexivity. Qed.

(** ** The filters of the side panel *)

Import SidePanel.

Lemma handleCapturedContent_refs (content : jsstring) (md : option PageMetadata)
    (now : Z) (st : SidePanel.state) :
  messageHashRef (handleCapturedContent content md now st) = messageHashRef st
  /\ messageTimeRef (handleCapturedContent content md now st) = messageTimeRef st
  /\ toasts (handleCapturedContent content md now st) = toasts st.
Proof.
  unfold handleCapturedContent.
  repeat match goal with
         | |- context [if ?b then _ else _] => destruct b
         end; auto.
Qed.

(** The listener either returns at once, or records the message and shows
    a toast. *)
Lemma onCapturedSelection_cases (m : ExtMessage) (now now' : Z) (st : SidePanel.state) :
  (messageHash_of m = messageHashRef st /\ now - messageTimeRef st < 5000
   /\ onCapturedSelection m now now' st = st)
  \/ (~ (messageHash_of m = messageHashRef st /\ now - messageTimeRef st < 5000)
      /\ messageHashRef (onCapturedSelection m now now' st) = messageHash_of m
      /\ messageTimeRef (onCapturedSelection m now now' st) = now
      /\ toasts (onCapturedSelection m now now' st) = toasts st ++ [toast_title m]).
Proof.
  unfold onCapturedSelection.
  destruct (decide (messageHash_of m = messageHashRef st)) as [E|E];
    destruct (Z.ltb_spec (now - messageTimeRef st) 5000) as [L|L]; cbn [andb].
  - left. auto.
  - right. split; [lia|]. cbn.
    match goal with
    | |- context [handleCapturedContent ?c ?md ?n ?s] =>
        destruct (handleCapturedContent_refs c md n s) as (-> & -> & ->)
    end. auto.
  - right. split; [tauto|]. cbn.
    match goal with
    | |- context [handleCapturedContent ?c ?md ?n ?s] =>
        destruct (handleCapturedContent_refs c md n s) as (-> & -> & ->)
    end. auto.
  - right. split; [tauto|]. cbn.
    match goal with
    | |- context [handleCapturedContent ?c ?md ?n ?s] =>
        destruct (handleCapturedContent_refs c md n s) as (-> & -> & ->)
    end. auto.
Qed.

(** X15.  The filter of the side panel remembers one message.  After the
    listener has handled a capture message, that message's hash (metadata
    type and first 50 code units of content) is the one remembered, with a
    time less than 5 s back; a message with the same hash that comes less
    than 5 s after the remembered time changes nothing and shows no
    toast.  But after one message with another hash the first is let
    through again at once, so two captures taking turns are never
    filtered.  A content that is empty or white space only is never put
    on display. *)
Theorem panel_filter_single_slot (st : SidePanel.state) (m : ExtMessage) (t t' : Z) :
  let st1 := onCapturedSelection m t t' st in
  (* the filter remembers the message, whether it let it through or not *)
  messageHashRef st1 = messageHash_of m
  /\ t - messageTimeRef st1 < 5000
  (* a copy within 5 s of the remembered time changes nothing *)
  /\ (forall (m' : ExtMessage) (u u' : Z),
         messageHash_of m' = messageHash_of m ->
         u - messageTimeRef st1 < 5000 ->
         onCapturedSelection m' u u' st1 = st1)
  (* one slot: after a different message the first passes again at once *)
  /\ (forall (m2 : ExtMessage) (u u' v v' : Z),
         messageHash_of m2 <> messageHash_of m ->
         let st3 := onCapturedSelection m v v' (onCapturedSelection m2 u u' st1) in
         messageTimeRef st3 = v
         /\ toasts st3 = toasts st1 ++ [toast_title m2; toast_title m])
  (* blank content is never put on display *)
  /\ (trim (match content m with Some c => c | None => [] end) = [] ->
      capturedContent st1 = capturedContent st
      /\ contentHashRef st1 = contentHashRef st).
Proof.
  intros st1. subst st1.
  assert (Href : messageHashRef (onCapturedSelection m t t' st) = messageHash_of m
                 /\ t - messageTimeRef (onCapturedSelection m t t' st) < 5000).
  { destruct (onCapturedSelection_cases m t t' st) as [(E & L & ->) | (_ & -> & -> & _)];
      [auto | split; [reflexivity | lia]]. }
  destruct Href as [Hh Ht].
  split; [exact Hh|]. split; [exact Ht|]. split; [|split].
  - intros m' u u' Hm' Hu.
    destruct (onCapturedSelection_cases m' u u' (onCapturedSelection m t t' st))
      as [(_ & _ & H) | (Hn & _)]; [exact H|].
    exfalso. apply Hn. split; [congruence | exact Hu].
  - intros m2 u u' v v' Hne st3. subst st3.
    destruct (onCapturedSelection_cases m2 u u' (onCapturedSelection m t t' st))
      as [(E & _ & _) | (_ & Hh2 & _ & Hto2)]; [congruence|].
    destruct (onCapturedSelection_cases m v v'
                (onCapturedSelection m2 u u' (onCapturedSelection m t t' st)))
      as [(E & _ & _) | (_ & _ & Hv & Hto3)]; [congruence|].
    split; [exact Hv|]. rewrite Hto3, Hto2, <- app_assoc. reflexivity.
  - intros Hblank. unfold onCapturedSelection.
    destruct ((if decide (messageHash_of m = messageHashRef st) then true else false)
              && (t - messageTimeRef st <? 5000)); [auto|].
    cbn [capturedContent contentHashRef]. unfold handleCapturedContent.
    destruct (decide (match content m with Some c => c | None => [] end = [])); [auto|].
    destruct (decide (trim match content m with Some c => c | None => [] end = []));
      [auto | contradiction].
Qed.

(** Two captures taking turns within one second: all four are shown. *)
Lemma panel_filter_alternation :
  let run := fold_left (fun st x => onCapturedSelection x.1 x.2 x.2 st) in
  toasts (run [(first_capture, 1000); (sample_message, 1200);
               (first_capture, 1400); (sample_message, 1600)] SidePanel.initial)
  = [str "Captured Text"; str "Captured Text"; str "Captured Text"; str "Captured Text"]
  /\ toasts (run [(first_capture, 1000); (first_capture, 1200)] SidePanel.initial)
     = [str "Captured Text"].
Proof. vm_compute. auto. Qed.
